(** * conv2docx: a shallow embedding of [src/conv2docx/cli.py]

    The program turns YAML/JSON files into Word documents through a
    per-file pipeline: YAML -> JSON, JSON -> fenced Markdown,
    Markdown -> DOCX (external converter), then removal of the
    intermediate files unless [--keep-temp] is given.

    Conventions of the embedding.
    - A Python [str] is a list of Unicode code points ([list N]); a file
      holds a list of bytes ([list N], each below 256).
    - The file system is a finite map from path strings to file
      contents.  Paths are opaque keys, the platform is POSIX, and the
      operating system never refuses to open an existing file, to
      create or truncate a file, or to remove an existing file.  Reads
      fail on a missing file or on bytes that are not UTF-8.
    - Console output is a list of events, one constructor per [print]
      of the source, carrying the values the message interpolates.
      The console encodes as UTF-8: printing a text with a surrogate
      raises.
    - Integers are converted to and from text under the interpreter's
      default limit of 4300 digits.
    - What the program delegates to other packages and cannot be
      derived from its own text ([yaml.safe_load], pandoc, Unicode case
      tables, float printing) is a field of the class [Externals]. *)

From Stdlib Require Import ZArith NArith Ascii String List Bool Lia.
From stdpp Require Import base option list gmap.

Local Open Scope Z_scope.
Local Set Warnings "-register-all".

(** ** Python strings *)

Abbreviation str := (list N) (only parsing).
Abbreviation bytes := (list N) (only parsing).

(** [u "lit"] is the Python string whose characters are the ASCII
    characters of the literal. *)
Fixpoint u (s : string) : str :=
  match s with
  | EmptyString => []
  | String c r => N_of_ascii c :: u r
  end.

Definition str_eqb (a b : str) : bool := bool_decide (a = b).

(** [x in xs] for a list or tuple of strings. *)
Definition str_in (x : str) (xs : list str) : bool := existsb (str_eqb x) xs.

(** [s.endswith(suf)] *)
Definition endswith (s suf : str) : bool :=
  bool_decide (drop (length s - length suf)%nat s = suf).

(** [s.endswith((a, b, ...))] *)
Definition endswith_any (s : str) (sufs : list str) : bool :=
  existsb (endswith s) sufs.

(** [s.rfind(c)] for a one-character [c]: the highest index at which [c]
    occurs, [-1] when it does not occur.  [i] is the index of the head. *)
Fixpoint rfind_from (c : N) (s : str) (i : Z) : Z :=
  match s with
  | [] => -1
  | x :: r =>
      let k := rfind_from c r (i + 1) in
      if 0 <=? k then k else if (x =? c)%N then i else -1
  end.

Definition rfind (c : N) (s : str) : Z := rfind_from c s 0.

(** Slices [s[:i]], [s[i:]] and [s[i:j]] for indices [0 <= i]. *)
Definition slice_to (i : Z) (s : str) : str := take (Z.to_nat i) s.
Definition slice_from (i : Z) (s : str) : str := drop (Z.to_nat i) s.
Definition slice (i j : Z) (s : str) : str := slice_from i (slice_to j s).

Definition SEP : N := 47%N.   (* '/' *)
Definition DOT : N := 46%N.   (* '.' *)

(** [os.path.basename] (posixpath): everything after the last slash. *)
Definition basename (p : str) : str := slice_from (rfind SEP p + 1) p.

(** [os.path.splitext] (genericpath._splitext with sep '/', extsep '.'):
    split at the last dot, provided that dot comes after the last slash
    and some character between the slash and the dot is not a dot. *)
Definition splitext (p : str) : str * str :=
  let sepIndex := rfind SEP p in
  let dotIndex := rfind DOT p in
  if sepIndex <? dotIndex then
    if existsb (fun c => negb (c =? DOT)%N) (slice (sepIndex + 1) dotIndex p)
    then (slice_to dotIndex p, slice_from dotIndex p)
    else (p, [])
  else (p, []).

(** ASCII part of [str.lower]; [other] gives the lower-casing of the
    characters above 127. *)
Definition lower_with (other : N -> str) (s : str) : str :=
  flat_map (fun c => if (c <? 128)%N
                     then [if ((65 <=? c) && (c <=? 90))%N then (c + 32)%N else c]
                     else other c) s.

(** ** The name of the Word document: lines 77-78 of [convert_md_to_docx] *)

Definition docx_output_file (input_file : str) : str :=
  let base_name := fst (splitext (basename input_file)) in
  base_name ++ u ".docx".

(** ** Text files: the UTF-8 codec and newline translation

    [open(path, "r", encoding="utf-8")] decodes strictly and translates
    the line endings CR LF and CR to LF; [open(path, "w",
    encoding="utf-8")] encodes and, on POSIX, leaves LF alone. *)

Definition is_surrogate (c : N) : bool := ((0xD800 <=? c) && (c <=? 0xDFFF))%N.

Definition utf8_encode_char (c : N) : option bytes :=
  (if c <? 0x80 then Some [c]
   else if c <? 0x800 then Some [0xC0 + c / 64; 0x80 + c mod 64]
   else if c <? 0x10000 then
     if is_surrogate c then None
     else Some [0xE0 + c / 4096; 0x80 + (c / 64) mod 64; 0x80 + c mod 64]
   else if c <? 0x110000 then
     Some [0xF0 + c / 262144; 0x80 + (c / 4096) mod 64;
           0x80 + (c / 64) mod 64; 0x80 + c mod 64]
   else None)%N.

Fixpoint utf8_encode (s : str) : option bytes :=
  match s with
  | [] => Some []
  | c :: r =>
      match utf8_encode_char c, utf8_encode r with
      | Some a, Some b => Some (a ++ b)
      | _, _ => None
      end
  end.

(** A Unicode scalar value: a code point that is not a surrogate. *)
Definition is_scalar (c : N) : bool := (c <? 0x110000)%N && negb (is_surrogate c).

Definition is_cont (b : N) : bool := ((0x80 <=? b) && (b <=? 0xBF))%N.

Fixpoint utf8_decode (b : bytes) : option str :=
  match b with
  | [] => Some []
  | b0 :: r0 =>
      if (b0 <? 0x80)%N then cons b0 <$> utf8_decode r0
      else if (b0 <? 0xC2)%N then None
      else if (b0 <? 0xE0)%N then
        match r0 with
        | b1 :: r1 =>
            if is_cont b1
            then cons ((b0 - 0xC0) * 64 + (b1 - 0x80))%N <$> utf8_decode r1
            else None
        | _ => None
        end
      else if (b0 <? 0xF0)%N then
        match r0 with
        | b1 :: b2 :: r2 =>
            let c := ((b0 - 0xE0) * 4096 + (b1 - 0x80) * 64 + (b2 - 0x80))%N in
            if is_cont b1 && is_cont b2 && (0x800 <=? c)%N && negb (is_surrogate c)
            then cons c <$> utf8_decode r2
            else None
        | _ => None
        end
      else if (b0 <? 0xF5)%N then
        match r0 with
        | b1 :: b2 :: b3 :: r3 =>
            let c := ((b0 - 0xF0) * 262144 + (b1 - 0x80) * 4096
                      + (b2 - 0x80) * 64 + (b3 - 0x80))%N in
            if is_cont b1 && is_cont b2 && is_cont b3
               && (0x10000 <=? c)%N && (c <? 0x110000)%N
            then cons c <$> utf8_decode r3
            else None
        | _ => None
        end
      else None
  end.

Definition CR : N := 13%N.
Definition LF : N := 10%N.

(** Universal newlines on reading. *)
Fixpoint universal_newlines (s : str) : str :=
  match s with
  | [] => []
  | c :: r =>
      if (c =? CR)%N then
        LF :: match r with
              | d :: r' => if (d =? LF)%N then universal_newlines r'
                           else universal_newlines r
              | [] => []
              end
      else c :: universal_newlines r
  end.

(** ** The file system *)

Abbreviation filesystem := (gmap (list N) (list N)) (only parsing).

(** [os.path.isfile] and [os.path.exists] on a path of this model. *)
Definition isfile (fs : filesystem) (p : str) : bool := bool_decide (is_Some (fs !! p)).
Definition path_exists (fs : filesystem) (p : str) : bool := isfile fs p.

(** [open(p, "r", encoding="utf-8").read()]; [None] stands for the
    exception (missing file or undecodable bytes). *)
Definition read_text (fs : filesystem) (p : str) : option str :=
  match fs !! p with
  | Some b => universal_newlines <$> utf8_decode b
  | None => None
  end.

(** [os.remove]; [None] stands for the exception. *)
Definition os_remove (fs : filesystem) (p : str) : option filesystem :=
  match fs !! p with
  | Some _ => Some (delete p fs)
  | None => None
  end.

(** ** Values loaded from YAML *)

(** A Python float: NaN, an infinity, or the finite value
    [(-1)^neg * m * 2^e]. *)
Inductive pyfloat :=
| FNan
| FInf (neg : bool)
| FFin (neg : bool) (m : N) (e : Z).

(** What [yaml.safe_load] can return.  [POther] stands for the values
    [json] cannot serialize (bytes, dates, timestamps, sets), named by
    their type and their [repr].  A mapping is the list of its items
    in insertion order. *)
Inductive pyval :=
| PNone
| PBool (b : bool)
| PInt (z : Z)
| PFloat (f : pyfloat)
| PStr (s : str)
| PList (xs : list pyval)
| PDict (items : list (pyval * pyval))
| POther (type_name repr : str).

(** ** The collaborators outside the package *)

Class Externals := {
  (** [yaml.safe_load] on the decoded text; [None] is any exception. *)
  safe_load : str -> option pyval;
  (** [pypandoc.convert_file(md, 'docx', outputfile=...)] on the bytes
      of the Markdown file: whether it returned normally, and what it
      left at the output path. *)
  pandoc : bytes -> bool * option bytes;
  (** [str.lower] on one character above 127. *)
  lower_other : N -> str;
  (** [float.__repr__] of the finite float [(-1)^neg * m * 2^e]. *)
  float_repr : bool -> N -> Z -> str;
  (** [float(literal)] for a JSON number with a fraction or exponent. *)
  float_of_literal : str -> pyfloat;
  (** The bytes [json.dump] had already sent to the stream when it raised. *)
  dump_residue : pyval -> bytes;
  (** [importlib.metadata.version('conv2docx')]: the package is
      installed, and its version is a text the console can print. *)
  package_version : str
}.

(** ** [json.dump(data, dst, indent=4, ensure_ascii=False)] *)

Notation "'let*' x ':=' m 'in' k" :=
  (match m with Some x => k | None => None end)
  (at level 10, x name, m at level 100, k at level 200).

Definition QUOTE : N := 34%N.       (* the double quote *)
Definition BACKSLASH : N := 92%N.

Definition hexdigit (d : N) : N := (if d <? 10 then 48 + d else 87 + d)%N.

(** ESCAPE_DCT of json.encoder: the replacement of one character when
    [ensure_ascii] is false.  Only the quote, the backslash and the
    control characters below 0x20 are replaced. *)
Definition escape_char (c : N) : str :=
  (if c =? BACKSLASH then [BACKSLASH; BACKSLASH]
   else if c =? QUOTE then [BACKSLASH; QUOTE]
   else if c =? 8 then BACKSLASH :: u "b"
   else if c =? 12 then BACKSLASH :: u "f"
   else if c =? 10 then BACKSLASH :: u "n"
   else if c =? 13 then BACKSLASH :: u "r"
   else if c =? 9 then BACKSLASH :: u "t"
   else if c <? 0x20 then BACKSLASH :: u "u00" ++ [hexdigit (c / 16); hexdigit (c mod 16)]
   else [c])%N.

(** py_encode_basestring *)
Definition encode_basestring (s : str) : str :=
  QUOTE :: flat_map escape_char s ++ [QUOTE].

(** Decimal digits of a natural number, most significant first. *)
Fixpoint digits_aux (fuel : nat) (n : N) (acc : str) : str :=
  match fuel with
  | O => acc
  | S f => if (n <? 10)%N then (48 + n)%N :: acc
           else digits_aux f (n / 10)%N ((48 + n mod 10)%N :: acc)
  end.

Definition digits (n : N) : str := digits_aux (S (N.to_nat (N.log2 n))) n [].

(** The decimal text of an integer. *)
Definition decimal (z : Z) : str :=
  if z <? 0 then 45%N :: digits (Z.abs_N z) else digits (Z.abs_N z).

(** [sys.get_int_max_str_digits()], which the program leaves at its
    default. *)
Definition INT_MAX_STR_DIGITS : N := 4300%N.

(** [int.__repr__]; [None] is the ValueError for an integer of more
    digits than the limit. *)
Definition int_repr (z : Z) : option str :=
  if (INT_MAX_STR_DIGITS <? N.of_nat (length (digits (Z.abs_N z))))%N
  then None else Some (decimal z).

Section Encoder.
Context `{Externals}.

(** floatstr of json.encoder, with [allow_nan] at its default. *)
Definition floatstr (f : pyfloat) : str :=
  match f with
  | FNan => u "NaN"
  | FInf false => u "Infinity"
  | FInf true => u "-Infinity"
  | FFin s m e => float_repr s m e
  end.

(** The text of a mapping key; [None] is the TypeError for a key that
    is not a str, int, float, bool or None, or the ValueError of
    [int.__repr__]. *)
Definition key_text (k : pyval) : option str :=
  match k with
  | PStr s => Some s
  | PFloat f => Some (floatstr f)
  | PBool true => Some (u "true")
  | PBool false => Some (u "false")
  | PNone => Some (u "null")
  | PInt z => int_repr z
  | _ => None
  end.

(** ['\n' + _indent * level] with [_indent = ' ' * 4]. *)
Definition newline_indent (level : nat) : str :=
  LF :: repeat 32%N (4 * level).

(** [separator.join(parts)] *)
Fixpoint join (sep : str) (parts : list str) : str :=
  match parts with
  | [] => []
  | [p] => p
  | p :: rest => p ++ sep ++ join sep rest
  end.

(** The text produced by the encoder at nesting depth [level]; [None]
    is the TypeError for a value or key it cannot serialize, or the
    ValueError of [int.__repr__]. *)
Fixpoint json_encode (level : nat) (o : pyval) {struct o} : option str :=
  match o with
  | PStr s => Some (encode_basestring s)
  | PNone => Some (u "null")
  | PBool true => Some (u "true")
  | PBool false => Some (u "false")
  | PInt z => int_repr z
  | PFloat f => Some (floatstr f)
  | PList [] => Some (u "[]")
  | PList xs =>
      let* parts := mapM (json_encode (S level)) xs in
      Some (u "[" ++ newline_indent (S level)
              ++ join (u "," ++ newline_indent (S level)) parts
              ++ newline_indent level ++ u "]")
  | PDict [] => Some (u "{}")
  | PDict items =>
      let* parts :=
        mapM (fun kv => let* k := key_text (fst kv) in
                        let* v := json_encode (S level) (snd kv) in
                        Some (encode_basestring k ++ u ": " ++ v)) items in
      Some (u "{" ++ newline_indent (S level)
              ++ join (u "," ++ newline_indent (S level)) parts
              ++ newline_indent level ++ u "}")
  | POther _ _ => None
  end.

Definition json_dumps (data : pyval) : option str := json_encode 0 data.
End Encoder.

(** ** The layout of the JSON file, line by line

    The text the claims describe, stated on its own and not after the
    encoder: a value is a first line and the lines that follow it, each
    with its nesting depth; a line is written after a newline and four
    spaces per level of depth; the items of a list or mapping stand one
    level deeper than its brackets, each but the last followed by a
    comma; in a string only the quote, the backslash and the control
    characters are escaped. *)

Definition needs_escape (c : N) : bool :=
  ((c =? QUOTE) || (c =? BACKSLASH) || (c <? 32))%N.

Definition quoted (s : str) : str :=
  QUOTE :: flat_map (fun c => if needs_escape c then escape_char c else [c]) s
    ++ [QUOTE].

Definition render_line (l : nat * str) : str :=
  LF :: repeat 32%N (4 * fst l) ++ snd l.

Definition render (t : str * list (nat * str)) : str :=
  fst t ++ flat_map render_line (snd t).

Fixpoint comma_last (ls : list (nat * str)) : list (nat * str) :=
  match ls with
  | [] => []
  | [l] => [(fst l, snd l ++ u ",")]
  | l :: r => l :: comma_last r
  end.

Definition with_comma (t : str * list (nat * str)) : str * list (nat * str) :=
  match snd t with
  | [] => (fst t ++ u ",", [])
  | ls => (fst t, comma_last ls)
  end.

Fixpoint item_lines (depth : nat) (items : list (str * list (nat * str)))
  : list (nat * str) :=
  match items with
  | [] => []
  | [t] => (depth, fst t) :: snd t
  | t :: r => (depth, fst (with_comma t)) :: snd (with_comma t) ++ item_lines depth r
  end.

Section Layout.
Context `{Externals}.

Fixpoint layout (depth : nat) (v : pyval) {struct v}
  : option (str * list (nat * str)) :=
  match v with
  | PNone => Some (u "null", [])
  | PBool true => Some (u "true", [])
  | PBool false => Some (u "false", [])
  | PInt z => let* t := int_repr z in Some (t, [])
  | PFloat f => Some (floatstr f, [])
  | PStr s => Some (quoted s, [])
  | PList [] => Some (u "[]", [])
  | PList xs =>
      let* items := mapM (layout (S depth)) xs in
      Some (u "[", item_lines (S depth) items ++ [(depth, u "]")])
  | PDict [] => Some (u "{}", [])
  | PDict kvs =>
      let* items :=
        mapM (fun kv => let* k := key_text (fst kv) in
                        let* t := layout (S depth) (snd kv) in
                        Some (quoted k ++ u ": " ++ fst t, snd t)) kvs in
      Some (u "{", item_lines (S depth) items ++ [(depth, u "}")])
  | POther _ _ => None
  end.

End Layout.

(** ** Reading the JSON file back: [json.loads]

    The claims speak of parsing the JSON artifact.  The decoder below
    follows json.decoder and json.scanner: the JSON grammar with
    optional whitespace, the constants NaN, Infinity and -Infinity, and
    [dict(pairs)] for objects, where a repeated key keeps its first
    position and its last value. *)

Definition is_ws (c : N) : bool :=
  ((c =? 32) || (c =? 9) || (c =? 10) || (c =? 13))%N.

Fixpoint skip_ws (s : str) : str :=
  match s with
  | c :: r => if is_ws c then skip_ws r else s
  | [] => []
  end.

Definition is_digit (c : N) : bool := ((48 <=? c) && (c <=? 57))%N.

Fixpoint span_digits (s : str) : str * str :=
  match s with
  | c :: r => if is_digit c
              then (c :: fst (span_digits r), snd (span_digits r))
              else ([], s)
  | [] => ([], [])
  end.

Definition digits_value (ds : str) : N :=
  fold_left (fun acc c => (acc * 10 + (c - 48))%N) ds 0%N.

Definition hex_value (c : N) : option N :=
  (if is_digit c then Some (c - 48)
   else if (97 <=? c) && (c <=? 102) then Some (c - 87)
   else if (65 <=? c) && (c <=? 70) then Some (c - 55)
   else None)%N.

(** _decode_uXXXX: four hexadecimal digits. *)
Definition decode_uXXXX (s : str) : option (N * str) :=
  match s with
  | a :: b :: c :: d :: r =>
      match hex_value a, hex_value b, hex_value c, hex_value d with
      | Some x, Some y, Some z, Some w => Some ((((x * 16 + y) * 16 + z) * 16 + w)%N, r)
      | _, _, _, _ => None
      end
  | _ => None
  end.

(** The BACKSLASH table of json.decoder. *)
Definition unescape (esc : N) : option N :=
  (if esc =? QUOTE then Some QUOTE
   else if esc =? BACKSLASH then Some BACKSLASH
   else if esc =? 47 then Some 47
   else if esc =? 98 then Some 8
   else if esc =? 102 then Some 12
   else if esc =? 110 then Some 10
   else if esc =? 114 then Some 13
   else if esc =? 116 then Some 9
   else None)%N.

Definition cons_fst {A} (c : N) (res : option (str * A)) : option (str * A) :=
  match res with
  | Some (t, r) => Some (c :: t, r)
  | None => None
  end.

(** [s.startswith(pre)] *)
Fixpoint starts_with (pre s : str) : bool :=
  match pre, s with
  | [], _ => true
  | p :: pre', c :: s' => (p =? c)%N && starts_with pre' s'
  | _ :: _, [] => false
  end.

(** py_scanstring in strict mode, started after the opening quote:
    the string and what follows its closing quote. *)
Fixpoint scanstring (fuel : nat) (s : str) : option (str * str) :=
  match fuel with
  | O => None
  | S f =>
      match s with
      | [] => None
      | c :: r =>
          if (c =? QUOTE)%N then Some ([], r)
          else if (c =? BACKSLASH)%N then
            match r with
            | [] => None
            | esc :: r1 =>
                if (esc =? 117)%N then
                  match decode_uXXXX r1 with
                  | None => None
                  | Some (uni, r2) =>
                      if ((0xD800 <=? uni) && (uni <=? 0xDBFF))%N then
                        if starts_with [BACKSLASH; 117%N] r2 then
                          match decode_uXXXX (drop 2 r2) with
                          | None => None
                          | Some (uni2, r4) =>
                              if ((0xDC00 <=? uni2) && (uni2 <=? 0xDFFF))%N
                              then cons_fst (0x10000 + ((uni - 0xD800) * 1024
                                                        + (uni2 - 0xDC00)))%N
                                            (scanstring f r4)
                              else cons_fst uni (scanstring f r2)
                          end
                        else cons_fst uni (scanstring f r2)
                      else cons_fst uni (scanstring f r2)
                  end
                else
                  match unescape esc with
                  | Some ch => cons_fst ch (scanstring f r1)
                  | None => None
                  end
            end
          else if (c <? 0x20)%N then None
          else cons_fst c (scanstring f r)
      end
  end.

(** [dict[k] = v] on the item list of a mapping with string keys. *)
Fixpoint dict_set (items : list (pyval * pyval)) (k : str) (v : pyval)
  : list (pyval * pyval) :=
  match items with
  | [] => [(PStr k, v)]
  | (k', v') :: rest =>
      if match k' with PStr s => str_eqb s k | _ => false end
      then (k', v) :: rest
      else (k', v') :: dict_set rest k v
  end.

(** [dict(pairs)] *)
Definition dict_of_pairs (pairs : list (str * pyval)) : list (pyval * pyval) :=
  fold_left (fun items kv => dict_set items (fst kv) (snd kv)) pairs [].

Section Decoder.
Context `{Externals}.

(** NUMBER_RE of json.scanner, group by group: the integer part
    [0|[1-9]\d*], the fraction [\.\d+] and the exponent [[eE][-+]?\d+],
    each with what follows it; a group that does not match is empty. *)
Definition scan_int (s : str) : option (str * str) :=
  match s with
  | d :: r =>
      if is_digit d
      then Some (if (d =? 48)%N then ([d], r) else span_digits s)
      else None
  | [] => None
  end.

Definition scan_frac (s : str) : str * str :=
  match s with
  | c :: r =>
      if (c =? 46)%N then
        match fst (span_digits r) with
        | [] => ([], s)
        | ds => (c :: ds, snd (span_digits r))
        end
      else ([], s)
  | [] => ([], s)
  end.

Definition scan_exp (s : str) : str * str :=
  match s with
  | e :: r =>
      if ((e =? 101) || (e =? 69))%N then
        let sign := match r with
                    | c :: _ => if ((c =? 43) || (c =? 45))%N then [c] else []
                    | [] => []
                    end in
        match fst (span_digits (drop (length sign) r)) with
        | [] => ([], s)
        | ds => (e :: sign ++ ds, snd (span_digits (drop (length sign) r)))
        end
      else ([], s)
  | [] => ([], s)
  end.

(** The number at the head of [s]: an [int] when there is neither
    fraction nor exponent, a [float] otherwise.  [int(text)] raises on
    more digits than the limit. *)
Definition parse_number (s : str) : option (pyval * str) :=
  let neg := match s with c :: _ => (c =? 45)%N | [] => false end in
  match scan_int (if neg then drop 1 s else s) with
  | None => None
  | Some (int_part, r1) =>
      let '(frac, r2) := scan_frac r1 in
      let '(exp, r3) := scan_exp r2 in
      match frac, exp with
      | [], [] =>
          let n := Z.of_N (digits_value int_part) in
          if (INT_MAX_STR_DIGITS <? N.of_nat (length int_part))%N then None
          else Some (PInt (if neg then - n else n), r3)
      | _, _ =>
          Some (PFloat (float_of_literal
                          ((if neg then [45%N] else []) ++ int_part ++ frac ++ exp)),
                r3)
      end
  end.

(** A text that is, as a whole, a JSON number with a fraction or an
    exponent: what [float.__repr__] prints for a finite float. *)
Definition float_literal (lit : str) : bool :=
  let neg := match lit with c :: _ => (c =? 45)%N | [] => false end in
  match scan_int (if neg then drop 1 lit else lit) with
  | None => false
  | Some (_, r1) =>
      let '(frac, r2) := scan_frac r1 in
      let '(exp, r3) := scan_exp r2 in
      match frac, exp with
      | [], [] => false
      | _, _ => match r3 with [] => true | _ => false end
      end
  end.

(** scan_once with JSONArray and JSONObject. *)
Fixpoint parse_value (fuel : nat) (s : str) {struct fuel} : option (pyval * str) :=
  match fuel with
  | O => None
  | S f =>
      match s with
      | [] => None
      | c :: r =>
          if (c =? QUOTE)%N then
            match scanstring (S (length r)) r with
            | Some (t, r') => Some (PStr t, r')
            | None => None
            end
          else if (c =? 123)%N then
            match skip_ws r with
            | [] => None
            | c0 :: r' =>
                if (c0 =? 125)%N then Some (PDict [], r')
                else
                  match parse_members f (c0 :: r') with
                  | Some (pairs, r'') => Some (PDict (dict_of_pairs pairs), r'')
                  | None => None
                  end
            end
          else if (c =? 91)%N then
            match skip_ws r with
            | [] => None
            | c0 :: r' =>
                if (c0 =? 93)%N then Some (PList [], r')
                else
                  match parse_elements f (c0 :: r') with
                  | Some (xs, r'') => Some (PList xs, r'')
                  | None => None
                  end
            end
          else if starts_with (u "null") s then Some (PNone, drop 4 s)
          else if starts_with (u "true") s then Some (PBool true, drop 4 s)
          else if starts_with (u "false") s then Some (PBool false, drop 5 s)
          else
            match parse_number s with
            | Some res => Some res
            | None =>
                if starts_with (u "NaN") s then Some (PFloat FNan, drop 3 s)
                else if starts_with (u "Infinity") s
                then Some (PFloat (FInf false), drop 8 s)
                else if starts_with (u "-Infinity") s
                then Some (PFloat (FInf true), drop 9 s)
                else None
            end
      end
  end
with parse_elements (fuel : nat) (s : str) {struct fuel} : option (list pyval * str) :=
  match fuel with
  | O => None
  | S f =>
      match parse_value f s with
      | None => None
      | Some (v, r) =>
          match skip_ws r with
          | [] => None
          | c :: r' =>
              if (c =? 93)%N then Some ([v], r')
              else if (c =? 44)%N then
                match parse_elements f (skip_ws r') with
                | Some (vs, r'') => Some (v :: vs, r'')
                | None => None
                end
              else None
          end
      end
  end
with parse_members (fuel : nat) (s : str) {struct fuel}
  : option (list (str * pyval) * str) :=
  match fuel with
  | O => None
  | S f =>
      match s with
      | [] => None
      | q :: r =>
          if (q =? QUOTE)%N then
            match scanstring (S (length r)) r with
            | None => None
            | Some (k, r1) =>
                match skip_ws r1 with
                | [] => None
                | c1 :: r2 =>
                    if (c1 =? 58)%N then
                      match parse_value f (skip_ws r2) with
                      | None => None
                      | Some (v, r3) =>
                          match skip_ws r3 with
                          | [] => None
                          | c :: r4 =>
                              if (c =? 125)%N then Some ([(k, v)], r4)
                              else if (c =? 44)%N then
                                match parse_members f (skip_ws r4) with
                                | Some (kvs, r5) => Some ((k, v) :: kvs, r5)
                                | None => None
                                end
                              else None
                          end
                      end
                    else None
                end
            end
          else None
      end
  end.

(** JSONDecoder.decode: one value, whitespace around it, nothing else. *)
Definition json_loads (s : str) : option pyval :=
  match parse_value (S (length s)) (skip_ws s) with
  | Some (v, r) => match skip_ws r with [] => Some v | _ => None end
  | None => None
  end.

(** [json.loads] on the bytes of a file. *)
Definition json_load_bytes (b : bytes) : option pyval :=
  let* text := utf8_decode b in json_loads text.
End Decoder.

(** ** Equality of Python values, [==] *)

(** A bool or an int as an integer, a finite float as [n * 2^e]. *)
Definition number_of (v : pyval) : option (Z * Z) :=
  match v with
  | PBool b => Some (if b then 1 else 0, 0)
  | PInt z => Some (z, 0)
  | PFloat (FFin s m e) => Some (if s then - Z.of_N m else Z.of_N m, e)
  | _ => None
  end.

Definition number_eqb (a b : Z * Z) : bool :=
  let e := Z.min (snd a) (snd b) in
  fst a * 2 ^ (snd a - e) =? fst b * 2 ^ (snd b - e).

Fixpoint py_eq (a b : pyval) {struct a} : bool :=
  match a, b with
  | PNone, PNone => true
  | PStr s, PStr t => str_eqb s t
  | PFloat (FInf s), PFloat (FInf t) => Bool.eqb s t
  | PList xs, PList ys =>
      (fix all2 (xs ys : list pyval) : bool :=
         match xs, ys with
         | [], [] => true
         | x :: xs', y :: ys' => py_eq x y && all2 xs' ys'
         | _, _ => false
         end) xs ys
  | PDict d1, PDict d2 =>
      (length d1 =? length d2)%nat
      && (fix all (d : list (pyval * pyval)) : bool :=
            match d with
            | [] => true
            | kv :: d' =>
                existsb (fun kv' => py_eq (fst kv) (fst kv') && py_eq (snd kv) (snd kv')) d2
                && all d'
            end) d1
  | POther t r, POther t' r' => str_eqb t t' && str_eqb r r'
  | _, _ =>
      match number_of a, number_of b with
      | Some x, Some y => number_eqb x y
      | _, _ => false
      end
  end.

(** A float as Python holds it: NaN, an infinity, or a finite double
    in its reduced form: an odd mantissa below 2^53 (or zero with
    exponent zero), an exponent from -1074 on and a value below
    2^1024. *)
Definition reduced_float (f : pyfloat) : bool :=
  match f with
  | FNan | FInf _ => true
  | FFin _ m e =>
      (N.odd m || ((m =? 0)%N && (e =? 0)))
      && (m <? 2 ^ 53)%N && (-1074 <=? e) && (e + Z.of_N (N.size m) <=? 1024)
  end.

(** The value trees on which writing and reading JSON is lossless:
    nothing outside JSON, and mappings whose keys are strings, pairwise
    distinct. *)
Definition key_string (kv : pyval * pyval) : option str :=
  match fst kv with
  | PStr s => Some s
  | _ => None
  end.

Fixpoint json_plain (v : pyval) : bool :=
  match v with
  | PNone | PBool _ | PInt _ | PStr _ => true
  | PFloat f => reduced_float f
  | POther _ _ => false
  | PList xs => forallb json_plain xs
  | PDict items =>
      forallb (fun kv => match fst kv with PStr _ => true | _ => false end
                         && json_plain (snd kv)) items
      && bool_decide (NoDup (map key_string items))
  end.

(** The value trees without NaN, the one value that [==] does not
    relate to itself. *)
Fixpoint nan_free (v : pyval) : bool :=
  match v with
  | PFloat FNan => false
  | PList xs => forallb nan_free xs
  | PDict items => forallb (fun kv => nan_free (fst kv) && nan_free (snd kv)) items
  | _ => true
  end.

(** ** Console output *)

(** One constructor per [print] of cli.py, with the interpolated values. *)
Inductive event :=
| PrintVersion (v : str)
| NoMatchingFiles
| Processing (file : str)
| JsonCreated (json_file : str)
| YamlError
| YamlSkipped (file : str)
| FileNotFound (input_file : str)
| MdCreated (md_file : str)
| MdError
| MdSkipped (json_file : str)
| DocxSaved (output_file : str)
| DocxError
| TempKept (to_remove : list str)
| TempRemoved (temp_file : str)
| TempRemoveFailed (temp_file : str)
| FileFailed (file : str)
| Traceback.

(** [print] encodes its text for the console, taken to be UTF-8 as the
    files are: it raises UnicodeEncodeError on a text that holds a
    surrogate, which [sys.argv] and [os.listdir] produce for each byte
    of a name that is not UTF-8. *)
Definition printable (s : str) : bool := forallb is_scalar s.

(** ** The program *)

Section Program.
Context `{Externals}.

Definition lower (s : str) : str := lower_with lower_other s.

(** Lines 8-31.  Line 15 computes a [base_name] that is never used. *)
Definition convert_yaml_to_json (fs : filesystem) (input_file : str)
  : filesystem * list event * option str :=
  let json_file := input_file ++ u ".json" in
  match (let* text := read_text fs input_file in safe_load text) with
  | None => (fs, [YamlError], None)
  | Some data =>
      (* line 23 creates or truncates json_file before line 24 writes *)
      match (let* text := json_dumps data in utf8_encode text) with
      | Some b => (<[json_file := b]> fs, [JsonCreated json_file], Some json_file)
      | None => (<[json_file := dump_residue data]> fs, [YamlError], None)
      end
  end.

Definition FENCE_OPEN : str := u "```json" ++ [LF].
Definition FENCE_CLOSE : str := LF :: u "```".

(** Lines 33-66. *)
Definition prepare_markdown_file (fs : filesystem) (input_file : str)
  : filesystem * list event * option str :=
  if negb (isfile fs input_file) then (fs, [FileNotFound input_file], None)
  else
    let md_file := input_file ++ u ".md" in
    match read_text fs input_file with
    | None => (fs, [MdError], None)
    | Some content =>
        let new_content := FENCE_OPEN ++ content ++ FENCE_CLOSE in
        match utf8_encode new_content with
        | Some b => (<[md_file := b]> fs, [MdCreated md_file], Some md_file)
        | None => (<[md_file := []]> fs, [MdError], None)
        end
    end.

(** Lines 69-86.  Without a source file the converter raises. *)
Definition convert_md_to_docx (fs : filesystem) (input_file : str)
  : filesystem * list event * bool :=
  let output_file := docx_output_file input_file in
  match fs !! input_file with
  | None => (fs, [DocxError], false)
  | Some md =>
      let fs' := match snd (pandoc md) with
                 | Some d => <[output_file := d]> fs
                 | None => fs
                 end in
      if fst (pandoc md) then (fs', [DocxSaved output_file], true)
      else (fs', [DocxError], false)
  end.

(** Lines 140-144: the removal list. *)
Definition removal_list (file json_file md_file : str) : list str :=
  (if bool_decide (json_file <> file) then [json_file] else []) ++ [md_file].

(** Lines 149-155: one round of the removal loop. *)
Definition remove_temp (st : filesystem * list event) (temp_file : str)
  : filesystem * list event :=
  let '(fs, log) := st in
  if path_exists fs temp_file then
    match os_remove fs temp_file with
    | Some fs' => (fs', log ++ [TempRemoved temp_file])
    | None => (fs, log ++ [TempRemoveFailed temp_file])
    end
  else (fs, log).

(** Lines 139-155. *)
Definition cleanup (keep_temp : bool) (fs : filesystem) (to_remove : list str)
  : filesystem * list event :=
  if keep_temp then (fs, [TempKept to_remove])
  else fold_left remove_temp to_remove (fs, []).

(** Lines 130-158: steps 2 to 4 for the file [json_file] standing for
    the input [file]. *)
Definition markdown_pipeline (keep_temp : bool) (fs : filesystem)
    (file json_file : str) : filesystem * list event :=
  let '(fs2, log2, md) := prepare_markdown_file fs json_file in
  match md with
  | None => (fs2, log2 ++ [MdSkipped json_file])
  | Some md_file =>
      let '(fs3, log3, success) := convert_md_to_docx fs2 md_file in
      let '(fs4, log4) := cleanup keep_temp fs3 (removal_list file json_file md_file) in
      (fs4, log2 ++ log3 ++ log4 ++ (if success then [] else [FileFailed file]))
  end.

Definition YAML_EXTENSIONS : list str := [u ".yaml"; u ".yml"].

(** Lines 116-158: the body of the loop for one file. *)
Definition process_file (keep_temp : bool) (fs : filesystem) (file : str)
  : filesystem * list event :=
  let ext := lower (snd (splitext file)) in
  if str_in ext YAML_EXTENSIONS then
    let '(fs1, log1, json) := convert_yaml_to_json fs file in
    match json with
    | None => (fs1, Processing file :: log1 ++ [YamlSkipped file])
    | Some json_file =>
        let '(fs', log) := markdown_pipeline keep_temp fs1 file json_file in
        (fs', Processing file :: log1 ++ log)
    end
  else
    let '(fs', log) := markdown_pipeline keep_temp fs file file in
    (fs', Processing file :: log).

(** Lines 115-158: the loop.  The announcement of line 116 stands
    outside every [try]: on a name that cannot be printed the
    exception leaves the loop and ends the program. *)
Fixpoint process_files (keep_temp : bool) (fs : filesystem) (files : list str)
  : filesystem * list event :=
  match files with
  | [] => (fs, [])
  | file :: rest =>
      if printable file then
        let '(fs1, log1) := process_file keep_temp fs file in
        let '(fs2, log2) := process_files keep_temp fs1 rest in
        (fs2, log1 ++ log2)
      else (fs, [Traceback])
  end.

Definition KEEP_TEMP : str := u "--keep-temp".
Definition SCAN_SUFFIXES : list str := [u ".json"; u ".yaml"; u ".yml"].

(** Line 102. *)
Definition keep_temp_flag (args : list str) : bool :=
  str_in KEEP_TEMP args.

(** Line 105. *)
Definition file_arguments (args : list str) : list str :=
  List.filter (fun f => negb (str_eqb f KEEP_TEMP)) args.

(** Line 109; [listing] is what [os.listdir()] returns. *)
Definition scan_directory (listing : list str) : list str :=
  List.filter (fun f => endswith_any (lower f) SCAN_SUFFIXES) listing.

(** Lines 101-109: the candidate file list. *)
Definition input_files (args listing : list str) : list str :=
  match file_arguments args with
  | [] => scan_directory listing
  | files => files
  end.

(** Lines 88-158.  [args] is [sys.argv[1:]].  The result is the exit
    status of the process, the file system it leaves and its output.
    The status is 1 after [sys.exit(1)] and after an exception that
    nothing catches, 0 when [main] returns. *)
Definition main (args listing : list str) (fs : filesystem)
  : Z * filesystem * list event :=
  match input_files args listing with
  | [] => (1, fs, [PrintVersion package_version; NoMatchingFiles])
  | files =>
      let '(fs', log) := process_files (keep_temp_flag args) fs files in
      (if forallb printable files then 0 else 1,
       fs', PrintVersion package_version :: log)
  end.
End Program.

(** ** Sample collaborators, used to run the model on concrete inputs *)

(** A stand-in for [yaml.safe_load] that knows six documents and
    answers on each as PyYAML does; every other text is refused. *)
Definition sample_safe_load (text : str) : option pyval :=
  if str_eqb text (u "key: value")
  then Some (PDict [(PStr (u "key"), PStr (u "value"))])
  else if str_eqb text (u "1: a") then Some (PDict [(PInt 1, PStr (u "a"))])
  else if str_eqb text (u "- 1" ++ [LF] ++ u "- two")
  then Some (PList [PInt 1; PStr (u "two")])
  else if str_eqb text [233%N] then Some (PStr [233%N])
  else if str_eqb text (u "x: 1.5")
  then Some (PDict [(PStr (u "x"), PFloat (FFin false 3 (-1)))])
  else if str_eqb text (u ".nan") then Some (PFloat FNan)
  else None.

(** A stand-in for [float.__repr__]: the exact decimal value of the
    float, as an integer followed by .0 or by a negative power of
    ten. *)
Definition sample_float_repr (neg : bool) (m : N) (e : Z) : str :=
  (if neg then [45%N] else []) ++
  (if 0 <=? e then digits (N.shiftl m (Z.to_N e)) ++ u ".0"
   else digits (m * 5 ^ Z.to_N (- e))%N ++ u "e-" ++ digits (Z.to_N (- e))).

(** The odd part of a number and the power of two beside it. *)
Fixpoint odd_part (p : positive) : positive :=
  match p with
  | xO q => odd_part q
  | _ => p
  end.

Fixpoint two_power (p : positive) : N :=
  match p with
  | xO q => N.succ (two_power q)
  | _ => 0%N
  end.

(** A stand-in for [float] on the texts above. *)
Definition sample_float_of_literal (lit : str) : pyfloat :=
  let neg := match lit with c :: _ => (c =? 45)%N | [] => false end in
  let body := if neg then drop 1 lit else lit in
  let d := digits_value (fst (span_digits body)) in
  let r := snd (span_digits body) in
  if str_eqb r (u ".0") then
    match d with
    | 0%N => FFin neg 0 0
    | N.pos p => FFin neg (N.pos (odd_part p)) (Z.of_N (two_power p))
    end
  else if starts_with (u "e-") r then
    let k := digits_value (drop 2 r) in
    FFin neg (d / 5 ^ k)%N (- Z.of_N k)
  else FFin false 0 0.

(** A converter that always succeeds and leaves a two-byte document. *)
Definition sample_externals : Externals := {|
  safe_load := sample_safe_load;
  pandoc := fun _ => (true, Some (u "PK"));
  lower_other := fun c => [c];
  float_repr := sample_float_repr;
  float_of_literal := sample_float_of_literal;
  dump_residue := fun _ => [];
  package_version := u "0.1.0"
|}.

(** The same with a converter that always raises (pandoc not installed). *)
Definition failing_externals : Externals := {|
  safe_load := sample_safe_load;
  pandoc := fun _ => (false, None);
  lower_other := fun c => [c];
  float_repr := sample_float_repr;
  float_of_literal := sample_float_of_literal;
  dump_residue := fun _ => [];
  package_version := u "0.1.0"
|}.

(** The suffixes of the paths the program writes or removes. *)
Definition WRITTEN_SUFFIXES : list str := [u ".json"; u ".md"; u ".docx"].

(** What may follow a number for the scanner to stop where the number
    ends. *)
Definition number_end (rest : str) : Prop :=
  match rest with
  | [] => True
  | c :: _ => is_digit c = false /\ c <> 46%N /\ c <> 101%N /\ c <> 69%N
  end.

(** What follows a value in the encoder's output: nothing, a comma, or
    the newline of the next line. *)
Definition delimited (rest : str) : Prop :=
  match rest with
  | [] => True
  | c :: _ => c = 44%N \/ c = LF
  end.

(** A text that starts with a character that can start a value. *)
Definition value_start (t : str) : Prop :=
  match t with
  | [] => False
  | c :: _ => is_ws c = false /\ c <> 93%N /\ c <> 125%N
  end.

(** The pairs the decoder collects for a mapping with string keys. *)
Definition pairs_of (items : list (pyval * pyval)) : list (str * pyval) :=
  map (fun kv => (default [] (key_string kv), snd kv)) items.

(** ** Auxiliary notions for the JSON round trip *)

Section RoundTripNotions.
Context `{Externals}.

(** The statement of the round trip for one value, at every depth. *)
Definition reads_back (v : pyval) : Prop :=
  forall level text fuel rest,
    json_plain v = true ->
    json_encode level v = Some text ->
    delimited rest ->
    (length (text ++ rest) < fuel)%nat ->
    parse_value fuel (text ++ rest) = Some (v, rest).

(** The text the encoder produces for one item of a mapping. *)
Definition member_text (level : nat) (kv : pyval * pyval) : option str :=
  let* k := key_text (fst kv) in
  let* v := json_encode (S level) (snd kv) in
  Some (encode_basestring k ++ u ": " ++ v).

(** An item with a string key and a lossless value. *)
Definition plain_member (kv : pyval * pyval) : bool :=
  match fst kv with PStr _ => true | _ => false end && json_plain (snd kv).
End RoundTripNotions.

(** ** Sample file systems *)

(** A YAML mapping, a JSON file and a text that is not YAML. *)
Definition sample_fs : filesystem :=
  <[u "a.yaml" := u "key: value"]>
    (<[u "b.json" := u "{}"]> (<[u "bad.yaml" := u "["]> ∅)).

(** A YAML file holding the one-character string U+00E9, in UTF-8. *)
Definition accent_fs : filesystem := <[u "e.yaml" := [195%N; 169%N]]> ∅.

(** A YAML mapping with an integer key. *)
Definition intkey_fs : filesystem := <[u "m.yaml" := u "1: a"]> ∅.

(** A YAML mapping with a float, and a YAML document that is NaN. *)
Definition float_fs : filesystem := <[u "f.yaml" := u "x: 1.5"]> ∅.
Definition nan_fs : filesystem := <[u "n.yaml" := u ".nan"]> ∅.

(** A text file with an extension the scan does not know. *)
Definition notes_fs : filesystem := <[u "notes.txt" := u "hello"]> ∅.

(** A name with the byte FF, as [os.listdir] and [sys.argv] return it. *)
Definition strange_name : str := 0xDCFF%N :: u ".json".

(** The three steps on the sample YAML file. *)
Definition sample_yaml_step :=
  @convert_yaml_to_json sample_externals sample_fs (u "a.yaml").
Definition sample_md_step :=
  prepare_markdown_file (fst (fst sample_yaml_step)) (u "a.yaml.json").
Definition sample_docx_step :=
  @convert_md_to_docx sample_externals (fst (fst sample_md_step)) (u "a.yaml.json.md").

(** ** Notions used for the properties beyond the claims *)

Section Footprint.
Context `{Externals}.

(** The paths one round of the loop may write or remove for [file]. *)
Definition touched_paths (file : str) : list str :=
  if str_in (lower (snd (splitext file))) YAML_EXTENSIONS
  then [file ++ u ".json";
        (file ++ u ".json") ++ u ".md";
        docx_output_file ((file ++ u ".json") ++ u ".md")]
  else [file ++ u ".md"; docx_output_file (file ++ u ".md")].
End Footprint.

(** A key [json] accepts: a str, an int, a float, a bool or None. *)
Definition json_key (k : pyval) : bool :=
  match k with
  | PStr _ | PInt _ | PFloat _ | PBool _ | PNone => true
  | _ => false
  end.

(** The value trees made of what [json.dump] accepts: None, booleans,
    numbers, strings, lists, and mappings under keys [json_key]
    accepts.  On any other tree it raises TypeError. *)
Fixpoint serializable (v : pyval) : bool :=
  match v with
  | PNone | PBool _ | PInt _ | PFloat _ | PStr _ => true
  | PList xs => forallb serializable xs
  | PDict items => forallb (fun kv => json_key (fst kv) && serializable (snd kv)) items
  | POther _ _ => false
  end.

(** Four more spaces after every newline. *)
Definition indent_more (t : str) : str :=
  flat_map (fun c => if (c =? LF)%N then LF :: repeat 32%N 4 else [c]) t.

(** The candidates the loop reaches: those before the first name that
    cannot be printed. *)
Fixpoint announced (files : list str) : list str :=
  match files with
  | [] => []
  | file :: rest => if printable file then file :: announced rest else []
  end.

Definition is_processing (e : event) : bool :=
  match e with
  | Processing _ => true
  | _ => false
  end.

(** A loader that knows one document with a date, which PyYAML loads as
    a [datetime.date]; the residue is what the encoder has emitted when
    it meets the date. *)
Definition dated_safe_load (text : str) : option pyval :=
  if str_eqb text (u "d: 2001-12-14")
  then Some (PDict [(PStr (u "d"), POther (u "date") (u "datetime.date(2001, 12, 14)"))])
  else None.

Definition dated_externals : Externals := {|
  safe_load := dated_safe_load;
  pandoc := fun _ => (true, Some (u "PK"));
  lower_other := fun c => [c];
  float_repr := sample_float_repr;
  float_of_literal := sample_float_of_literal;
  dump_residue := fun _ => u "{" ++ [LF] ++ u "    " ++ [QUOTE] ++ u "d" ++ [QUOTE] ++ u ": ";
  package_version := u "0.1.0"
|}.

Definition dated_fs : filesystem := <[u "d.yaml" := u "d: 2001-12-14"]> ∅.
(** *** Facts about [rfind] and the path functions *)

Lemma rfind_from_notin c s i : ~ In c s -> rfind_from c s i = -1.
Proof.
  revert i; induction s as [|x r IH]; intros i Hn; simpl; [reflexivity|].
  rewrite IH by (intros H; apply Hn; now right).
  simpl. destruct (N.eqb_spec x c) as [->|]; [|reflexivity].
  exfalso; apply Hn; now left.
Qed.

Lemma rfind_from_last c a b i :
  0 <= i -> ~ In c b -> rfind_from c (a ++ c :: b) i = i + Z.of_nat (length a).
Proof.
  revert i; induction a as [|x a IH]; intros i Hi Hn; simpl.
  - rewrite rfind_from_notin by assumption. simpl.
    rewrite N.eqb_refl. lia.
  - rewrite IH by (assumption || lia).
    destruct (Z.leb_spec 0 (i + 1 + Z.of_nat (length a))); lia.
Qed.

Lemma basename_no_sep p : ~ In SEP p -> basename p = p.
Proof.
  intros H. unfold basename, rfind. now rewrite rfind_from_notin.
Qed.

Lemma basename_after_sep d p : ~ In SEP p -> basename (d ++ SEP :: p) = p.
Proof.
  intros H. unfold basename, rfind, slice_from.
  rewrite rfind_from_last by (assumption || lia).
  replace (Z.to_nat (0 + Z.of_nat (length d) + 1)) with (length (d ++ [SEP])).
  - rewrite (cons_middle SEP d p), app_assoc. apply drop_app_length.
  - rewrite length_app. simpl. lia.
Qed.

Lemma splitext_stem_ext stem ext :
  ~ In SEP stem -> ~ In SEP ext -> ~ In DOT ext ->
  (exists c, In c stem /\ c <> DOT) ->
  splitext (stem ++ DOT :: ext) = (stem, DOT :: ext).
Proof.
  intros Hs He Hd (c & Hc & Hne). unfold splitext, rfind.
  rewrite (rfind_from_notin SEP).
  2:{ rewrite in_app_iff. simpl. intros [?|[?|?]]; auto. discriminate. }
  rewrite rfind_from_last by (assumption || lia).
  destruct (Z.ltb_spec (-1) (0 + Z.of_nat (length stem))) as [_|]; [|lia].
  unfold slice, slice_to, slice_from.
  replace (Z.to_nat (0 + Z.of_nat (length stem))) with (length stem) by lia.
  rewrite take_app_length. simpl.
  replace (existsb _ stem) with true.
  - now rewrite drop_app_length.
  - symmetry. apply existsb_exists. exists c. split; [assumption|].
    now destruct (N.eqb_spec c DOT).
Qed.

Example docx_name_example :
  docx_output_file (u "out/data.yaml.json.md") = u "data.yaml.json.docx".
Proof. vm_compute. reflexivity. Qed.


(** ** The command line *)

Section CommandLine.
Context `{Externals}.

Lemma str_eqb_eq a b : str_eqb a b = true <-> a = b.
Proof. unfold str_eqb. apply bool_decide_eq_true. Qed.

Lemma str_in_In x xs : str_in x xs = true <-> In x xs.
Proof.
  unfold str_in. rewrite existsb_exists. split.
  - intros (y & Hy & He). apply str_eqb_eq in He. now subst.
  - intros Hx. exists x. split; [assumption | now apply str_eqb_eq].
Qed.

Lemma file_arguments_In f args :
  In f (file_arguments args) <-> In f args /\ f <> KEEP_TEMP.
Proof.
  unfold file_arguments. rewrite filter_In, negb_true_iff.
  rewrite <- not_true_iff_false, str_eqb_eq. reflexivity.
Qed.

Lemma file_arguments_app a b :
  file_arguments (a ++ b) = file_arguments a ++ file_arguments b.
Proof. unfold file_arguments. apply List.filter_app. Qed.

Lemma keep_temp_not_scanned listing : ~ In KEEP_TEMP (scan_directory listing).
Proof.
  unfold scan_directory. rewrite filter_In. intros [_ Hs].
  vm_compute in Hs. discriminate.
Qed.

(** C10.  The argument [--keep-temp] sets the flag wherever it stands in
    the argument list; every occurrence is dropped from the file list
    and the other arguments keep their order; no candidate file, whether
    from the arguments or from the directory scan, is named
    [--keep-temp]. *)
Theorem keep_temp_always_consumed :
  (forall before after : list str,
      keep_temp_flag (before ++ KEEP_TEMP :: after) = true /\
      file_arguments (before ++ KEEP_TEMP :: after)
        = file_arguments before ++ file_arguments after) /\
  (forall args : list str,
      keep_temp_flag args = true <-> In KEEP_TEMP args) /\
  (forall args listing : list str, ~ In KEEP_TEMP (input_files args listing)).
Proof.
  split; [|split].
  - intros before after. split.
    + apply str_in_In, in_elt.
    + rewrite file_arguments_app. reflexivity.
  - intros args. apply str_in_In.
  - intros args listing Hin. unfold input_files in Hin.
    destruct (file_arguments args) as [|f l] eqn:E.
    + now apply keep_temp_not_scanned in Hin.
    + rewrite <- E in Hin. apply file_arguments_In in Hin. now destruct Hin.
Qed.

Lemma input_files_empty args listing :
  (forall a, In a args -> a = KEEP_TEMP) ->
  (forall f, In f listing -> endswith_any (lower f) SCAN_SUFFIXES = false) ->
  input_files args listing = [].
Proof.
  intros Ha Hl. unfold input_files.
  destruct (file_arguments args) as [|f l] eqn:E.
  - unfold scan_directory.
    induction listing as [|x r IH]; cbn [List.filter]; [reflexivity|].
    rewrite Hl by now left. apply IH. intros; apply Hl; now right.
  - assert (Hf : In f (file_arguments args)) by (rewrite E; now left).
    apply file_arguments_In in Hf. destruct Hf as [Hin Hne].
    now apply Ha in Hin.
Qed.

(** C5.  When no argument other than the flag is given and no name of
    the directory listing ends, lower-cased, in .json, .yaml or .yml,
    the run ends with status 1, the file system is untouched and the
    only output is the version and the message that nothing matched. *)
Theorem main_without_candidates (args listing : list str) (fs : filesystem) :
  (forall a, In a args -> a = KEEP_TEMP) ->
  (forall f, In f listing -> endswith_any (lower f) SCAN_SUFFIXES = false) ->
  input_files args listing = [] /\
  main args listing fs = (1, fs, [PrintVersion package_version; NoMatchingFiles]).
Proof.
  intros Ha Hl. pose proof (input_files_empty _ _ Ha Hl) as E.
  split; [exact E|]. unfold main. now rewrite E.
Qed.

Lemma main_with_candidates (args listing : list str) (fs : filesystem) :
  input_files args listing <> [] ->
  main args listing fs
  = (if forallb printable (input_files args listing) then 0 else 1,
     fst (process_files (keep_temp_flag args) fs (input_files args listing)),
     PrintVersion package_version
       :: snd (process_files (keep_temp_flag args) fs (input_files args listing))).
Proof.
  intros Hne. unfold main.
  destruct (input_files args listing) as [|f l] eqn:E; [congruence|].
  now destruct (process_files _ fs (f :: l)).
Qed.

Lemma input_files_explicit args listing :
  file_arguments args <> [] -> input_files args listing = file_arguments args.
Proof.
  intros Hne. unfold input_files. now destruct (file_arguments args).
Qed.

End CommandLine.

(** ** The UTF-8 codec *)

Ltac Zify.zify_post_hook ::= Z.to_euclidean_division_equations.

Ltac cmp_cases :=
  repeat match goal with
    | H : context [(?a <? ?b)%N] |- _ => destruct (N.ltb_spec a b)
    | H : context [(?a <=? ?b)%N] |- _ => destruct (N.leb_spec a b)
    | |- context [(?a <? ?b)%N] => destruct (N.ltb_spec a b)
    | |- context [(?a <=? ?b)%N] => destruct (N.leb_spec a b)
    end.

Lemma utf8_encode_char_scalar c :
  is_scalar c = true <-> is_Some (utf8_encode_char c).
Proof.
  unfold is_scalar, utf8_encode_char, is_surrogate.
  split.
  - intros Hs. cmp_cases; simpl in *; try discriminate; try lia; eauto.
  - intros [e He]. cmp_cases; simpl in *; try discriminate; try lia; reflexivity.
Qed.

Lemma utf8_encode_app a b :
  utf8_encode (a ++ b)
  = match utf8_encode a, utf8_encode b with
    | Some x, Some y => Some (x ++ y)
    | _, _ => None
    end.
Proof.
  induction a as [|c a IH]; simpl.
  - now destruct (utf8_encode b).
  - rewrite IH. destruct (utf8_encode_char c), (utf8_encode a), (utf8_encode b);
      try reflexivity. now rewrite app_assoc.
Qed.

Lemma utf8_encode_scalars s :
  Forall (fun c => is_scalar c = true) s <-> is_Some (utf8_encode s).
Proof.
  induction s as [|c s IH]; simpl.
  - split; eauto.
  - rewrite Forall_cons, IH, utf8_encode_char_scalar.
    destruct (utf8_encode_char c), (utf8_encode s); split;
      try (intros [[? ?] [? ?]]; discriminate); try (intros [? ?]; discriminate);
      eauto.
Qed.

Lemma utf8_encode_ascii s :
  Forall (fun c => (c < 128)%N) s -> utf8_encode s = Some s.
Proof.
  induction 1 as [|c s Hc _ IH]; simpl; [reflexivity|].
  rewrite IH. unfold utf8_encode_char.
  destruct (N.ltb_spec c 128); [reflexivity | lia].
Qed.

(** Decoding inverts encoding, one character at a time. *)
Ltac decide_cmp :=
  repeat match goal with
    | |- context [(?a <? ?b)%N] =>
        first [ rewrite (proj2 (N.ltb_lt a b)) by lia
              | rewrite (proj2 (N.ltb_ge a b)) by lia ]
    | |- context [(?a <=? ?b)%N] =>
        first [ rewrite (proj2 (N.leb_le a b)) by lia
              | rewrite (proj2 (N.leb_gt a b)) by lia ]
    end.

Lemma utf8_decode_encoded_char c enc rest :
  utf8_encode_char c = Some enc ->
  utf8_decode (enc ++ rest) = cons c <$> utf8_decode rest.
Proof.
  unfold utf8_encode_char, is_surrogate. intros He.
  destruct (N.ltb_spec c 128).
  { injection He as <-. simpl. destruct (N.ltb_spec c 128); [reflexivity | lia]. }
  destruct (N.ltb_spec c 2048).
  { injection He as <-. cbn [app utf8_decode]. unfold is_cont.
    replace ((192 + c / 64 - 192) * 64 + (128 + c mod 64 - 128))%N with c by lia.
    decide_cmp. reflexivity. }
  destruct (N.ltb_spec c 65536).
  { destruct (N.leb_spec 55296 c), (N.leb_spec c 57343); simpl in He;
      try discriminate; try (exfalso; lia);
      injection He as <-; cbn [app utf8_decode];
      unfold is_cont, is_surrogate;
      replace ((224 + c / 4096 - 224) * 4096 + (128 + (c / 64) mod 64 - 128) * 64
               + (128 + c mod 64 - 128))%N with c by lia;
      decide_cmp; reflexivity. }
  destruct (N.ltb_spec c 1114112); [|discriminate].
  injection He as <-. cbn [app utf8_decode]. unfold is_cont.
  replace ((240 + c / 262144 - 240) * 262144 + (128 + (c / 4096) mod 64 - 128) * 4096
           + (128 + (c / 64) mod 64 - 128) * 64 + (128 + c mod 64 - 128))%N
    with c by lia.
  decide_cmp. reflexivity.
Qed.

Lemma utf8_decode_encode s b : utf8_encode s = Some b -> utf8_decode b = Some s.
Proof.
  revert b. induction s as [|c s IH]; simpl; intros b Hb.
  - now injection Hb as <-.
  - destruct (utf8_encode_char c) as [e|] eqn:Ec; [|discriminate].
    destruct (utf8_encode s) as [b'|] eqn:Es; [|discriminate].
    injection Hb as <-. rewrite (utf8_decode_encoded_char c e b' Ec).
    now rewrite (IH b' eq_refl).
Qed.

(** A decoded text starts with a character whose encoding starts the bytes. *)
Lemma utf8_decode_inv b0 r s :
  utf8_decode (b0 :: r) = Some s ->
  exists c enc rest s',
    b0 :: r = enc ++ rest /\ s = c :: s' /\
    utf8_encode_char c = Some enc /\ utf8_decode rest = Some s' /\
    (length rest < length (b0 :: r))%nat.
Proof.
  cbn [utf8_decode]. intros Hd.
  destruct (N.ltb_spec b0 128).
  { destruct (utf8_decode r) as [s'|] eqn:E; [|discriminate].
    injection Hd as <-. exists b0, [b0], r, s'. repeat split; auto.
    unfold utf8_encode_char. destruct (N.ltb_spec b0 128); [reflexivity|lia]. }
  destruct (N.ltb_spec b0 194); [discriminate|].
  destruct (N.ltb_spec b0 224).
  { destruct r as [|b1 r1]; [discriminate|].
    destruct (is_cont b1) eqn:C1; [|discriminate].
    destruct (utf8_decode r1) as [s'|] eqn:E; [|discriminate].
    injection Hd as <-. unfold is_cont in C1.
    exists ((b0 - 192) * 64 + (b1 - 128))%N, [b0; b1], r1, s'.
    repeat split; auto; [|simpl; lia].
    unfold utf8_encode_char. cmp_cases; simpl in C1; try discriminate; try lia.
    repeat f_equal; lia. }
  destruct (N.ltb_spec b0 240).
  { destruct r as [|b1 [|b2 r2]]; try discriminate.
    destruct (is_cont b1) eqn:C1; [|discriminate].
    destruct (is_cont b2) eqn:C2; [|discriminate].
    cbn [andb] in Hd.
    destruct (N.leb_spec 2048 ((b0 - 224) * 4096 + (b1 - 128) * 64 + (b2 - 128)));
      [|discriminate].
    destruct (is_surrogate _) eqn:Sg; [discriminate|].
    cbn [andb negb] in Hd.
    destruct (utf8_decode r2) as [s'|] eqn:E; [|discriminate].
    injection Hd as <-. unfold is_cont in C1, C2.
    exists ((b0 - 224) * 4096 + (b1 - 128) * 64 + (b2 - 128))%N, [b0; b1; b2], r2, s'.
    repeat split; auto; [|simpl; lia].
    unfold utf8_encode_char. rewrite Sg.
    cmp_cases; simpl in C1, C2; try discriminate; try lia.
    repeat f_equal; lia. }
  destruct (N.ltb_spec b0 245); [|discriminate].
  destruct r as [|b1 [|b2 [|b3 r3]]]; try discriminate.
  destruct (is_cont b1) eqn:C1; [|discriminate].
  destruct (is_cont b2) eqn:C2; [|discriminate].
  destruct (is_cont b3) eqn:C3; [|discriminate].
  cbn [andb] in Hd.
  set (c := ((b0 - 240) * 262144 + (b1 - 128) * 4096 + (b2 - 128) * 64 + (b3 - 128))%N) in *.
  destruct (N.leb_spec 65536 c); [|discriminate].
  destruct (N.ltb_spec c 1114112); [|discriminate].
  cbn [andb] in Hd.
  destruct (utf8_decode r3) as [s'|] eqn:E; [|discriminate].
  injection Hd as <-. unfold is_cont in C1, C2, C3.
  exists c, [b0; b1; b2; b3], r3, s'.
  repeat split; auto; [|simpl; lia].
  unfold utf8_encode_char.
  destruct (N.ltb_spec c 128); [lia|].
  destruct (N.ltb_spec c 2048); [lia|].
  destruct (N.ltb_spec c 65536); [lia|].
  destruct (N.ltb_spec c 1114112); [|lia].
  subst c. cmp_cases; simpl in C1, C2, C3; try discriminate; try lia.
  repeat f_equal; lia.
Qed.

Lemma utf8_encode_decode b s : utf8_decode b = Some s -> utf8_encode s = Some b.
Proof.
  remember (length b) as n eqn:Hn. revert b s Hn.
  induction n as [n IH] using lt_wf_ind. intros b s Hn Hd.
  destruct b as [|b0 r].
  - injection Hd as <-. reflexivity.
  - destruct (utf8_decode_inv b0 r s Hd) as (c & enc & rest & s' & Eb & -> & Ec & Er & Hl).
    simpl. rewrite Ec. rewrite (IH (length rest)) with (b := rest) (s := s'); auto.
    + now rewrite Eb.
    + subst n. exact Hl.
Qed.

Lemma utf8_decode_scalars b s :
  utf8_decode b = Some s -> Forall (fun c => is_scalar c = true) s.
Proof.
  intros Hd. apply utf8_encode_scalars. apply utf8_encode_decode in Hd.
  rewrite Hd. eauto.
Qed.

Lemma universal_newlines_scalars s :
  Forall (fun c => is_scalar c = true) s ->
  Forall (fun c => is_scalar c = true) (universal_newlines s).
Proof.
  remember (length s) as n eqn:Hn. revert s Hn.
  induction n as [n IH] using lt_wf_ind. intros s Hn Hs.
  destruct s as [|c r]; [constructor|].
  inversion Hs as [|? ? Hc Hr]; subst. cbn [universal_newlines].
  destruct (c =? CR)%N.
  - constructor; [reflexivity|].
    destruct r as [|d r']; [constructor|].
    inversion Hr; subst.
    destruct (d =? LF)%N; (eapply IH; [|reflexivity|]); simpl; auto; lia.
  - constructor; [assumption|]. eapply IH; [|reflexivity|]; simpl; auto.
Qed.

(** ** The steps of the pipeline *)

Section Pipeline.
Context `{Externals}.

Lemma docx_output_file_stem (dir stem ext : str) :
  (dir = [] \/ exists d, dir = d ++ [SEP]) ->
  ~ In SEP stem -> ~ In SEP ext -> ~ In DOT ext ->
  (exists c, In c stem /\ c <> DOT) ->
  docx_output_file (dir ++ stem ++ DOT :: ext) = stem ++ u ".docx".
Proof.
  intros Hdir Hs He Hd Hc. unfold docx_output_file.
  assert (Hb : basename (dir ++ stem ++ DOT :: ext) = stem ++ DOT :: ext).
  { assert (Hn : ~ In SEP (stem ++ DOT :: ext)).
    { rewrite in_app_iff. simpl. intros [?|[?|?]]; auto. discriminate. }
    destruct Hdir as [->|[d ->]].
    - now apply basename_no_sep.
    - rewrite <- app_assoc. now apply basename_after_sep. }
  rewrite Hb, splitext_stem_ext by assumption. reflexivity.
Qed.

(** C3.  For a Markdown path made of a directory part (empty, or ending
    in a slash), a stem without slash that is not made of dots only,
    and a final extension without dot or slash, the document is named
    by the stem followed by .docx: the directory is dropped, only the
    last extension is removed, the name has no directory part (it lands
    in the working directory), and that is where the converter's output
    is stored. *)
Theorem docx_named_after_stem (dir stem ext : str) (fs : filesystem) :
  (dir = [] \/ exists d, dir = d ++ [SEP]) ->
  ~ In SEP stem -> ~ In SEP ext -> ~ In DOT ext ->
  (exists c, In c stem /\ c <> DOT) ->
  docx_output_file (dir ++ stem ++ DOT :: ext) = stem ++ u ".docx" /\
  ~ In SEP (docx_output_file (dir ++ stem ++ DOT :: ext)) /\
  (forall md d,
      fs !! (dir ++ stem ++ DOT :: ext) = Some md ->
      snd (pandoc md) = Some d ->
      fst (fst (convert_md_to_docx fs (dir ++ stem ++ DOT :: ext)))
        = <[stem ++ u ".docx" := d]> fs).
Proof.
  intros Hdir Hs He Hd Hc.
  pose proof (docx_output_file_stem dir stem ext Hdir Hs He Hd Hc) as E.
  split; [exact E|]. split.
  - rewrite E, in_app_iff. intros [?|Hin]; [auto|].
    simpl in Hin. repeat (destruct Hin as [Hin|Hin]; [discriminate Hin|]).
    exact Hin.
  - intros md d Hmd Hout. unfold convert_md_to_docx.
    rewrite Hmd, Hout, E. now destruct (fst (pandoc md)).
Qed.

(** *** Removing the temporary files *)

Lemma remove_temp_fs fs log temp_file :
  fst (remove_temp (fs, log) temp_file) = delete temp_file fs.
Proof.
  unfold remove_temp, path_exists, isfile, os_remove.
  destruct (fs !! temp_file) as [b|] eqn:E.
  - rewrite bool_decide_eq_true_2 by eauto. reflexivity.
  - rewrite bool_decide_eq_false_2 by (intros [? ?]; discriminate).
    simpl. symmetry. now apply delete_id.
Qed.

Lemma remove_temp_keeps_absent l fs log p :
  fs !! p = None -> fst (fold_left remove_temp l (fs, log)) !! p = None.
Proof.
  revert fs log. induction l as [|t l IH]; intros fs log Hp; [exact Hp|].
  cbn [fold_left]. destruct (remove_temp (fs, log) t) as [fs' log'] eqn:E.
  apply IH. replace fs' with (fst (remove_temp (fs, log) t)) by now rewrite E.
  rewrite remove_temp_fs. apply lookup_delete_None. now right.
Qed.

Lemma cleanup_removed fs to_remove p :
  In p to_remove -> fst (cleanup false fs to_remove) !! p = None.
Proof.
  unfold cleanup. generalize (@nil event) as log. revert fs.
  induction to_remove as [|t l IH]; intros fs log Hin; [destruct Hin|].
  cbn [fold_left]. destruct (remove_temp (fs, log) t) as [fs' log'] eqn:E.
  assert (Hfs : fs' = delete t fs)
    by (rewrite <- (remove_temp_fs fs log t), E; reflexivity).
  destruct (decide (t = p)) as [->|Hne].
  - apply remove_temp_keeps_absent. subst fs'. apply lookup_delete_eq.
  - destruct Hin as [->|Hin]; [contradiction|]. now apply IH.
Qed.

Lemma cleanup_others fs to_remove p :
  ~ In p to_remove -> fst (cleanup false fs to_remove) !! p = fs !! p.
Proof.
  unfold cleanup. generalize (@nil event) as log. revert fs.
  induction to_remove as [|t l IH]; intros fs log Hin; [reflexivity|].
  cbn [fold_left]. destruct (remove_temp (fs, log) t) as [fs' log'] eqn:E.
  assert (Hfs : fs' = delete t fs)
    by (rewrite <- (remove_temp_fs fs log t), E; reflexivity).
  rewrite IH by (intros Hl; apply Hin; now right).
  subst fs'. apply lookup_delete_ne. intros ->. apply Hin. now left.
Qed.


(** *** The Markdown wrapper *)

Lemma fences_ascii :
  Forall (fun c => (c < 128)%N) FENCE_OPEN /\ Forall (fun c => (c < 128)%N) FENCE_CLOSE.
Proof. split; repeat constructor. Qed.

Lemma read_text_scalars fs p content :
  read_text fs p = Some content -> Forall (fun c => is_scalar c = true) content.
Proof.
  unfold read_text. destruct (fs !! p) as [b|]; [|discriminate].
  destruct (utf8_decode b) as [s|] eqn:E; [|discriminate].
  intros [= <-]. apply universal_newlines_scalars. eapply utf8_decode_scalars, E.
Qed.

Lemma read_text_isfile fs p content : read_text fs p = Some content -> isfile fs p = true.
Proof.
  unfold read_text, isfile. destruct (fs !! p) as [b|]; [|discriminate].
  intros _. apply bool_decide_eq_true_2. eauto.
Qed.

(** C2.  When reading the input as UTF-8 text gives [content], the
    wrapper stores at the input path followed by .md the UTF-8 bytes of
    the opening fence line, the content, a newline and the closing
    fence, nothing else, and returns that path.  The bytes are the two
    fences around the encoded content. *)
Theorem prepare_markdown_file_wraps (fs : filesystem) (input_file content : str) :
  read_text fs input_file = Some content ->
  exists body,
    utf8_encode content = Some body /\
    utf8_encode (u "```json" ++ [LF] ++ content ++ [LF] ++ u "```")
      = Some (u "```json" ++ [LF] ++ body ++ [LF] ++ u "```") /\
    prepare_markdown_file fs input_file
      = (<[input_file ++ u ".md" := u "```json" ++ [LF] ++ body ++ [LF] ++ u "```"]> fs,
         [MdCreated (input_file ++ u ".md")],
         Some (input_file ++ u ".md")).
Proof.
  intros Hr.
  destruct (proj1 (utf8_encode_scalars content) (read_text_scalars _ _ _ Hr))
    as [body Hb].
  destruct fences_ascii as [Ho Hc].
  assert (He : utf8_encode (FENCE_OPEN ++ content ++ FENCE_CLOSE)
               = Some (FENCE_OPEN ++ body ++ FENCE_CLOSE)).
  { rewrite !utf8_encode_app, Hb.
    now rewrite (utf8_encode_ascii _ Ho), (utf8_encode_ascii _ Hc). }
  exists body. split; [exact Hb|]. split; [exact He|].
  unfold prepare_markdown_file.
  rewrite (read_text_isfile _ _ _ Hr), Hr. cbn [negb]. now rewrite He.
Qed.

Lemma prepare_markdown_file_Some fs json_file fs2 log2 md_file :
  prepare_markdown_file fs json_file = (fs2, log2, Some md_file) ->
  md_file = json_file ++ u ".md" /\ is_Some (fs !! json_file) /\
  exists b, fs2 = <[md_file := b]> fs.
Proof.
  unfold prepare_markdown_file, isfile.
  destruct (bool_decide (is_Some (fs !! json_file))) eqn:Ef; [|discriminate].
  apply bool_decide_eq_true in Ef. cbn [negb].
  destruct (read_text fs json_file) as [content|]; [|discriminate].
  destruct (utf8_encode _) as [b|]; [|discriminate].
  intros [= <- <- <-]. eauto.
Qed.

Lemma convert_yaml_to_json_Some fs file fs1 log1 json_file :
  convert_yaml_to_json fs file = (fs1, log1, Some json_file) ->
  json_file = file ++ u ".json" /\ exists b, fs1 = <[json_file := b]> fs.
Proof.
  unfold convert_yaml_to_json.
  destruct (let* text := read_text fs file in safe_load text) as [data|];
    [|discriminate].
  destruct (let* text := json_dumps data in utf8_encode text) as [b|];
    [|discriminate].
  intros [= <- <- <-]. eauto.
Qed.

Lemma convert_md_to_docx_keeps fs2 md_file fs3 log3 success p :
  convert_md_to_docx fs2 md_file = (fs3, log3, success) ->
  is_Some (fs2 !! p) -> is_Some (fs3 !! p).
Proof.
  unfold convert_md_to_docx. intros Hc Hp.
  destruct (fs2 !! md_file) as [md|]; [|injection Hc as <- _ _; exact Hp].
  assert (E : fs3 = match snd (pandoc md) with
                    | Some d => <[docx_output_file md_file := d]> fs2
                    | None => fs2
                    end)
    by (destruct (fst (pandoc md)); now injection Hc as <- _ _).
  subst fs3. destruct (snd (pandoc md)); [|exact Hp].
  rewrite lookup_insert. case_decide; eauto.
Qed.

Lemma suffix_differs (s suf : str) : suf <> [] -> s ++ suf <> s.
Proof.
  intros Hn E. apply (f_equal length) in E. rewrite length_app in E.
  destruct suf; [congruence | simpl in E; lia].
Qed.

(** C4.  Suppose the steps before the cleanup went through for [file]:
    the YAML step when the extension asks for it, the Markdown wrapper,
    and the converter, whether it succeeded or not.  The removal list is
    the JSON file followed by the Markdown file when the YAML step ran,
    and the Markdown file alone otherwise.  With [--keep-temp] the file
    system is left as the converter left it, the list is reported, and
    every path of the list exists; without it no path of the list
    exists afterwards and no other path is touched. *)
Theorem temporary_files_after_conversion
    (fs fs1 fs2 fs3 : filesystem) (file json_file md_file : str)
    (log2 log3 : list event) (success : bool) :
  (if str_in (lower (snd (splitext file))) YAML_EXTENSIONS
   then exists log1, convert_yaml_to_json fs file = (fs1, log1, Some json_file)
   else fs1 = fs /\ json_file = file) ->
  prepare_markdown_file fs1 json_file = (fs2, log2, Some md_file) ->
  convert_md_to_docx fs2 md_file = (fs3, log3, success) ->
  removal_list file json_file md_file
    = (if str_in (lower (snd (splitext file))) YAML_EXTENSIONS
       then [json_file; md_file] else [md_file]) /\
  (fst (process_file true fs file) = fs3 /\
   In (TempKept (removal_list file json_file md_file))
      (snd (process_file true fs file)) /\
   forall p, In p (removal_list file json_file md_file) ->
             is_Some (fst (process_file true fs file) !! p)) /\
  (forall p,
      (In p (removal_list file json_file md_file) ->
       fst (process_file false fs file) !! p = None) /\
      (~ In p (removal_list file json_file md_file) ->
       fst (process_file false fs file) !! p = fs3 !! p)).
Proof.
  intros Hy Hmd Hdocx.
  assert (Hpipe : forall keep,
             markdown_pipeline keep fs1 file json_file
             = (fst (cleanup keep fs3 (removal_list file json_file md_file)),
                log2 ++ log3 ++ snd (cleanup keep fs3 (removal_list file json_file md_file))
                  ++ (if success then [] else [FileFailed file]))).
  { intros keep. unfold markdown_pipeline. rewrite Hmd, Hdocx.
    now destruct (cleanup keep fs3 _). }
  assert (Hproc : forall keep,
             fst (process_file keep fs file)
             = fst (cleanup keep fs3 (removal_list file json_file md_file)) /\
             forall e, In e (snd (cleanup keep fs3 (removal_list file json_file md_file)))
                       -> In e (snd (process_file keep fs file))).
  { intros keep. unfold process_file.
    destruct (str_in (lower (snd (splitext file))) YAML_EXTENSIONS).
    - destruct Hy as [log1 Hy]. rewrite Hy, Hpipe. split; [reflexivity|].
      intros e He. cbn [snd]. right. rewrite !in_app_iff. auto.
    - destruct Hy as [-> ->]. rewrite Hpipe. split; [reflexivity|].
      intros e He. cbn [snd]. right. rewrite !in_app_iff. auto. }
  destruct (prepare_markdown_file_Some _ _ _ _ _ Hmd) as (Emd & Hj & b & Efs2).
  assert (Hlist : removal_list file json_file md_file
                  = if str_in (lower (snd (splitext file))) YAML_EXTENSIONS
                    then [json_file; md_file] else [md_file]).
  { unfold removal_list.
    destruct (str_in (lower (snd (splitext file))) YAML_EXTENSIONS).
    - destruct Hy as [log1 Hy].
      apply convert_yaml_to_json_Some in Hy. destruct Hy as [-> _].
      rewrite bool_decide_eq_true_2; [reflexivity|].
      now apply suffix_differs.
    - destruct Hy as [_ ->]. rewrite bool_decide_eq_false_2; [reflexivity|].
      intros Hne. now apply Hne. }
  split; [exact Hlist|]. split; [split; [|split]|].
  - now rewrite (proj1 (Hproc true)).
  - apply (proj2 (Hproc true)). now left.
  - intros p Hp. rewrite (proj1 (Hproc true)). cbn [cleanup fst].
    apply (convert_md_to_docx_keeps _ _ _ _ _ _ Hdocx). subst fs2.
    rewrite lookup_insert. case_decide; [eauto|].
    unfold removal_list in Hp. rewrite in_app_iff in Hp.
    destruct Hp as [Hp|[Hp|[]]]; [|congruence].
    case_bool_decide; [|destruct Hp]. destruct Hp as [<-|[]]. exact Hj.
  - intros p. rewrite (proj1 (Hproc false)). split.
    + apply cleanup_removed.
    + apply cleanup_others.
Qed.


(** *** Which paths a run can touch *)

Lemma endswith_app (s suf : str) : endswith (s ++ suf) suf = true.
Proof.
  unfold endswith. apply bool_decide_eq_true_2.
  rewrite length_app. replace (length s + length suf - length suf)%nat with (length s) by lia.
  apply drop_app_length.
Qed.

Lemma endswith_split (s suf : str) :
  endswith s suf = true -> exists a, s = a ++ suf.
Proof.
  unfold endswith. intros E. apply bool_decide_eq_true in E.
  exists (take (length s - length suf) s). rewrite <- E at 1.
  symmetry. rewrite E. rewrite <- E at 2. apply take_drop.
Qed.

Lemma written_suffix_json s : endswith_any (s ++ u ".json") WRITTEN_SUFFIXES = true.
Proof. unfold endswith_any. cbn [existsb WRITTEN_SUFFIXES]. now rewrite endswith_app. Qed.

Lemma written_suffix_md s : endswith_any (s ++ u ".md") WRITTEN_SUFFIXES = true.
Proof.
  unfold endswith_any. cbn [existsb WRITTEN_SUFFIXES].
  rewrite (endswith_app s (u ".md")). apply orb_true_r.
Qed.

Lemma written_suffix_docx s : endswith_any (s ++ u ".docx") WRITTEN_SUFFIXES = true.
Proof.
  unfold endswith_any. cbn [existsb WRITTEN_SUFFIXES].
  rewrite (endswith_app s (u ".docx")). now rewrite !orb_true_r.
Qed.

Lemma insert_frame (fs : filesystem) (q p b : list N) :
  endswith_any q WRITTEN_SUFFIXES = true ->
  endswith_any p WRITTEN_SUFFIXES = false ->
  <[q := b]> fs !! p = fs !! p.
Proof. intros Hq Hp. apply lookup_insert_ne. intros ->. congruence. Qed.

Lemma convert_yaml_to_json_frame fs file p :
  endswith_any p WRITTEN_SUFFIXES = false ->
  fst (fst (convert_yaml_to_json fs file)) !! p = fs !! p.
Proof.
  intros Hp. unfold convert_yaml_to_json.
  destruct (let* text := read_text fs file in safe_load text) as [data|];
    [|reflexivity].
  destruct (let* text := json_dumps data in utf8_encode text);
    cbn [fst]; apply insert_frame; auto using written_suffix_json.
Qed.

Lemma prepare_markdown_file_frame fs file p :
  endswith_any p WRITTEN_SUFFIXES = false ->
  fst (fst (prepare_markdown_file fs file)) !! p = fs !! p.
Proof.
  intros Hp. unfold prepare_markdown_file.
  destruct (negb (isfile fs file)); [reflexivity|].
  destruct (read_text fs file); [|reflexivity].
  destruct (utf8_encode _); cbn [fst]; apply insert_frame;
    auto using written_suffix_md.
Qed.

Lemma convert_md_to_docx_frame fs file p :
  endswith_any p WRITTEN_SUFFIXES = false ->
  fst (fst (convert_md_to_docx fs file)) !! p = fs !! p.
Proof.
  intros Hp. unfold convert_md_to_docx.
  destruct (fs !! file) as [md|]; [|reflexivity].
  assert (E : forall d, <[docx_output_file file := d]> fs !! p = fs !! p).
  { intros d. apply insert_frame; [apply written_suffix_docx | exact Hp]. }
  destruct (fst (pandoc md)), (snd (pandoc md)); cbn [fst]; auto.
Qed.

Lemma cleanup_frame keep fs to_remove p :
  ~ In p to_remove -> fst (cleanup keep fs to_remove) !! p = fs !! p.
Proof.
  destruct keep; [reflexivity|]. apply cleanup_others.
Qed.

Lemma markdown_pipeline_frame keep fs file json_file p :
  endswith_any p WRITTEN_SUFFIXES = false ->
  (json_file = file \/ json_file = file ++ u ".json") ->
  fst (markdown_pipeline keep fs file json_file) !! p = fs !! p.
Proof.
  intros Hp Hj. unfold markdown_pipeline.
  destruct (prepare_markdown_file fs json_file) as [[fs2 log2] md] eqn:E2.
  assert (H2 : fs2 !! p = fs !! p).
  { rewrite <- (prepare_markdown_file_frame fs json_file p Hp). now rewrite E2. }
  destruct md as [md_file|]; [|exact H2].
  destruct (convert_md_to_docx fs2 md_file) as [[fs3 log3] success] eqn:E3.
  assert (H3 : fs3 !! p = fs2 !! p).
  { rewrite <- (convert_md_to_docx_frame fs2 md_file p Hp). now rewrite E3. }
  destruct (cleanup keep fs3 _) as [fs4 log4] eqn:E4. cbn [fst].
  rewrite <- H2, <- H3.
  replace fs4 with (fst (cleanup keep fs3 (removal_list file json_file md_file)))
    by now rewrite E4.
  apply cleanup_frame. intros Hin.
  apply prepare_markdown_file_Some in E2. destruct E2 as [-> _].
  assert (Hw : endswith_any p WRITTEN_SUFFIXES = true); [|congruence].
  unfold removal_list in Hin. rewrite in_app_iff in Hin.
  destruct Hin as [Hin|[<-|[]]]; [|apply written_suffix_md].
  case_bool_decide as Hne; [|destruct Hin]. destruct Hin as [<-|[]].
  destruct Hj as [-> | ->]; [congruence | apply written_suffix_json].
Qed.

Lemma process_file_frame keep fs file p :
  endswith_any p WRITTEN_SUFFIXES = false ->
  fst (process_file keep fs file) !! p = fs !! p.
Proof.
  intros Hp. unfold process_file.
  destruct (str_in _ YAML_EXTENSIONS).
  - destruct (convert_yaml_to_json fs file) as [[fs1 log1] json] eqn:E1.
    assert (H1 : fs1 !! p = fs !! p).
    { rewrite <- (convert_yaml_to_json_frame fs file p Hp). now rewrite E1. }
    destruct json as [json_file|]; [|exact H1].
    apply convert_yaml_to_json_Some in E1. destruct E1 as [-> _].
    pose proof (markdown_pipeline_frame keep fs1 file (file ++ u ".json") p Hp
                  (or_intror eq_refl)) as Hm.
    destruct (markdown_pipeline keep fs1 file _). cbn [fst] in *. congruence.
  - pose proof (markdown_pipeline_frame keep fs file file p Hp (or_introl eq_refl)) as Hm.
    now destruct (markdown_pipeline keep fs file file).
Qed.

Lemma process_files_cons keep fs file files :
  printable file = true ->
  process_files keep fs (file :: files)
  = (fst (process_files keep (fst (process_file keep fs file)) files),
     snd (process_file keep fs file)
       ++ snd (process_files keep (fst (process_file keep fs file)) files)).
Proof.
  intros Hf. cbn [process_files]. rewrite Hf.
  destruct (process_file keep fs file) as [fs1 log1]. cbn [fst snd].
  now destruct (process_files keep fs1 files).
Qed.

Lemma process_files_stop keep fs file files :
  printable file = false -> process_files keep fs (file :: files) = (fs, [Traceback]).
Proof. intros Hf. cbn [process_files]. now rewrite Hf. Qed.

Lemma process_files_app keep fs before after :
  forallb printable before = true ->
  process_files keep fs (before ++ after)
  = (fst (process_files keep (fst (process_files keep fs before)) after),
     snd (process_files keep fs before)
       ++ snd (process_files keep (fst (process_files keep fs before)) after)).
Proof.
  revert fs. induction before as [|f l IH]; intros fs Hb.
  - cbn [app process_files fst snd]. now destruct (process_files keep fs after).
  - cbn [forallb] in Hb. apply andb_prop in Hb. destruct Hb as [Hf Hl].
    cbn [app]. rewrite !process_files_cons, IH by assumption. cbn [fst snd].
    now rewrite app_assoc.
Qed.

Lemma process_files_frame keep fs files p :
  endswith_any p WRITTEN_SUFFIXES = false ->
  fst (process_files keep fs files) !! p = fs !! p.
Proof.
  intros Hp. revert fs. induction files as [|f l IH]; intros fs; [reflexivity|].
  destruct (printable f) eqn:Hf; [|now rewrite process_files_stop].
  rewrite process_files_cons by assumption. cbn [fst]. rewrite IH.
  now apply process_file_frame.
Qed.


Lemma splitext_ext_after_last_dot (a e : str) :
  ~ In DOT e ->
  snd (splitext (a ++ DOT :: e)) = [] \/ snd (splitext (a ++ DOT :: e)) = DOT :: e.
Proof.
  intros He. unfold splitext, rfind.
  rewrite (rfind_from_last DOT) by (assumption || lia).
  destruct (_ <? _); [|now left].
  destruct (existsb _ _); [|now left].
  right. cbn [snd]. unfold slice_from.
  replace (Z.to_nat (0 + Z.of_nat (length a))) with (length a) by lia.
  apply drop_app_length.
Qed.

Lemma yaml_name_not_written (file : str) :
  str_in (lower (snd (splitext file))) YAML_EXTENSIONS = true ->
  endswith_any file WRITTEN_SUFFIXES = false.
Proof.
  intros Hy. apply not_true_is_false. intros Hw.
  unfold endswith_any in Hw. cbn [existsb WRITTEN_SUFFIXES] in Hw.
  assert (Hcase : forall e, ~ In DOT e ->
             str_in (lower []) YAML_EXTENSIONS = false ->
             str_in (lower (DOT :: e)) YAML_EXTENSIONS = false ->
             endswith file (DOT :: e) = true -> False).
  { intros e He H0 H1 Hend. apply endswith_split in Hend. destruct Hend as [a ->].
    destruct (splitext_ext_after_last_dot a e He) as [E|E];
      rewrite E in Hy; congruence. }
  apply orb_true_iff in Hw. destruct Hw as [Hw|Hw].
  { apply (Hcase (u "json")); try reflexivity; [|exact Hw].
    simpl. intros Hin. repeat (destruct Hin as [Hin|Hin]; [discriminate Hin|]). exact Hin. }
  apply orb_true_iff in Hw. destruct Hw as [Hw|Hw].
  { apply (Hcase (u "md")); try reflexivity; [|exact Hw].
    simpl. intros Hin. repeat (destruct Hin as [Hin|Hin]; [discriminate Hin|]). exact Hin. }
  apply orb_true_iff in Hw. destruct Hw as [Hw|Hw]; [|discriminate].
  apply (Hcase (u "docx")); try reflexivity; [|exact Hw].
  simpl. intros Hin. repeat (destruct Hin as [Hin|Hin]; [discriminate Hin|]). exact Hin.
Qed.

End Pipeline.

(** ** Writing JSON and reading it back *)

(** *** Integers *)

Lemma digits_value_snoc ds d :
  digits_value (ds ++ [d]) = (digits_value ds * 10 + (d - 48))%N.
Proof. unfold digits_value. now rewrite fold_left_app. Qed.

Lemma digits_aux_spec fuel : forall n acc,
  (n < 2 ^ N.of_nat (S fuel))%N ->
  exists ds,
    digits_aux (S fuel) n acc = ds ++ acc /\
    Forall (fun c => is_digit c = true) ds /\
    ds <> [] /\
    digits_value ds = n /\
    (n <> 0%N -> hd 0%N ds <> 48%N).
Proof.
  induction fuel as [|fuel IH]; intros n acc Hn.
  - assert (n < 2)%N by (simpl in Hn; lia). cbn [digits_aux].
    destruct (N.ltb_spec n 10); [|lia].
    exists [(48 + n)%N]. repeat split; try easy.
    + repeat constructor. unfold is_digit. cmp_cases; try lia; reflexivity.
    + unfold digits_value. simpl. lia.
    + simpl. lia.
  - cbn [digits_aux]. destruct (N.ltb_spec n 10).
    + exists [(48 + n)%N]. repeat split; try easy.
      * repeat constructor. unfold is_digit. cmp_cases; try lia; reflexivity.
      * unfold digits_value. simpl. lia.
      * simpl. lia.
    + destruct (IH (n / 10)%N ((48 + n mod 10)%N :: acc)) as (ds & E & Hd & Hne & Hv & Hh).
      { rewrite Nat2N.inj_succ, N.pow_succ_r' in Hn.
        apply N.Div0.div_lt_upper_bound. lia. }
      exists (ds ++ [(48 + n mod 10)%N]). repeat split.
      * rewrite <- app_assoc. exact E.
      * apply Forall_app. split; [assumption|]. repeat constructor.
        unfold is_digit. cmp_cases; try lia; reflexivity.
      * now destruct ds.
      * rewrite digits_value_snoc, Hv. lia.
      * intros _. destruct ds as [|d ds]; [congruence|]. simpl in *.
        apply Hh. intros E0. apply N.div_small_iff in E0; lia.
Qed.

Lemma digits_spec n :
  Forall (fun c => is_digit c = true) (digits n) /\
  digits n <> [] /\
  digits_value (digits n) = n /\
  (n <> 0%N -> hd 0%N (digits n) <> 48%N).
Proof.
  unfold digits.
  destruct (digits_aux_spec (N.to_nat (N.log2 n)) n []) as (ds & E & H1 & H2 & H3 & H4).
  - rewrite Nat2N.inj_succ, N2Nat.id.
    destruct (N.eq_dec n 0%N) as [->|Hn]; [reflexivity|].
    apply N.log2_spec. lia.
  - rewrite E, app_nil_r. auto.
Qed.

Lemma span_digits_app ds rest :
  Forall (fun c => is_digit c = true) ds ->
  match rest with [] => True | c :: _ => is_digit c = false end ->
  span_digits (ds ++ rest) = (ds, rest).
Proof.
  intros Hd Hr. induction Hd as [|d ds Hc _ IH]; cbn [app span_digits].
  - destruct rest as [|c r]; [reflexivity|]. cbn [span_digits]. now rewrite Hr.
  - now rewrite Hc, IH.
Qed.


Section JsonRoundTrip.
Context `{Externals}.

Lemma scan_int_digits n rest :
  match rest with [] => True | c :: _ => is_digit c = false end ->
  scan_int (digits n ++ rest) = Some (digits n, rest).
Proof.
  intros Hrest. destruct (digits_spec n) as (Hd & Hne & Hv & Hh).
  unfold scan_int.
  destruct (digits n) as [|d ds] eqn:E; [congruence|].
  pose proof (Forall_inv Hd) as Hdd. pose proof (Forall_inv_tail Hd) as Hds.
  cbn beta in Hdd. cbn [app]. rewrite Hdd.
  destruct (N.eqb_spec d 48) as [->|Hd48].
  - destruct (N.eq_dec n 0%N) as [E0|E0].
    + rewrite E0 in E. vm_compute in E. now injection E as <-.
    + exfalso. now apply Hh.
  - f_equal. apply (span_digits_app (d :: ds) rest); [now constructor | exact Hrest].
Qed.

Lemma scan_frac_end rest : number_end rest -> scan_frac rest = ([], rest).
Proof.
  destruct rest as [|c r]; [reflexivity|]. intros (_ & H46 & _).
  unfold scan_frac. now destruct (N.eqb_spec c 46).
Qed.

Lemma scan_exp_end rest : number_end rest -> scan_exp rest = ([], rest).
Proof.
  destruct rest as [|c r]; [reflexivity|]. intros (_ & _ & H101 & H69).
  unfold scan_exp.
  destruct (N.eqb_spec c 101); [contradiction|].
  now destruct (N.eqb_spec c 69).
Qed.

(** *** The scanner on a number followed by more text *)

Lemma number_end_not_digit rest :
  number_end rest -> match rest with [] => True | c :: _ => is_digit c = false end.
Proof. destruct rest; [easy | intros Hn; apply Hn]. Qed.

Lemma span_digits_split s : s = fst (span_digits s) ++ snd (span_digits s).
Proof.
  induction s as [|c r IH]; [reflexivity|]. cbn [span_digits].
  destruct (is_digit c); [|reflexivity]. cbn [fst snd app]. now f_equal.
Qed.

Lemma span_digits_more s rest :
  number_end rest ->
  span_digits (s ++ rest) = (fst (span_digits s), snd (span_digits s) ++ rest).
Proof.
  intros Hend. induction s as [|c r IH]; cbn [app].
  - apply number_end_not_digit in Hend. destruct rest as [|c r]; [reflexivity|].
    cbn [span_digits]. now rewrite Hend.
  - cbn [span_digits]. destruct (is_digit c); [|reflexivity]. now rewrite IH.
Qed.

Lemma scan_int_split s i r : scan_int s = Some (i, r) -> s = i ++ r.
Proof.
  destruct s as [|d s']; [discriminate|]. unfold scan_int.
  destruct (is_digit d); [|discriminate].
  destruct (d =? 48)%N; [now intros [= <- <-] | intros E; apply (inj Some) in E].
  pose proof (span_digits_split (d :: s')) as Hs. rewrite E in Hs. exact Hs.
Qed.

Lemma scan_int_more s i r rest :
  number_end rest -> scan_int s = Some (i, r) -> scan_int (s ++ rest) = Some (i, r ++ rest).
Proof.
  intros Hend. destruct s as [|d s']; [discriminate|]. unfold scan_int.
  cbn [app]. destruct (is_digit d); [|discriminate].
  destruct (d =? 48)%N; [now intros [= <- <-] | intros E; apply (inj Some) in E].
  change (d :: s' ++ rest) with ((d :: s') ++ rest).
  rewrite (span_digits_more _ _ Hend), E. reflexivity.
Qed.

Lemma scan_frac_split s : s = fst (scan_frac s) ++ snd (scan_frac s).
Proof.
  destruct s as [|c r]; [reflexivity|]. unfold scan_frac.
  destruct (c =? 46)%N; [|reflexivity].
  destruct (fst (span_digits r)) as [|d ds] eqn:E; [reflexivity|].
  cbn [fst snd]. rewrite <- E. cbn [app]. f_equal. apply span_digits_split.
Qed.

Lemma scan_frac_more s rest :
  number_end rest ->
  scan_frac (s ++ rest) = (fst (scan_frac s), snd (scan_frac s) ++ rest).
Proof.
  intros Hend. destruct s as [|c r]; [now rewrite scan_frac_end|].
  unfold scan_frac. cbn [app]. destruct (c =? 46)%N; [|reflexivity].
  rewrite (span_digits_more _ _ Hend). cbn [fst snd].
  now destruct (fst (span_digits r)).
Qed.

Lemma scan_exp_split s : s = fst (scan_exp s) ++ snd (scan_exp s).
Proof.
  destruct s as [|c r]; [reflexivity|]. unfold scan_exp.
  destruct (_ || _); [|reflexivity].
  set (sign := match r with
               | c0 :: _ => if ((c0 =? 43) || (c0 =? 45))%N then [c0] else []
               | [] => []
               end).
  assert (Hsign : r = sign ++ drop (length sign) r).
  { subst sign. destruct r as [|c0 r0]; [reflexivity|].
    now destruct (_ || _). }
  destruct (fst (span_digits (drop (length sign) r))) as [|d ds] eqn:E; [reflexivity|].
  cbn [fst snd]. rewrite <- E. cbn [app]. f_equal.
  rewrite <- app_assoc, <- span_digits_split. exact Hsign.
Qed.

Lemma scan_exp_more s rest :
  number_end rest -> snd (scan_exp s) = [] ->
  scan_exp (s ++ rest) = (fst (scan_exp s), rest).
Proof.
  intros Hend. destruct s as [|c r]; [intros _; now rewrite scan_exp_end|].
  unfold scan_exp. cbn [app]. destruct (_ || _); [|discriminate].
  destruct r as [|c0 r0].
  - cbn. discriminate.
  - cbn [app].
    set (sign := if ((c0 =? 43) || (c0 =? 45))%N then [c0] else []).
    assert (Hdrop : drop (length sign) (c0 :: r0 ++ rest)
                    = drop (length sign) (c0 :: r0) ++ rest).
    { subst sign. now destruct (_ || _). }
    rewrite Hdrop, (span_digits_more _ _ Hend). cbn [fst snd].
    destruct (fst (span_digits (drop (length sign) (c0 :: r0)))); [discriminate|].
    cbn [fst snd]. now intros ->.
Qed.


Lemma parse_number_int_repr z t rest :
  int_repr z = Some t ->
  number_end rest -> parse_number (t ++ rest) = Some (PInt z, rest).
Proof.
  unfold int_repr. destruct (N.ltb _ _) eqn:Hlim; [discriminate|].
  intros [= <-] Hend.
  assert (Hrest : match rest with [] => True | c :: _ => is_digit c = false end).
  { destruct rest; [exact I | apply Hend]. }
  unfold parse_number, decimal.
  destruct (Z.ltb_spec z 0) as [Hz|Hz].
  - cbn [app]. rewrite N.eqb_refl.
    change (drop 1 (45%N :: digits (Z.abs_N z) ++ rest)) with (digits (Z.abs_N z) ++ rest).
    rewrite (scan_int_digits _ _ Hrest), (scan_frac_end _ Hend), (scan_exp_end _ Hend).
    cbv beta iota zeta. rewrite Hlim.
    destruct (digits_spec (Z.abs_N z)) as (_ & _ & -> & _).
    do 3 f_equal. lia.
  - destruct (digits_spec (Z.abs_N z)) as (Hd & Hne & Hv & _).
    assert (Hneg : match digits (Z.abs_N z) ++ rest with
                   | c :: _ => (c =? 45)%N
                   | [] => false
                   end = false).
    { destruct (digits (Z.abs_N z)) as [|d ds]; [congruence|].
      pose proof (Forall_inv Hd) as Hdd. cbn beta in Hdd. cbn [app].
      destruct (N.eqb_spec d 45) as [->|]; [discriminate Hdd | reflexivity]. }
    rewrite Hneg.
    rewrite (scan_int_digits _ _ Hrest), (scan_frac_end _ Hend), (scan_exp_end _ Hend).
    cbv beta iota zeta. rewrite Hlim, Hv. do 3 f_equal. lia.
Qed.

Lemma float_literal_start lit :
  float_literal lit = true ->
  exists c r, lit = c :: r /\ (c = 45%N \/ is_digit c = true).
Proof.
  unfold float_literal. destruct lit as [|c l]; [discriminate|].
  intros Hlit. exists c, l. split; [reflexivity|].
  destruct (N.eqb_spec c 45) as [->|_]; [now left|]. right.
  unfold scan_int in Hlit. now destruct (is_digit c).
Qed.

Lemma parse_number_float lit rest :
  float_literal lit = true -> number_end rest ->
  parse_number (lit ++ rest) = Some (PFloat (float_of_literal lit), rest).
Proof.
  unfold float_literal, parse_number. destruct lit as [|c l]; [discriminate|].
  intros Hlit Hend. cbn [app].
  set (body := if (c =? 45)%N then drop 1 (c :: l) else c :: l) in *.
  assert (Hbody : (if (c =? 45)%N then drop 1 (c :: l ++ rest) else c :: l ++ rest)
                  = body ++ rest).
  { subst body. now destruct (c =? 45)%N. }
  assert (Hlit_text : c :: l = (if (c =? 45)%N then [45%N] else []) ++ body).
  { subst body. now destruct (N.eqb_spec c 45) as [->|]. }
  rewrite Hbody. clearbody body.
  destruct (scan_int body) as [[i r1]|] eqn:Ei; [|discriminate].
  rewrite (scan_int_more _ _ _ _ Hend Ei). apply scan_int_split in Ei.
  pose proof (scan_frac_split r1) as Ef. rewrite (scan_frac_more _ _ Hend).
  destruct (scan_frac r1) as [frac r2]. cbn [fst snd] in *.
  pose proof (scan_exp_split r2) as Ee.
  destruct (scan_exp r2) as [exp r3] eqn:Ex. cbn [fst snd] in *.
  assert (Hr3 : r3 = []).
  { destruct frac, exp, r3; try discriminate; reflexivity. }
  subst r3. rewrite (scan_exp_more r2 rest Hend) by now rewrite Ex.
  rewrite Ex. cbn [fst]. rewrite app_nil_r in Ee.
  assert (Htext : (if (c =? 45)%N then [45%N] else []) ++ i ++ frac ++ exp = c :: l).
  { rewrite Hlit_text, Ei, Ef, Ee. reflexivity. }
  rewrite Htext.
  destruct frac, exp; try discriminate; reflexivity.
Qed.

(** *** Strings *)

Lemma control_chars (c : N) : (c < 32)%N -> c = 0%N \/ c = 1%N \/ c = 2%N \/ c = 3%N \/ c = 4%N \/ c = 5%N \/ c = 6%N \/ c = 7%N \/ c = 8%N \/ c = 9%N \/ c = 10%N \/ c = 11%N \/ c = 12%N \/ c = 13%N \/ c = 14%N \/ c = 15%N \/ c = 16%N \/ c = 17%N \/ c = 18%N \/ c = 19%N \/ c = 20%N \/ c = 21%N \/ c = 22%N \/ c = 23%N \/ c = 24%N \/ c = 25%N \/ c = 26%N \/ c = 27%N \/ c = 28%N \/ c = 29%N \/ c = 30%N \/ c = 31%N.
Proof. intros Hc. lia. Qed.

Lemma scanstring_escape_char c t fuel :
  scanstring (S fuel) (escape_char c ++ t) = cons_fst c (scanstring fuel t).
Proof.
  destruct (N.ltb_spec c 32) as [Hc|Hc].
  - apply control_chars in Hc.
    repeat (destruct Hc as [Hc|Hc]; [subst c; reflexivity|]).
    subst c; reflexivity.
  - unfold escape_char.
    destruct (N.eqb_spec c BACKSLASH) as [->|Hb]; [reflexivity|].
    destruct (N.eqb_spec c QUOTE) as [->|Hq]; [reflexivity|].
    destruct (N.eqb_spec c 8); [lia|]. destruct (N.eqb_spec c 12); [lia|].
    destruct (N.eqb_spec c 10); [lia|]. destruct (N.eqb_spec c 13); [lia|].
    destruct (N.eqb_spec c 9); [lia|]. destruct (N.ltb_spec c 32); [lia|].
    cbn [app scanstring].
    destruct (N.eqb_spec c QUOTE); [contradiction|].
    destruct (N.eqb_spec c BACKSLASH); [contradiction|].
    destruct (N.ltb_spec c 32); [lia|]. reflexivity.
Qed.

Lemma scanstring_escaped s rest fuel :
  (length s < fuel)%nat ->
  scanstring fuel (flat_map escape_char s ++ QUOTE :: rest) = Some (s, rest).
Proof.
  revert fuel. induction s as [|c s IH]; intros fuel Hf.
  - destruct fuel; [lia|]. reflexivity.
  - destruct fuel as [|fuel]; [simpl in Hf; lia|].
    cbn [flat_map]. rewrite <- app_assoc, scanstring_escape_char.
    rewrite IH by (simpl in Hf; lia). reflexivity.
Qed.

Lemma escape_char_length c : (1 <= length (escape_char c))%nat.
Proof.
  unfold escape_char.
  repeat match goal with |- context [if ?b then _ else _] => destruct b end;
    simpl; lia.
Qed.

Lemma flat_map_escape_length s : (length s <= length (flat_map escape_char s))%nat.
Proof.
  induction s as [|c s IH]; [reflexivity|]. cbn [flat_map].
  rewrite length_app. pose proof (escape_char_length c). simpl. lia.
Qed.

Lemma scanstring_basestring s rest :
  scanstring (S (length (flat_map escape_char s ++ QUOTE :: rest)))
             (flat_map escape_char s ++ QUOTE :: rest) = Some (s, rest).
Proof.
  apply scanstring_escaped. rewrite length_app.
  pose proof (flat_map_escape_length s). lia.
Qed.


(** *** Induction on value trees *)

Lemma pyval_nested_ind (P : pyval -> Prop) :
  P PNone -> (forall b, P (PBool b)) -> (forall z, P (PInt z)) ->
  (forall f, P (PFloat f)) -> (forall s, P (PStr s)) ->
  (forall xs, Forall P xs -> P (PList xs)) ->
  (forall items, Forall (fun kv => P (fst kv) /\ P (snd kv)) items -> P (PDict items)) ->
  (forall t r, P (POther t r)) ->
  forall v, P v.
Proof.
  intros HNone HBool HInt HFloat HStr HList HDict HOther.
  refine (fix IH (v : pyval) : P v :=
            match v with
            | PNone => HNone
            | PBool b => HBool b
            | PInt z => HInt z
            | PFloat f => HFloat f
            | PStr s => HStr s
            | PList xs =>
                HList xs ((fix go (l : list pyval) : Forall P l :=
                             match l with
                             | [] => List.Forall_nil P
                             | x :: l' => @List.Forall_cons _ P x l' (IH x) (go l')
                             end) xs)
            | PDict items =>
                HDict items
                  ((fix go (l : list (pyval * pyval))
                      : Forall (fun kv => P (fst kv) /\ P (snd kv)) l :=
                      match l with
                      | [] => List.Forall_nil _
                      | kv :: l' =>
                          @List.Forall_cons _ _ kv l' (conj (IH (fst kv)) (IH (snd kv))) (go l')
                      end) items)
            | POther t r => HOther t r
            end).
Qed.

(** *** Whitespace and first characters *)

Lemma skip_ws_newline_indent level t :
  skip_ws (newline_indent level ++ t) = skip_ws t.
Proof.
  unfold newline_indent. cbn [app skip_ws].
  change (is_ws LF) with true. cbn iota.
  induction (4 * level)%nat as [|n IH]; [reflexivity|].
  cbn [repeat app skip_ws]. change (is_ws 32) with true. exact IH.
Qed.

Lemma newline_indent_length level :
  length (newline_indent level) = S (4 * level).
Proof. unfold newline_indent. cbn [length]. now rewrite repeat_length. Qed.

Lemma skip_ws_value_start t : value_start t -> skip_ws t = t.
Proof.
  destruct t as [|c r]; [intros []|]. intros (Hw & _). cbn [skip_ws]. now rewrite Hw.
Qed.

Lemma value_start_app t r : value_start t -> value_start (t ++ r).
Proof. destruct t; [intros []|]. exact id. Qed.

Lemma int_repr_start z t :
  int_repr z = Some t ->
  exists c r, t = c :: r /\ (c = 45%N \/ is_digit c = true).
Proof.
  unfold int_repr. destruct (N.ltb _ _); [discriminate|]. intros [= <-].
  unfold decimal. destruct (digits_spec (Z.abs_N z)) as (Hd & Hne & _).
  destruct (z <? 0); [eauto|].
  destruct (digits (Z.abs_N z)) as [|d ds]; [congruence|].
  exists d, ds. split; [reflexivity|]. right. exact (Forall_inv Hd).
Qed.

Lemma value_start_number c r :
  c = 45%N \/ is_digit c = true -> value_start (c :: r).
Proof.
  unfold value_start, is_ws, is_digit. intros [->|Hc]; [easy|].
  cmp_cases; try discriminate; repeat split;
    repeat match goal with |- context [(?a =? ?b)%N] => destruct (N.eqb_spec a b) end;
    try reflexivity; try lia.
Qed.

(** What the round trip takes from [float.__repr__] and [float]: a
    finite float is printed as a JSON number with a fraction or an
    exponent, and reading that text gives the float back. *)
Hypothesis float_repr_literal :
  forall s m e, reduced_float (FFin s m e) = true ->
                float_literal (float_repr s m e) = true.
Hypothesis float_repr_reads_back :
  forall s m e, reduced_float (FFin s m e) = true ->
                float_of_literal (float_repr s m e) = FFin s m e.

Lemma value_start_encode level v text :
  json_plain v = true -> json_encode level v = Some text -> value_start text.
Proof.
  destruct v as [|[]|z|f|s|[|x xs]|[|kv items]|t r]; cbn [json_encode json_plain];
    try discriminate; intros Hp.
  all: try (intros [= <-]; easy).
  - intros Hz. destruct (int_repr_start z _ Hz) as (c & r & -> & Hc).
    now apply value_start_number.
  - intros [= <-]. destruct f as [|[]|s m e]; [easy|easy|easy|].
    destruct (float_literal_start _ (float_repr_literal s m e Hp)) as (c & r & E & Hc).
    cbn [floatstr]. rewrite E. now apply value_start_number.
  - destruct (mapM _ _); [|discriminate]. intros [= <-]. easy.
  - destruct (mapM _ _); [|discriminate]. intros [= <-]. easy.
Qed.

Lemma delimited_number_end rest : delimited rest -> number_end rest.
Proof.
  destruct rest as [|c r]; [easy|]. intros [->| ->]; easy.
Qed.


(** *** The decoder on the encoder's output *)

#[local] Opaque newline_indent.

Lemma parse_value_number fuel c r :
  c = 45%N \/ is_digit c = true ->
  parse_value (S fuel) (c :: r)
  = match parse_number (c :: r) with
    | Some res => Some res
    | None => if starts_with (u "-Infinity") (c :: r)
              then Some (PFloat (FInf true), drop 9 (c :: r)) else None
    end.
Proof.
  intros Hc. cbn [parse_value].
  assert (Hne : forall k, In k [QUOTE; 123; 91; 110; 116; 102; 78; 73]%N -> (c =? k)%N = false).
  { intros k Hk. apply N.eqb_neq. intros ->. unfold is_digit in Hc. simpl in Hk.
    destruct Hc as [Hc|Hc];
      repeat (destruct Hk as [<-|Hk]; [try discriminate Hc|]); try contradiction. }
  rewrite !Hne by (simpl; auto 10).
  cbn [starts_with u N_of_ascii]. cbn -[parse_number drop Z.of_N].
  rewrite !(N.eqb_sym _ c), !Hne by (simpl; auto 10). cbn [andb].
  reflexivity.
Qed.

Ltac len_norm H :=
  change (u "," ++ newline_indent ?k) with (44%N :: newline_indent k) in *;
  repeat first [ rewrite length_app in H | progress cbn [length] in H
               | rewrite newline_indent_length in H
               | rewrite length_app | progress cbn [length]
               | rewrite newline_indent_length ].

Lemma join_cons2 sep p q parts :
  join sep (p :: q :: parts) = p ++ sep ++ join sep (q :: parts).
Proof. reflexivity. Qed.

Lemma value_start_join sep p parts :
  value_start p -> value_start (join sep (p :: parts)).
Proof.
  intros Hp. destruct parts; [exact Hp|]. rewrite join_cons2. now apply value_start_app.
Qed.

Lemma parse_elements_join level xs : forall parts rest fuel,
  Forall reads_back xs ->
  forallb json_plain xs = true ->
  Forall2 (fun x p => json_encode (S level) x = Some p) xs parts ->
  xs <> [] ->
  delimited rest ->
  (S (length (join (u "," ++ newline_indent (S level)) parts
                ++ newline_indent level ++ 93%N :: rest)) < fuel)%nat ->
  parse_elements fuel
    (join (u "," ++ newline_indent (S level)) parts ++ newline_indent level ++ 93%N :: rest)
  = Some (xs, rest).
Proof.
  induction xs as [|x xs IH]; intros parts rest fuel Hrb Hpl Henc Hne Hrest Hfuel;
    [congruence|].
  inversion Henc as [|? p ? ps Hx Hxs]; subst. clear Henc.
  pose proof (Forall_inv Hrb) as Hx_rb. pose proof (Forall_inv_tail Hrb) as Hxs_rb.
  cbn [forallb] in Hpl. apply andb_prop in Hpl. destruct Hpl as [Hxp Hxsp].
  destruct fuel as [|fuel]; [lia|]. cbn [parse_elements].
  destruct xs as [|x2 xs].
  - inversion Hxs; subst. cbn [join] in *.
    rewrite (Hx_rb (S level) p fuel (newline_indent level ++ 93%N :: rest)); auto.
    + rewrite skip_ws_newline_indent. cbn [skip_ws]. reflexivity.
    + now right.
    + lia.
  - inversion Hxs as [|? p2 ? ps' Hx2 Hxs']; subst.
    rewrite join_cons2 in *. rewrite <- !app_assoc in *.
    change (u ",") with [44%N] in *. cbn [app] in *.
    rewrite (Hx_rb (S level) p fuel); auto.
    + cbn [skip_ws]. change (is_ws 44) with false. cbn iota.
      change (44 =? 93)%N with false. cbn iota. rewrite N.eqb_refl.
      rewrite skip_ws_newline_indent.
      assert (Hvs : value_start (join (44%N :: newline_indent (S level)) (p2 :: ps')
                                   ++ newline_indent level ++ 93%N :: rest)).
      { apply value_start_app, value_start_join.
        eapply value_start_encode; [|exact Hx2].
        cbn [forallb] in Hxsp. now apply andb_prop in Hxsp. }
      rewrite (skip_ws_value_start _ Hvs).
      assert (Hrec : parse_elements fuel
                       (join (44%N :: newline_indent (S level)) (p2 :: ps')
                          ++ newline_indent level ++ 93%N :: rest)
                     = Some (x2 :: xs, rest)).
      { apply (IH (p2 :: ps') rest fuel); auto; try congruence.
        change (u "," ++ newline_indent (S level))
          with (44%N :: newline_indent (S level)).
        len_norm Hfuel. lia. }
      now rewrite Hrec.
    + now left.
    + len_norm Hfuel. lia.
Qed.


Lemma member_text_inv level kv p :
  plain_member kv = true -> member_text level kv = Some p ->
  exists k vt,
    fst kv = PStr k /\ json_encode (S level) (snd kv) = Some vt /\
    json_plain (snd kv) = true /\
    p = QUOTE :: flat_map escape_char k ++ QUOTE :: 58%N :: 32%N :: vt.
Proof.
  unfold plain_member, member_text. destruct kv as [k v]. cbn [fst snd].
  destruct k; try discriminate. cbn [andb key_text]. intros Hv.
  destruct (json_encode (S level) v) as [vt|]; [|discriminate].
  intros [= <-]. exists s, vt. repeat split; auto.
  unfold encode_basestring. cbn [app]. now rewrite <- app_assoc.
Qed.

Lemma value_start_member level kv p :
  plain_member kv = true -> member_text level kv = Some p -> value_start p.
Proof.
  intros Hp Hm. destruct (member_text_inv _ _ _ Hp Hm) as (k & vt & _ & _ & _ & ->).
  easy.
Qed.

Lemma parse_members_join level items : forall parts rest fuel,
  Forall (fun kv => reads_back (snd kv)) items ->
  forallb plain_member items = true ->
  Forall2 (fun kv p => member_text level kv = Some p) items parts ->
  items <> [] ->
  delimited rest ->
  (S (length (join (u "," ++ newline_indent (S level)) parts
                ++ newline_indent level ++ 125%N :: rest)) < fuel)%nat ->
  parse_members fuel
    (join (u "," ++ newline_indent (S level)) parts ++ newline_indent level ++ 125%N :: rest)
  = Some (pairs_of items, rest).
Proof.
  induction items as [|kv items IH]; intros parts rest fuel Hrb Hpl Henc Hne Hrest Hfuel;
    [congruence|].
  inversion Henc as [|? p ? ps Hx Hxs]; subst. clear Henc.
  pose proof (Forall_inv Hrb) as Hx_rb. pose proof (Forall_inv_tail Hrb) as Hxs_rb.
  cbn [forallb] in Hpl. apply andb_prop in Hpl. destruct Hpl as [Hxp Hxsp].
  destruct (member_text_inv _ _ _ Hxp Hx) as (k & vt & Hk & Hvt & Hvp & ->).
  assert (Hkey : default [] (key_string kv) = k) by (unfold key_string; now rewrite Hk).
  destruct fuel as [|fuel]; [lia|].
  change (u ",") with [44%N] in *. cbn [app] in *.
  assert (Hstep : forall tail,
             delimited tail ->
             (length (vt ++ tail) < fuel)%nat ->
             parse_members (S fuel)
               ((QUOTE :: flat_map escape_char k ++ QUOTE :: 58%N :: 32%N :: vt) ++ tail)
             = match skip_ws tail with
               | [] => None
               | c :: r4 =>
                   if (c =? 125)%N then Some ([(k, snd kv)], r4)
                   else if (c =? 44)%N then
                     match parse_members fuel (skip_ws r4) with
                     | Some (kvs, r5) => Some ((k, snd kv) :: kvs, r5)
                     | None => None
                     end
                   else None
               end).
  { intros tail Htail Hlen. cbn [parse_members app].
    rewrite N.eqb_refl. rewrite <- app_assoc. cbn [app].
    rewrite scanstring_basestring. cbn [skip_ws].
    change (is_ws 58) with false. cbn iota. rewrite N.eqb_refl.
    cbn [skip_ws]. change (is_ws 32) with true. cbn iota.
    rewrite skip_ws_value_start
      by (apply value_start_app; eapply value_start_encode; eassumption).
    now rewrite (Hx_rb (S level) vt fuel tail). }
  destruct items as [|kv2 items].
  - apply Forall2_nil_inv_l in Hxs as ->. cbn [join pairs_of map] in *. rewrite Hkey.
    rewrite Hstep.
    + rewrite skip_ws_newline_indent. cbn [skip_ws]. reflexivity.
    + now right.
    + len_norm Hfuel. lia.
  - apply Forall2_cons_inv_l in Hxs as (p2 & ps' & Hx2 & Hxs' & ->).
    rewrite join_cons2 in *. rewrite app_assoc in Hfuel |- *.
    cbn [pairs_of map]. rewrite Hkey.
    rewrite <- !app_assoc in *. cbn [app] in *.
    set (tail := 44%N :: newline_indent (S level)
                   ++ join (44%N :: newline_indent (S level)) (p2 :: ps')
                   ++ newline_indent level ++ 125%N :: rest) in *.
    assert (Htail : delimited tail) by now left.
    assert (Hlen : (length (vt ++ tail) < fuel)%nat)
      by (subst tail; len_norm Hfuel; lia).
    etransitivity; [exact (Hstep tail Htail Hlen)|]. subst tail.
    cbn [skip_ws]. change (is_ws 44) with false. cbn iota.
    change (44 =? 125)%N with false. cbn iota.
    rewrite skip_ws_newline_indent.
    assert (Hvs : value_start (join (44%N :: newline_indent (S level)) (p2 :: ps')
                                 ++ newline_indent level ++ 125%N :: rest)).
    { apply value_start_app, value_start_join.
      eapply value_start_member; [|exact Hx2].
      cbn [forallb] in Hxsp. now apply andb_prop in Hxsp. }
    rewrite (skip_ws_value_start _ Hvs).
    assert (Hrec : parse_members fuel
                     (join (44%N :: newline_indent (S level)) (p2 :: ps')
                        ++ newline_indent level ++ 125%N :: rest)
                   = Some (pairs_of (kv2 :: items), rest)).
    { apply (IH (p2 :: ps') rest fuel); auto; try congruence.
      len_norm Hfuel. lia. }
    now rewrite Hrec.
Qed.


(** *** Mappings rebuilt from their pairs *)

Lemma dict_set_fresh items k v :
  ~ In (Some k) (map key_string items) ->
  dict_set items k v = items ++ [(PStr k, v)].
Proof.
  induction items as [|[k' v'] items IH]; intros Hn; [reflexivity|].
  cbn [dict_set app]. cbn [map In] in Hn.
  assert (Hk : match k' with PStr s => str_eqb s k | _ => false end = false).
  { destruct k'; try reflexivity. apply not_true_is_false. intros E.
    apply str_eqb_eq in E. subst. apply Hn. now left. }
  rewrite Hk, IH; [reflexivity|]. intros Hin. apply Hn. now right.
Qed.

Lemma dict_of_pairs_from items : forall acc,
  forallb plain_member items = true ->
  NoDup (map key_string acc ++ map key_string items) ->
  fold_left (fun d kv => dict_set d (fst kv) (snd kv)) (pairs_of items) acc
  = acc ++ items.
Proof.
  induction items as [|[k v] items IH]; intros acc Hp Hnd.
  - now rewrite app_nil_r.
  - cbn [forallb] in Hp. apply andb_prop in Hp. destruct Hp as [Hkv Hp].
    unfold plain_member in Hkv. cbn [fst snd] in Hkv.
    destruct k; try discriminate Hkv.
    cbn [pairs_of map fold_left key_string fst snd default] in *.
    rewrite dict_set_fresh.
    + fold (pairs_of items). rewrite IH; auto.
      * now rewrite <- app_assoc.
      * rewrite map_app, <- app_assoc. exact Hnd.
    + intros Hin. apply NoDup_app in Hnd. destruct Hnd as (_ & Hdis & _).
      apply (Hdis (Some s)); [now apply list_elem_of_In | left].
Qed.

Lemma dict_of_pairs_items items :
  forallb plain_member items = true ->
  NoDup (map key_string items) ->
  dict_of_pairs (pairs_of items) = items.
Proof.
  intros Hp Hnd. unfold dict_of_pairs. now rewrite dict_of_pairs_from.
Qed.


(** *** The round trip on value trees *)

Lemma json_encode_list level x xs :
  json_encode level (PList (x :: xs))
  = let* parts := mapM (json_encode (S level)) (x :: xs) in
    Some (91%N :: newline_indent (S level)
            ++ join (44%N :: newline_indent (S level)) parts
            ++ newline_indent level ++ [93%N]).
Proof. reflexivity. Qed.

Lemma json_encode_dict level kv items :
  json_encode level (PDict (kv :: items))
  = let* parts := mapM (member_text level) (kv :: items) in
    Some (123%N :: newline_indent (S level)
            ++ join (44%N :: newline_indent (S level)) parts
            ++ newline_indent level ++ [125%N]).
Proof. reflexivity. Qed.

Lemma bracketed_app (open close : N) (a j b rest : str) :
  (open :: a ++ j ++ b ++ [close]) ++ rest = open :: a ++ j ++ b ++ close :: rest.
Proof. cbn [app]. now rewrite <- !app_assoc. Qed.

Lemma parse_value_array fuel r :
  parse_value (S fuel) (91%N :: r)
  = match skip_ws r with
    | [] => None
    | c0 :: r' =>
        if (c0 =? 93)%N then Some (PList [], r')
        else match parse_elements fuel (c0 :: r') with
             | Some (xs, r'') => Some (PList xs, r'')
             | None => None
             end
    end.
Proof. reflexivity. Qed.

Lemma parse_value_object fuel r :
  parse_value (S fuel) (123%N :: r)
  = match skip_ws r with
    | [] => None
    | c0 :: r' =>
        if (c0 =? 125)%N then Some (PDict [], r')
        else match parse_members fuel (c0 :: r') with
             | Some (pairs, r'') => Some (PDict (dict_of_pairs pairs), r'')
             | None => None
             end
    end.
Proof. reflexivity. Qed.

Theorem parse_value_encode v : reads_back v.
Proof.
  induction v as [|b|z|f|s|xs IHxs|items IHitems|t r] using pyval_nested_ind;
    intros level text fuel rest Hplain Henc Hrest Hfuel;
    (destruct fuel as [|fuel]; [lia|]).
  - injection Henc as <-. reflexivity.
  - destruct b; injection Henc as <-; reflexivity.
  - cbn [json_encode] in Henc.
    destruct (int_repr_start z _ Henc) as (c & r & E & Hc).
    assert (E' : text ++ rest = c :: r ++ rest) by now rewrite E.
    rewrite E', parse_value_number by exact Hc. rewrite <- E'.
    now rewrite (parse_number_int_repr z) by (assumption || now apply delimited_number_end).
  - cbn [json_encode] in Henc. injection Henc as <-. cbn [json_plain] in Hplain.
    destruct f as [|[]|s m e]; [reflexivity|reflexivity|reflexivity|].
    cbn [floatstr].
    destruct (float_literal_start _ (float_repr_literal s m e Hplain))
      as (c & r & E & Hc).
    assert (E' : float_repr s m e ++ rest = c :: r ++ rest) by now rewrite E.
    rewrite E', parse_value_number by exact Hc. rewrite <- E'.
    rewrite parse_number_float
      by (now apply float_repr_literal || now apply delimited_number_end).
    now rewrite float_repr_reads_back.
  - cbn [json_encode] in Henc. injection Henc as <-.
    unfold encode_basestring. cbn [app parse_value]. rewrite N.eqb_refl.
    rewrite <- app_assoc. cbn [app]. now rewrite scanstring_basestring.
  - destruct xs as [|x xs]; [injection Henc as <-; reflexivity|].
    rewrite json_encode_list in Henc.
    destruct (mapM (json_encode (S level)) (x :: xs)) as [parts|] eqn:Em;
      [|discriminate].
    injection Henc as <-. apply mapM_Some in Em.
    rewrite bracketed_app in Hfuel |- *. rewrite parse_value_array.
    rewrite skip_ws_newline_indent.
    assert (Hvs : value_start (join (44%N :: newline_indent (S level)) parts
                                 ++ newline_indent level ++ 93%N :: rest)).
    { apply Forall2_cons_inv_l in Em as (p & ps & Hp & _ & ->).
      apply value_start_app, value_start_join.
      eapply value_start_encode; [|exact Hp].
      cbn [json_plain forallb] in Hplain. now apply andb_prop in Hplain. }
    rewrite (skip_ws_value_start _ Hvs).
    assert (Hel : parse_elements fuel
                    (join (44%N :: newline_indent (S level)) parts
                       ++ newline_indent level ++ 93%N :: rest)
                  = Some (x :: xs, rest)).
    { apply (parse_elements_join level (x :: xs) parts rest fuel); auto; try congruence.
      len_norm Hfuel. lia. }
    destruct (join _ parts ++ _) as [|c0 r'] eqn:Ej; [destruct Hvs|].
    destruct Hvs as (_ & H93 & _).
    destruct (N.eqb_spec c0 93); [contradiction|]. now rewrite Hel.
  - destruct items as [|kv items]; [injection Henc as <-; reflexivity|].
    rewrite json_encode_dict in Henc.
    destruct (mapM (member_text level) (kv :: items)) as [parts|] eqn:Em;
      [|discriminate].
    injection Henc as <-. apply mapM_Some in Em.
    cbn [json_plain] in Hplain. apply andb_prop in Hplain.
    destruct Hplain as [Hmem Hnd]. apply bool_decide_eq_true in Hnd.
    change (forallb _ (kv :: items)) with (forallb plain_member (kv :: items)) in Hmem.
    rewrite bracketed_app in Hfuel |- *. rewrite parse_value_object.
    rewrite skip_ws_newline_indent.
    assert (Hvs : value_start (join (44%N :: newline_indent (S level)) parts
                                 ++ newline_indent level ++ 125%N :: rest)).
    { apply Forall2_cons_inv_l in Em as (p & ps & Hp & _ & ->).
      apply value_start_app, value_start_join.
      eapply value_start_member; [|exact Hp].
      cbn [forallb] in Hmem. now apply andb_prop in Hmem. }
    rewrite (skip_ws_value_start _ Hvs).
    assert (Hel : parse_members fuel
                    (join (44%N :: newline_indent (S level)) parts
                       ++ newline_indent level ++ 125%N :: rest)
                  = Some (pairs_of (kv :: items), rest)).
    { apply (parse_members_join level (kv :: items) parts rest fuel); auto; try congruence.
      - eapply Forall_impl; [exact IHitems|]. now intros ? [_ ?].
      - len_norm Hfuel. lia. }
    destruct (join _ parts ++ _) as [|c0 r'] eqn:Ej; [destruct Hvs|].
    destruct Hvs as (_ & _ & H125).
    destruct (N.eqb_spec c0 125); [contradiction|]. rewrite Hel.
    now rewrite dict_of_pairs_items.
  - discriminate Hplain.
Qed.


Lemma json_loads_dumps v text :
  json_plain v = true -> json_dumps v = Some text -> json_loads text = Some v.
Proof.
  intros Hp Hd. unfold json_loads.
  rewrite skip_ws_value_start by (eapply value_start_encode; eassumption).
  rewrite <- (app_nil_r text) at 2.
  rewrite (parse_value_encode v 0%nat text (S (length text)) []); auto.
  - exact I.
  - rewrite app_nil_r. lia.
Qed.

Lemma py_eq_refl v : json_plain v = true -> nan_free v = true -> py_eq v v = true.
Proof.
  induction v as [|b|z|f|s|xs IHxs|items IHitems|t r] using pyval_nested_ind;
    intros Hp Hn; try discriminate Hp; try reflexivity.
  - destruct b; reflexivity.
  - cbn. unfold number_eqb. cbn. apply Z.eqb_refl.
  - destruct f as [|s|s m e]; [discriminate Hn | now destruct s |].
    cbn [py_eq number_of]. unfold number_eqb. cbn [fst snd]. apply Z.eqb_refl.
  - cbn. now apply str_eqb_eq.
  - cbn [py_eq json_plain nan_free] in *.
    induction IHxs as [|x xs Hx _ IH]; [reflexivity|].
    cbn [forallb] in Hp, Hn. apply andb_prop in Hp. destruct Hp as [Hpx Hpxs].
    apply andb_prop in Hn. destruct Hn as [Hnx Hnxs].
    rewrite Hx by assumption. now apply IH.
  - cbn [py_eq json_plain nan_free] in *. apply andb_prop in Hp. destruct Hp as [Hp _].
    rewrite Nat.eqb_refl. cbn [andb].
    assert (Hsub : forall d, (forall kv, In kv d -> In kv items) ->
              (fix all (d : list (pyval * pyval)) : bool :=
                 match d with
                 | [] => true
                 | kv :: d' =>
                     existsb (fun kv' => py_eq (fst kv) (fst kv') && py_eq (snd kv) (snd kv'))
                             items && all d'
                 end) d = true).
    { induction d as [|kv d IHd]; intros Hin; [reflexivity|].
      apply andb_true_intro. split.
      - apply existsb_exists. exists kv. split; [apply Hin; now left|].
        assert (Hkv : In kv items) by (apply Hin; now left).
        rewrite Forall_forall in IHitems.
        destruct (IHitems kv (proj2 (list_elem_of_In _ _) Hkv)) as [Hk Hv].
        rewrite forallb_forall in Hp. specialize (Hp kv Hkv).
        apply andb_prop in Hp. destruct Hp as [Hks Hvp].
        rewrite forallb_forall in Hn. specialize (Hn kv Hkv).
        apply andb_prop in Hn. destruct Hn as [_ Hvn].
        rewrite Hv by assumption. rewrite andb_true_r.
        destruct (fst kv); try discriminate Hks. cbn. now apply str_eqb_eq.
      - apply IHd. intros kv' Hkv'. apply Hin. now right. }
    apply Hsub. auto.
Qed.

End JsonRoundTrip.

(** ** The JSON artifact *)

Section JsonArtifact.
Context `{Externals}.

Lemma escape_char_above_ascii c : (128 <= c)%N -> escape_char c = [c].
Proof.
  intros Hc. unfold escape_char, BACKSLASH, QUOTE.
  repeat match goal with
         | |- context [(?a =? ?b)%N] => destruct (N.eqb_spec a b); [lia|]
         end.
  destruct (N.ltb_spec c 32); [lia | reflexivity].
Qed.

(** *** The encoder against the layout *)

Lemma escape_char_plain c : needs_escape c = false -> escape_char c = [c].
Proof.
  unfold needs_escape, escape_char, BACKSLASH, QUOTE. intros Hc.
  apply orb_false_elim in Hc. destruct Hc as [Hc H32].
  apply orb_false_elim in Hc. destruct Hc as [Hq Hb].
  apply N.eqb_neq in Hq, Hb. apply N.ltb_ge in H32.
  repeat match goal with
         | |- context [(?a =? ?b)%N] => destruct (N.eqb_spec a b); [lia|]
         end.
  destruct (N.ltb_spec c 32); [lia | reflexivity].
Qed.

Lemma quoted_encode s : encode_basestring s = quoted s.
Proof.
  unfold encode_basestring, quoted. do 2 f_equal. apply flat_map_ext. intros c.
  destruct (needs_escape c) eqn:Hc; [reflexivity | now apply escape_char_plain].
Qed.

Lemma comma_last_render ls :
  ls <> [] ->
  flat_map render_line (comma_last ls) = flat_map render_line ls ++ u ",".
Proof.
  induction ls as [|l r IH]; [congruence|]. intros _.
  destruct r as [|l' r'].
  - cbn [comma_last flat_map]. unfold render_line. cbn [fst snd].
    rewrite !app_nil_r. cbn [app]. now rewrite <- app_assoc.
  - change (comma_last (l :: l' :: r')) with (l :: comma_last (l' :: r')).
    cbn [flat_map]. rewrite IH by discriminate. now rewrite app_assoc.
Qed.

Lemma with_comma_render t : render (with_comma t) = render t ++ u ",".
Proof.
  unfold render, with_comma. destruct (snd t) as [|l r] eqn:E; cbn [fst snd].
  - cbn [flat_map]. now rewrite !app_nil_r.
  - rewrite comma_last_render by discriminate. now rewrite app_assoc.
Qed.

Lemma item_lines_render depth items :
  items <> [] ->
  flat_map render_line (item_lines depth items)
  = newline_indent depth ++ join (44%N :: newline_indent depth) (map render items).
Proof.
  induction items as [|t r IH]; [congruence|]. intros _.
  destruct r as [|t' r'].
  - cbn [item_lines flat_map map join]. unfold render_line at 1. cbn [fst snd].
    unfold newline_indent, render. cbn [app]. now rewrite <- app_assoc.
  - change (item_lines depth (t :: t' :: r'))
      with ((depth, fst (with_comma t)) :: snd (with_comma t)
              ++ item_lines depth (t' :: r')).
    change (map render (t :: t' :: r')) with (render t :: map render (t' :: r')).
    change (join (44%N :: newline_indent depth) (render t :: map render (t' :: r')))
      with (render t ++ (44%N :: newline_indent depth)
              ++ join (44%N :: newline_indent depth) (map render (t' :: r'))).
    cbn [flat_map]. rewrite flat_map_app, IH by discriminate.
    unfold render_line at 1. cbn [fst snd].
    pose proof (with_comma_render t) as Hc. unfold render in Hc at 1.
    unfold newline_indent. cbn [app]. f_equal. rewrite <- !app_assoc. f_equal.
    rewrite app_assoc, Hc, <- app_assoc. reflexivity.
Qed.

Lemma mapM_fmap_rel {A B C} (f : A -> option B) (g : A -> option C) (h : B -> C)
    (l : list A) :
  Forall (fun x => g x = h <$> f x) l -> mapM g l = map h <$> mapM f l.
Proof.
  induction 1 as [|x l Hx _ IH]; [reflexivity|].
  cbn [mapM]. cbn. rewrite Hx, IH.
  destruct (f x); [|reflexivity]. cbn. now destruct (mapM f l).
Qed.

Lemma mapM_nonempty {A B} (f : A -> option B) x xs items :
  mapM f (x :: xs) = Some items -> items <> [].
Proof.
  intros Hm E. apply length_mapM in Hm. rewrite E in Hm. discriminate Hm.
Qed.

Lemma bracketed_render (open close : N) level items :
  items <> [] ->
  open :: newline_indent (S level)
    ++ join (44%N :: newline_indent (S level)) (map render items)
    ++ newline_indent level ++ [close]
  = render ([open], item_lines (S level) items ++ [(level, [close])]).
Proof.
  intros Hne. unfold render. cbn [fst snd app].
  rewrite flat_map_app, item_lines_render by assumption.
  cbn [flat_map]. unfold render_line. cbn [fst snd]. rewrite app_nil_r.
  unfold newline_indent. cbn [app]. now rewrite <- !app_assoc.
Qed.

Lemma json_encode_layout (v : pyval) :
  forall level, json_encode level v = render <$> layout level v.
Proof.
  induction v as [|b|z|f|s|xs IHxs|items IHitems|t r] using pyval_nested_ind;
    intros level.
  - reflexivity.
  - destruct b; reflexivity.
  - cbn [json_encode layout]. destruct (int_repr z) as [t|]; [|reflexivity].
    cbn. unfold render. cbn [fst snd flat_map]. now rewrite app_nil_r.
  - cbn [json_encode layout]. cbn. unfold render. cbn [fst snd flat_map].
    now rewrite app_nil_r.
  - cbn [json_encode layout]. cbn. unfold render. cbn [fst snd flat_map].
    now rewrite app_nil_r, quoted_encode.
  - destruct xs as [|x xs]; [reflexivity|]. rewrite json_encode_list.
    change (layout level (PList (x :: xs)))
      with (let* its := mapM (layout (S level)) (x :: xs) in
            Some ([91%N], item_lines (S level) its ++ [(level, [93%N])])).
    rewrite (mapM_fmap_rel (layout (S level)) (json_encode (S level)) render).
    2:{ eapply Forall_impl; [exact IHxs|]. intros y Hy. apply Hy. }
    destruct (mapM (layout (S level)) (x :: xs)) as [its|] eqn:Em; [|reflexivity].
    cbn [fmap option_fmap option_map]. f_equal.
    apply bracketed_render. now apply mapM_nonempty in Em.
  - destruct items as [|kv items]; [reflexivity|]. rewrite json_encode_dict.
    set (item := fun kv : pyval * pyval =>
                   let* k := key_text (fst kv) in
                   let* t := layout (S level) (snd kv) in
                   Some (quoted k ++ u ": " ++ fst t, snd t)).
    change (layout level (PDict (kv :: items)))
      with (let* its := mapM item (kv :: items) in
            Some ([123%N], item_lines (S level) its ++ [(level, [125%N])])).
    rewrite (mapM_fmap_rel item (member_text level) render).
    2:{ eapply Forall_impl; [exact IHitems|]. intros y [_ Hy].
        unfold member_text, item. destruct (key_text (fst y)) as [k|]; [|reflexivity].
        rewrite (Hy (S level)). destruct (layout (S level) (snd y)) as [t|];
          [|reflexivity].
        cbn [fmap option_fmap option_map]. unfold render. cbn [fst snd].
        rewrite quoted_encode. now rewrite <- !app_assoc. }
    destruct (mapM item (kv :: items)) as [its|] eqn:Em; [|reflexivity].
    cbn [fmap option_fmap option_map]. f_equal.
    apply bracketed_render. now apply mapM_nonempty in Em.
  - reflexivity.
Qed.

Example layout_example :
  layout 0 (PDict [(PStr (u "a"), PList [PInt 1; PStr [233%N]]); (PInt 2, PDict [])])
  = Some (u "{",
          [(1%nat, QUOTE :: u "a" ++ QUOTE :: u ": [");
           (2%nat, u "1,");
           (2%nat, [QUOTE; 233%N; QUOTE]);
           (1%nat, u "],");
           (1%nat, QUOTE :: u "2" ++ QUOTE :: u ": {}");
           (0%nat, u "}")]).
Proof. vm_compute. reflexivity. Qed.

(** C1, amended.  When the input reads as a text the loader accepts and
    the value serializes, the YAML step stores at the input path
    followed by .json the UTF-8 bytes of the serialization and returns
    that path.  The serialization is the layout of the value tree: one
    line per scalar, bracket and item, every line after a newline and
    four spaces per level of nesting, and in a string only the quote,
    the backslash and the control characters escaped.  A character
    above U+007F is thus written as it is, and the bytes are ASCII only
    when the text is. *)
Theorem convert_yaml_to_json_artifact
    (fs : filesystem) (input_file text jtext : str) (data : pyval) (b : bytes) :
  read_text fs input_file = Some text ->
  safe_load text = Some data ->
  json_dumps data = Some jtext ->
  utf8_encode jtext = Some b ->
  convert_yaml_to_json fs input_file
    = (<[input_file ++ u ".json" := b]> fs,
       [JsonCreated (input_file ++ u ".json")],
       Some (input_file ++ u ".json")) /\
  utf8_decode b = Some jtext /\
  (exists first rest,
      layout 0 data = Some (first, rest) /\ jtext = render (first, rest)) /\
  (forallb (fun c => (c <? 128)%N) b = forallb (fun c => (c <? 128)%N) jtext).
Proof.
  intros Hr Hl Hd He. split; [|split; [|split]].
  - unfold convert_yaml_to_json. now rewrite Hr, Hl, Hd, He.
  - now apply utf8_decode_encode.
  - unfold json_dumps in Hd. rewrite json_encode_layout in Hd.
    destruct (layout 0 data) as [[first rest]|]; [|discriminate Hd].
    injection Hd as <-. now exists first, rest.
  - clear Hd Hr Hl. revert b He. induction jtext as [|c r IH]; intros b He.
    + now injection He as <-.
    + cbn [utf8_encode] in He.
      destruct (utf8_encode_char c) as [e|] eqn:Ec; [|discriminate].
      destruct (utf8_encode r) as [b'|] eqn:Er; [|discriminate].
      injection He as <-. rewrite forallb_app. cbn [forallb].
      rewrite (IH b' eq_refl). f_equal.
      unfold utf8_encode_char, is_surrogate in Ec.
      destruct (N.ltb_spec c 128) as [Hc|Hc].
      * injection Ec as <-. cbn [forallb].
        destruct (N.ltb_spec c 128); [reflexivity | lia].
      * cmp_cases; simpl in Ec; try discriminate; injection Ec as <-;
          cbn [forallb];
          match goal with
          | |- context [(?a <? 128)%N] =>
              destruct (N.ltb_spec a 128); [lia | reflexivity]
          end.
Qed.


End JsonArtifact.

(** ** The claims on concrete runs *)

(** C1 as stated fails: the YAML text U+00E9 is loaded as a one-character
    string and written between quotes as the two bytes of its UTF-8
    encoding, which are not ASCII. *)
Lemma non_ascii_is_not_escaped :
  snd (@convert_yaml_to_json sample_externals accent_fs (u "e.yaml"))
    = Some (u "e.yaml.json") /\
  fst (fst (@convert_yaml_to_json sample_externals accent_fs (u "e.yaml")))
    !! u "e.yaml.json" = Some [34%N; 195%N; 169%N; 34%N] /\
  forallb (fun c => (c <? 128)%N) [34%N; 195%N; 169%N; 34%N] = false.
Proof. vm_compute. repeat split. Qed.

Lemma convert_yaml_to_json_artifact_witness :
  @convert_yaml_to_json sample_externals sample_fs (u "a.yaml")
    = (<[u "a.yaml" ++ u ".json" := (u "{" ++ [LF] ++ u "    " ++ [QUOTE] ++ u "key" ++ [QUOTE] ++ u ": "
     ++ [QUOTE] ++ u "value" ++ [QUOTE] ++ [LF] ++ u "}")]> sample_fs,
       [JsonCreated (u "a.yaml" ++ u ".json")],
       Some (u "a.yaml" ++ u ".json")) /\
  utf8_decode (u "{" ++ [LF] ++ u "    " ++ [QUOTE] ++ u "key" ++ [QUOTE] ++ u ": "
     ++ [QUOTE] ++ u "value" ++ [QUOTE] ++ [LF] ++ u "}")
    = Some (u "{" ++ [LF] ++ u "    " ++ [QUOTE] ++ u "key" ++ [QUOTE] ++ u ": "
     ++ [QUOTE] ++ u "value" ++ [QUOTE] ++ [LF] ++ u "}") /\
  (exists first rest,
      @layout sample_externals 0 (PDict [(PStr (u "key"), PStr (u "value"))])
        = Some (first, rest) /\
      (u "{" ++ [LF] ++ u "    " ++ [QUOTE] ++ u "key" ++ [QUOTE] ++ u ": "
     ++ [QUOTE] ++ u "value" ++ [QUOTE] ++ [LF] ++ u "}") = render (first, rest)) /\
  (forallb (fun c => (c <? 128)%N) (u "{" ++ [LF] ++ u "    " ++ [QUOTE] ++ u "key" ++ [QUOTE] ++ u ": "
     ++ [QUOTE] ++ u "value" ++ [QUOTE] ++ [LF] ++ u "}")
   = forallb (fun c => (c <? 128)%N) (u "{" ++ [LF] ++ u "    " ++ [QUOTE] ++ u "key" ++ [QUOTE] ++ u ": "
     ++ [QUOTE] ++ u "value" ++ [QUOTE] ++ [LF] ++ u "}")).
Proof.
  apply (@convert_yaml_to_json_artifact sample_externals sample_fs (u "a.yaml")
           (u "key: value") (u "{" ++ [LF] ++ u "    " ++ [QUOTE] ++ u "key" ++ [QUOTE] ++ u ": "
     ++ [QUOTE] ++ u "value" ++ [QUOTE] ++ [LF] ++ u "}")
           (PDict [(PStr (u "key"), PStr (u "value"))])); vm_compute; reflexivity.
Defined.

(** *** The stand-ins for [float.__repr__] and [float] *)

Lemma digits_head_not_minus n tail :
  match digits n ++ tail with c :: _ => (c =? 45)%N | [] => false end = false.
Proof.
  destruct (digits_spec n) as (Hd & Hne & _).
  destruct (digits n) as [|d ds]; [congruence|].
  pose proof (Forall_inv Hd) as Hdd. cbn beta in Hdd. cbn [app].
  destruct (N.eqb_spec d 45) as [->|]; [discriminate Hdd | reflexivity].
Qed.

Lemma sample_sign_body (neg : bool) n tail :
  let lit := (if neg then [45%N] else []) ++ digits n ++ tail in
  match lit with c :: _ => (c =? 45)%N | [] => false end = neg /\
  (if neg then drop 1 lit else lit) = digits n ++ tail.
Proof.
  destruct neg; cbn [app]; [split; reflexivity|].
  split; [apply digits_head_not_minus | reflexivity].
Qed.

Lemma sample_float_repr_literal s m e :
  float_literal (sample_float_repr s m e) = true.
Proof.
  unfold float_literal, sample_float_repr.
  destruct (0 <=? e).
  - destruct (sample_sign_body s (N.shiftl m (Z.to_N e)) (u ".0")) as [-> E].
    rewrite E, scan_int_digits by reflexivity. reflexivity.
  - set (k := Z.to_N (- e)).
    destruct (sample_sign_body s (m * 5 ^ k)%N (u "e-" ++ digits k)) as [-> E].
    rewrite E, scan_int_digits by reflexivity.
    change (scan_frac (u "e-" ++ digits k)) with ([] : str, u "e-" ++ digits k).
    cbv beta iota. unfold scan_exp. change (u "e-" ++ digits k) with (101%N :: 45%N :: digits k).
    cbn [N.eqb Pos.eqb orb length drop].
    destruct (digits_spec k) as (Hd & Hne & _).
    pose proof (span_digits_app (digits k) [] Hd I) as Es. rewrite app_nil_r in Es.
    rewrite drop_0, Es. cbn [fst snd]. now destruct (digits k).
Qed.

Lemma shiftl_odd_part p k :
  N.odd (N.pos p) = true ->
  exists q, N.shiftl (N.pos p) k = N.pos q /\ odd_part q = p /\ two_power q = k.
Proof.
  intros Hodd. induction k as [|k (q & E & Ho & Ht)] using N.peano_ind.
  - exists p. split; [apply N.shiftl_0_r|]. now destruct p.
  - exists (xO q). rewrite N.shiftl_succ_r, E. repeat split; cbn [odd_part two_power];
      congruence.
Qed.

Lemma sample_float_reads_back s m e :
  reduced_float (FFin s m e) = true ->
  sample_float_of_literal (sample_float_repr s m e) = FFin s m e.
Proof.
  cbn [reduced_float]. intros Hred.
  do 3 (apply andb_prop in Hred; destruct Hred as [Hred _]).
  unfold sample_float_of_literal, sample_float_repr.
  destruct (Z.leb_spec 0 e) as [He|He].
  - destruct (sample_sign_body s (N.shiftl m (Z.to_N e)) (u ".0")) as [-> E].
    rewrite E, span_digits_app by (reflexivity || apply digits_spec).
    cbn [fst snd]. change (str_eqb (u ".0") (u ".0")) with true. cbv iota.
    destruct (digits_spec (N.shiftl m (Z.to_N e))) as (_ & _ & -> & _).
    destruct m as [|p].
    + clear E. destruct (Z.eq_dec e 0) as [E0|E0]; [now rewrite E0|].
      apply Z.eqb_neq in E0. rewrite E0 in Hred. discriminate Hred.
    + assert (Hodd : N.odd (N.pos p) = true) by now destruct (N.odd (N.pos p)).
      destruct (shiftl_odd_part p (Z.to_N e) Hodd) as (q & -> & -> & ->).
      f_equal. lia.
  - set (k := Z.to_N (- e)).
    destruct (sample_sign_body s (m * 5 ^ k)%N (u "e-" ++ digits k)) as [-> E].
    rewrite E, span_digits_app by (reflexivity || apply digits_spec).
    cbn [fst snd].
    change (str_eqb (u "e-" ++ digits k) (u ".0")) with false.
    change (starts_with (u "e-") (u "e-" ++ digits k)) with true.
    change (drop 2 (u "e-" ++ digits k)) with (digits k). cbv iota.
    destruct (digits_spec (m * 5 ^ k)%N) as (_ & _ & -> & _).
    destruct (digits_spec k) as (_ & _ & -> & _).
    rewrite N.div_mul by (apply N.pow_nonzero; discriminate).
    f_equal. subst k. lia.
Qed.



Ltac not_in_list :=
  simpl; let Hin := fresh "Hin" in
  intros Hin; repeat (destruct Hin as [Hin|Hin]; [discriminate Hin|]); exact Hin.

Lemma prepare_markdown_file_wraps_witness :
  read_text sample_fs (u "b.json") = Some (u "{}") /\
  exists body,
    utf8_encode (u "{}") = Some body /\
    utf8_encode (u "```json" ++ [LF] ++ u "{}" ++ [LF] ++ u "```")
      = Some (u "```json" ++ [LF] ++ body ++ [LF] ++ u "```") /\
    prepare_markdown_file sample_fs (u "b.json")
      = (<[u "b.json" ++ u ".md" := u "```json" ++ [LF] ++ body ++ [LF] ++ u "```"]>
           sample_fs,
         [MdCreated (u "b.json" ++ u ".md")],
         Some (u "b.json" ++ u ".md")).
Proof.
  split; [vm_compute; reflexivity|].
  apply (prepare_markdown_file_wraps sample_fs (u "b.json") (u "{}")).
  vm_compute. reflexivity.
Defined.

Lemma docx_named_after_stem_witness :
  docx_output_file (u "out/" ++ u "data.yaml.json" ++ DOT :: u "md")
    = u "data.yaml.json" ++ u ".docx" /\
  ~ In SEP (docx_output_file (u "out/" ++ u "data.yaml.json" ++ DOT :: u "md")) /\
  (forall md d,
      sample_fs !! (u "out/" ++ u "data.yaml.json" ++ DOT :: u "md") = Some md ->
      snd (@pandoc sample_externals md) = Some d ->
      fst (fst (@convert_md_to_docx sample_externals sample_fs
                  (u "out/" ++ u "data.yaml.json" ++ DOT :: u "md")))
        = <[u "data.yaml.json" ++ u ".docx" := d]> sample_fs).
Proof.
  apply (@docx_named_after_stem sample_externals (u "out/") (u "data.yaml.json")
           (u "md") sample_fs).
  - right. exists (u "out"). reflexivity.
  - not_in_list.
  - not_in_list.
  - not_in_list.
  - exists 100%N. split; [simpl; tauto | discriminate].
Defined.

Lemma temporary_files_after_conversion_witness :
  removal_list (u "a.yaml") (u "a.yaml.json") (u "a.yaml.json.md")
    = [u "a.yaml.json"; u "a.yaml.json.md"] /\
  is_Some (fst (@process_file sample_externals true sample_fs (u "a.yaml"))
             !! u "a.yaml.json") /\
  is_Some (fst (@process_file sample_externals true sample_fs (u "a.yaml"))
             !! u "a.yaml.json.md") /\
  fst (@process_file sample_externals false sample_fs (u "a.yaml"))
    !! u "a.yaml.json" = None /\
  fst (@process_file sample_externals false sample_fs (u "a.yaml"))
    !! u "a.yaml.json.md" = None /\
  fst (@process_file sample_externals false sample_fs (u "a.yaml")) !! u "a.yaml"
    = fst (fst sample_docx_step) !! u "a.yaml".
Proof.
  destruct (@temporary_files_after_conversion sample_externals sample_fs
              (fst (fst sample_yaml_step)) (fst (fst sample_md_step))
              (fst (fst sample_docx_step))
              (u "a.yaml") (u "a.yaml.json") (u "a.yaml.json.md")
              (snd (fst sample_md_step)) (snd (fst sample_docx_step))
              (snd sample_docx_step))
    as (Hlist & (_ & _ & Hkeep) & Hdrop).
  - vm_compute. eexists. reflexivity.
  - vm_compute. reflexivity.
  - vm_compute. reflexivity.
  - split; [exact Hlist|]. rewrite Hlist in Hkeep, Hdrop.
    split; [apply Hkeep; simpl; tauto|].
    split; [apply Hkeep; simpl; tauto|].
    split; [apply (proj1 (Hdrop _)); simpl; tauto|].
    split; [apply (proj1 (Hdrop _)); simpl; tauto|].
    apply (proj2 (Hdrop _)). not_in_list.
Defined.

Lemma main_without_candidates_witness :
  @input_files sample_externals [KEEP_TEMP] [u "notes.txt"; u "README"] = [] /\
  @main sample_externals [KEEP_TEMP] [u "notes.txt"; u "README"] sample_fs
    = (1, sample_fs, [PrintVersion (@package_version sample_externals); NoMatchingFiles]).
Proof.
  apply (@main_without_candidates sample_externals).
  - intros a [<-|[]]. reflexivity.
  - intros f [<-|[<-|[]]]; vm_compute; reflexivity.
Defined.




(** ** Further properties of the pipeline *)

Section Footprints.
Context `{Externals}.

(** X1.  A run never creates, changes or removes a path whose name
    does not end in .json, .md or .docx, whatever the arguments, the
    directory listing, the loader and the converter. *)
Theorem run_leaves_other_names_alone
    (args listing : list str) (fs : filesystem) (p : str) :
  endswith_any p WRITTEN_SUFFIXES = false ->
  snd (fst (main args listing fs)) !! p = fs !! p.
Proof.
  intros Hp. unfold main. destruct (input_files args listing) as [|f l]; [reflexivity|].
  pose proof (process_files_frame (keep_temp_flag args) fs (f :: l) p Hp) as Hf.
  now destruct (process_files (keep_temp_flag args) fs (f :: l)).
Qed.

Lemma convert_yaml_to_json_grows fs file p :
  is_Some (fs !! p) -> is_Some (fst (fst (convert_yaml_to_json fs file)) !! p).
Proof.
  intros Hp. unfold convert_yaml_to_json.
  destruct (let* text := read_text fs file in safe_load text) as [data|]; [|exact Hp].
  destruct (let* text := json_dumps data in utf8_encode text); cbn [fst];
    rewrite lookup_insert; case_decide; eauto.
Qed.

Lemma prepare_markdown_file_grows fs file p :
  is_Some (fs !! p) -> is_Some (fst (fst (prepare_markdown_file fs file)) !! p).
Proof.
  intros Hp. unfold prepare_markdown_file.
  destruct (negb (isfile fs file)); [exact Hp|].
  destruct (read_text fs file); [|exact Hp].
  destruct (utf8_encode _); cbn [fst]; rewrite lookup_insert; case_decide; eauto.
Qed.

Lemma convert_md_to_docx_grows fs file p :
  is_Some (fs !! p) -> is_Some (fst (fst (convert_md_to_docx fs file)) !! p).
Proof.
  intros Hp.
  destruct (convert_md_to_docx fs file) as [[fs3 log3] ok] eqn:E.
  exact (convert_md_to_docx_keeps _ _ _ _ _ _ E Hp).
Qed.

Lemma markdown_pipeline_grows fs file json_file p :
  is_Some (fs !! p) -> is_Some (fst (markdown_pipeline true fs file json_file) !! p).
Proof.
  intros Hp. unfold markdown_pipeline.
  pose proof (prepare_markdown_file_grows fs json_file p Hp) as H2.
  destruct (prepare_markdown_file fs json_file) as [[fs2 log2] md].
  destruct md as [md_file|]; [|exact H2].
  pose proof (convert_md_to_docx_grows fs2 md_file p H2) as H3.
  destruct (convert_md_to_docx fs2 md_file) as [[fs3 log3] ok]. exact H3.
Qed.

Lemma process_file_grows fs file p :
  is_Some (fs !! p) -> is_Some (fst (process_file true fs file) !! p).
Proof.
  intros Hp. unfold process_file.
  destruct (str_in _ YAML_EXTENSIONS).
  - pose proof (convert_yaml_to_json_grows fs file p Hp) as H1.
    destruct (convert_yaml_to_json fs file) as [[fs1 log1] json].
    destruct json as [json_file|]; [|exact H1].
    pose proof (markdown_pipeline_grows fs1 file json_file p H1) as Hm.
    now destruct (markdown_pipeline true fs1 file json_file).
  - pose proof (markdown_pipeline_grows fs file file p Hp) as Hm.
    now destruct (markdown_pipeline true fs file file).
Qed.

Lemma process_files_grows fs files p :
  is_Some (fs !! p) -> is_Some (fst (process_files true fs files) !! p).
Proof.
  revert fs. induction files as [|f l IH]; intros fs Hp; [exact Hp|].
  destruct (printable f) eqn:Hf; [|now rewrite process_files_stop].
  rewrite process_files_cons by assumption. cbn [fst].
  now apply IH, process_file_grows.
Qed.

(** X2.  With [--keep-temp] nothing is ever removed: a path that exists
    before the batch exists after it, and so does every path that
    exists after any file of the batch. *)
Theorem keep_temp_never_removes (fs : filesystem) (before after : list str) (p : str) :
  is_Some (fst (process_files true fs before) !! p) ->
  is_Some (fst (process_files true fs (before ++ after)) !! p).
Proof.
  revert fs. induction before as [|f l IH]; intros fs Hp; cbn [app].
  - now apply process_files_grows.
  - destruct (printable f) eqn:Hf.
    + rewrite process_files_cons in * by assumption. cbn [fst] in *. now apply IH.
    + rewrite process_files_stop in * by assumption. exact Hp.
Qed.

Lemma cleanup_footprint keep fs to_remove p :
  ~ In p to_remove -> fst (cleanup keep fs to_remove) !! p = fs !! p.
Proof. apply cleanup_frame. Qed.

Lemma markdown_pipeline_footprint keep fs file json_file p :
  ~ In p (removal_list file json_file (json_file ++ u ".md")) ->
  p <> json_file ++ u ".md" ->
  p <> docx_output_file (json_file ++ u ".md") ->
  fst (markdown_pipeline keep fs file json_file) !! p = fs !! p.
Proof.
  intros Hrm Hmd Hdocx. unfold markdown_pipeline.
  destruct (prepare_markdown_file fs json_file) as [[fs2 log2] md] eqn:E2.
  assert (H2 : fs2 !! p = fs !! p).
  { revert E2. unfold prepare_markdown_file.
    destruct (negb (isfile fs json_file)); [now intros [= <- _ _]|].
    destruct (read_text fs json_file); [|now intros [= <- _ _]].
    destruct (utf8_encode _); intros [= <- _ _]; now apply lookup_insert_ne. }
  destruct md as [md_file|]; [|exact H2].
  apply prepare_markdown_file_Some in E2. destruct E2 as [-> _].
  destruct (convert_md_to_docx fs2 _) as [[fs3 log3] ok] eqn:E3.
  assert (H3 : fs3 !! p = fs2 !! p).
  { pose proof (f_equal (fun r => fst (fst r)) E3) as E. cbn [fst] in E.
    rewrite <- E. unfold convert_md_to_docx.
    destruct (fs2 !! (json_file ++ u ".md")) as [md|]; [|reflexivity].
    destruct (fst (pandoc md)), (snd (pandoc md)); cbn [fst];
      try reflexivity; now apply lookup_insert_ne. }
  destruct (cleanup keep fs3 _) as [fs4 log4] eqn:E4. cbn [fst].
  rewrite <- H2, <- H3.
  replace fs4 with (fst (cleanup keep fs3
                           (removal_list file json_file (json_file ++ u ".md"))))
    by now rewrite E4.
  now apply cleanup_frame.
Qed.

Lemma process_file_untouched (keep_temp : bool) (fs : filesystem) (file p : str) :
  ~ In p (touched_paths file) ->
  fst (process_file keep_temp fs file) !! p = fs !! p.
Proof.
  intros Hp. unfold process_file, touched_paths in *.
  destruct (str_in _ YAML_EXTENSIONS).
  - destruct (convert_yaml_to_json fs file) as [[fs1 log1] json] eqn:E1.
    assert (H1 : fs1 !! p = fs !! p).
    { pose proof (f_equal (fun r => fst (fst r)) E1) as E. cbn [fst] in E.
      rewrite <- E. unfold convert_yaml_to_json.
      destruct (let* text := read_text fs file in safe_load text) as [data|];
        [|reflexivity].
      destruct (let* text := json_dumps data in utf8_encode text);
        cbn [fst]; apply lookup_insert_ne; intros <-; apply Hp; now left. }
    destruct json as [json_file|]; [|exact H1].
    apply convert_yaml_to_json_Some in E1. destruct E1 as [-> _].
    pose proof (markdown_pipeline_footprint keep_temp fs1 file (file ++ u ".json") p)
      as Hm.
    destruct (markdown_pipeline keep_temp fs1 file _). cbn [fst] in *.
    rewrite Hm; [exact H1| | |].
    + unfold removal_list. rewrite in_app_iff. intros [Hin|[<-|[]]].
      * case_bool_decide; [|destruct Hin]. destruct Hin as [<-|[]].
        apply Hp. now left.
      * apply Hp. right. now left.
    + intros ->. apply Hp. right. now left.
    + intros ->. apply Hp. right. right. now left.
  - pose proof (markdown_pipeline_footprint keep_temp fs file file p) as Hm.
    destruct (markdown_pipeline keep_temp fs file file). cbn [fst] in *.
    apply Hm.
    + unfold removal_list. rewrite in_app_iff. intros [Hin|[<-|[]]].
      * case_bool_decide as Hne; [now apply Hne | destruct Hin].
      * apply Hp. now left.
    + intros ->. apply Hp. now left.
    + intros ->. apply Hp. right. now left.
Qed.

(** X3.  One round of the loop touches nothing but the paths derived
    from its file: for a YAML file the JSON file, the Markdown file and
    the document; for any other file the Markdown file and the
    document.  Every other path is as before. *)
Theorem process_file_footprint (keep_temp : bool) (fs : filesystem) (file p : str) :
  ~ In p (touched_paths file) ->
  fst (process_file keep_temp fs file) !! p = fs !! p.
Proof. apply process_file_untouched. Qed.

End Footprints.

(** ** Names of the documents *)

Lemma rfind_from_spec c s : forall i,
  0 <= i ->
  (rfind_from c s i = -1 /\ ~ In c s) \/
  (exists a b, s = a ++ c :: b /\ ~ In c b /\ rfind_from c s i = i + Z.of_nat (length a)).
Proof.
  induction s as [|x r IH]; intros i Hi.
  - left. split; [reflexivity | intros []].
  - cbn [rfind_from]. destruct (IH (i + 1) ltac:(lia)) as [[E Hn]|(a & b & -> & Hb & E)].
    + rewrite E. cbn. destruct (N.eqb_spec x c) as [->|Hx].
      * right. exists [], r. repeat split; [assumption | simpl; lia].
      * left. split; [reflexivity|]. intros [?|?]; auto.
    + rewrite E. right. exists (x :: a), b. repeat split; [assumption|].
      destruct (Z.leb_spec 0 (i + 1 + Z.of_nat (length a))); simpl length; lia.
Qed.

Lemma basename_spec p :
  (~ In SEP p /\ basename p = p) \/
  (exists d n, p = d ++ SEP :: n /\ ~ In SEP n /\ basename p = n).
Proof.
  destruct (rfind_from_spec SEP p 0 ltac:(lia)) as [[_ Hn]|(d & n & -> & Hn & _)].
  - left. split; [assumption | now apply basename_no_sep].
  - right. exists d, n. repeat split; [assumption | now apply basename_after_sep].
Qed.

Lemma basename_app p suf :
  ~ In SEP suf -> basename (p ++ suf) = basename p ++ suf.
Proof.
  intros Hs. destruct (basename_spec p) as [[Hn ->]|(d & n & -> & Hn & ->)].
  - apply basename_no_sep. rewrite in_app_iff. tauto.
  - rewrite <- app_assoc. cbn [app]. apply basename_after_sep.
    rewrite in_app_iff. tauto.
Qed.

Lemma basename_has_no_sep p : ~ In SEP (basename p).
Proof.
  destruct (basename_spec p) as [[Hn ->]|(d & n & -> & Hn & ->)]; assumption.
Qed.

(** X4.  The document of a file is named after the file alone: for an
    input whose base name is not made of dots only, the Markdown file
    of a JSON input gives the base name followed by .docx and that of a
    YAML input the base name followed by .json.docx.  The name has no
    directory part and does not depend on the directory of the input,
    so inputs of the same name in two directories share one document. *)
Theorem document_named_after_input (input_file : str) :
  (exists c, In c (basename input_file) /\ c <> DOT) ->
  docx_output_file (input_file ++ u ".md") = basename input_file ++ u ".docx" /\
  docx_output_file ((input_file ++ u ".json") ++ u ".md")
    = basename input_file ++ u ".json.docx" /\
  ~ In SEP (docx_output_file (input_file ++ u ".md")) /\
  (forall dir, docx_output_file ((dir ++ SEP :: basename input_file) ++ u ".md")
               = docx_output_file (input_file ++ u ".md")).
Proof.
  intros (c & Hc & Hne).
  pose proof (basename_has_no_sep input_file) as Hsep.
  assert (Hmd : forall q, basename q = basename input_file ->
                          docx_output_file (q ++ u ".md") = basename input_file ++ u ".docx").
  { intros q Hq. unfold docx_output_file.
    rewrite basename_app by not_in_list. rewrite Hq.
    change (u ".md") with (DOT :: u "md").
    rewrite splitext_stem_ext; [reflexivity|assumption| | |eauto]; not_in_list. }
  split; [now apply Hmd|]. split; [|split].
  - unfold docx_output_file. rewrite !basename_app by not_in_list.
    rewrite <- app_assoc.
    change (u ".json" ++ u ".md") with (u ".json" ++ DOT :: u "md").
    rewrite app_assoc.
    rewrite splitext_stem_ext.
    + cbn [fst]. now rewrite <- app_assoc.
    + rewrite in_app_iff. intros [?|Hin]; [auto|]. revert Hin. not_in_list.
    + not_in_list.
    + not_in_list.
    + exists c. split; [|assumption]. rewrite in_app_iff. now left.
  - rewrite Hmd by reflexivity. rewrite in_app_iff. intros [?|Hin]; [auto|].
    revert Hin. not_in_list.
  - intros dir. rewrite (Hmd input_file eq_refl). apply Hmd.
    now apply basename_after_sep.
Qed.

Lemma document_named_after_input_witness :
  docx_output_file (u "in/data.yaml" ++ u ".md") = basename (u "in/data.yaml") ++ u ".docx" /\
  docx_output_file ((u "in/data.yaml" ++ u ".json") ++ u ".md")
    = basename (u "in/data.yaml") ++ u ".json.docx" /\
  ~ In SEP (docx_output_file (u "in/data.yaml" ++ u ".md")) /\
  (forall dir, docx_output_file ((dir ++ SEP :: basename (u "in/data.yaml")) ++ u ".md")
               = docx_output_file (u "in/data.yaml" ++ u ".md")).
Proof.
  apply (document_named_after_input (u "in/data.yaml")).
  exists 100%N. split; [vm_compute; tauto | discriminate].
Defined.

(** ** The Markdown wrapper, beyond the claim *)

Lemma universal_newlines_no_cr s : ~ In CR (universal_newlines s).
Proof.
  remember (length s) as n eqn:Hn. revert s Hn.
  induction n as [n IH] using lt_wf_ind. intros s Hn.
  destruct s as [|c r]; [intros []|]. cbn [universal_newlines].
  destruct (N.eqb_spec c CR) as [->|Hc].
  - intros [E|Hin]; [discriminate E|]. revert Hin.
    destruct r as [|d r']; [intros []|].
    destruct (d =? LF)%N; (eapply IH; [|reflexivity]); subst n; simpl; lia.
  - intros [E|Hin]; [congruence|]. revert Hin.
    eapply IH; [|reflexivity]. subst n. simpl. lia.
Qed.

Lemma universal_newlines_id s : ~ In CR s -> universal_newlines s = s.
Proof.
  induction s as [|c r IH]; intros Hn; [reflexivity|]. cbn [universal_newlines].
  destruct (N.eqb_spec c CR) as [->|Hc]; [exfalso; apply Hn; now left|].
  rewrite IH; [reflexivity|]. intros Hin. apply Hn. now right.
Qed.

Lemma utf8_encode_keeps_ascii s : forall b c,
  utf8_encode s = Some b -> (c < 128)%N -> In c s -> In c b.
Proof.
  induction s as [|x r IH]; intros b c He Hc Hin; [destruct Hin|].
  cbn [utf8_encode] in He.
  destruct (utf8_encode_char x) as [e|] eqn:Ex; [|discriminate].
  destruct (utf8_encode r) as [b'|] eqn:Er; [|discriminate].
  injection He as <-. rewrite in_app_iff. destruct Hin as [->|Hin].
  - left. unfold utf8_encode_char in Ex.
    destruct (N.ltb_spec c 128); [|lia]. injection Ex as <-. now left.
  - right. eapply IH; eauto.
Qed.

Lemma prepare_markdown_file_result fs input_file content :
  read_text fs input_file = Some content ->
  exists body,
    utf8_encode content = Some body /\
    prepare_markdown_file fs input_file
    = (<[input_file ++ u ".md" := FENCE_OPEN ++ body ++ FENCE_CLOSE]> fs,
       [MdCreated (input_file ++ u ".md")], Some (input_file ++ u ".md")).
Proof.
  intros Hr.
  destruct (proj1 (utf8_encode_scalars content) (read_text_scalars _ _ _ Hr))
    as [body Hb].
  destruct fences_ascii as [Ho Hc].
  exists body. split; [exact Hb|]. unfold prepare_markdown_file.
  rewrite (read_text_isfile _ _ _ Hr), Hr. cbn [negb].
  rewrite !utf8_encode_app, Hb.
  now rewrite (utf8_encode_ascii _ Ho), (utf8_encode_ascii _ Hc).
Qed.


(** X6.  For an input that holds valid UTF-8 without a carriage return,
    the Markdown file is, byte for byte, the opening fence line, the
    bytes of the input, a newline and the closing fence. *)
Theorem markdown_file_is_fenced_input (fs : filesystem) (input_file : str) (raw : bytes) :
  fs !! input_file = Some raw ->
  is_Some (utf8_decode raw) ->
  ~ In CR raw ->
  prepare_markdown_file fs input_file
  = (<[input_file ++ u ".md" := u "```json" ++ [LF] ++ raw ++ [LF] ++ u "```"]> fs,
     [MdCreated (input_file ++ u ".md")], Some (input_file ++ u ".md")).
Proof.
  intros Hraw [t Ht] Hcr.
  pose proof (utf8_encode_decode _ _ Ht) as Het.
  assert (Hcrt : ~ In CR t).
  { intros Hin. apply Hcr. eapply utf8_encode_keeps_ascii; eauto. reflexivity. }
  destruct (prepare_markdown_file_result fs input_file t) as (body & Hb & ->).
  - unfold read_text. rewrite Hraw, Ht. cbn. now rewrite universal_newlines_id.
  - rewrite Het in Hb. now injection Hb as <-.
Qed.

(** X7.  What the wrapper writes reads back as the text it built: after
    the wrapper, reading the Markdown file as UTF-8 text gives the
    opening fence line, the content read from the input, a newline and
    the closing fence; the input itself is unchanged. *)
Theorem markdown_file_reads_back (fs : filesystem) (input_file content : str) :
  read_text fs input_file = Some content ->
  read_text (fst (fst (prepare_markdown_file fs input_file))) (input_file ++ u ".md")
    = Some (u "```json" ++ [LF] ++ content ++ [LF] ++ u "```") /\
  fst (fst (prepare_markdown_file fs input_file)) !! input_file = fs !! input_file.
Proof.
  intros Hr.
  destruct (prepare_markdown_file_result fs input_file content Hr) as (body & Hb & ->).
  cbn [fst]. split.
  - unfold read_text. rewrite lookup_insert_eq.
    destruct fences_ascii as [Ho Hc].
    assert (He : utf8_encode (FENCE_OPEN ++ content ++ FENCE_CLOSE)
                 = Some (FENCE_OPEN ++ body ++ FENCE_CLOSE)).
    { rewrite !utf8_encode_app, Hb.
      now rewrite (utf8_encode_ascii _ Ho), (utf8_encode_ascii _ Hc). }
    rewrite (utf8_decode_encode _ _ He). cbn [fmap option_fmap option_map].
    f_equal. apply universal_newlines_id.
    rewrite !in_app_iff. intros [Hin|[Hin|[Hin|[Hin|Hin]]]];
      try (revert Hin; not_in_list).
    revert Hin. unfold read_text in Hr.
    destruct (fs !! input_file) as [raw|]; [|discriminate].
    destruct (utf8_decode raw) as [t|]; [|discriminate].
    injection Hr as <-. apply universal_newlines_no_cr.
  - apply lookup_insert_ne. now apply suffix_differs.
Qed.

Lemma markdown_file_is_fenced_input_witness :
  prepare_markdown_file sample_fs (u "b.json")
  = (<[u "b.json" ++ u ".md" := u "```json" ++ [LF] ++ u "{}" ++ [LF] ++ u "```"]> sample_fs,
     [MdCreated (u "b.json" ++ u ".md")], Some (u "b.json" ++ u ".md")).
Proof.
  apply (markdown_file_is_fenced_input sample_fs (u "b.json") (u "{}")).
  - vm_compute. reflexivity.
  - vm_compute. eauto.
  - not_in_list.
Defined.

Lemma markdown_file_reads_back_witness :
  read_text (fst (fst (prepare_markdown_file sample_fs (u "b.json")))) (u "b.json" ++ u ".md")
    = Some (u "```json" ++ [LF] ++ u "{}" ++ [LF] ++ u "```") /\
  fst (fst (prepare_markdown_file sample_fs (u "b.json"))) !! u "b.json"
    = sample_fs !! u "b.json".
Proof.
  apply (markdown_file_reads_back sample_fs (u "b.json") (u "{}")).
  vm_compute. reflexivity.
Defined.


(** ** The encoder, beyond the claims *)

Section EncoderFacts.
Context `{Externals}.

Lemma key_text_json_key k : is_Some (key_text k) -> json_key k = true.
Proof.
  destruct k as [|[]|z|f|s|xs|items|t r]; cbn; try reflexivity;
    intros [? ?]; discriminate.
Qed.

Lemma is_Some_bind_Some {A B} (m : option A) (g : A -> B) :
  is_Some (let* x := m in Some (g x)) <-> is_Some m.
Proof. destruct m; split; intros [? ?]; try discriminate; eauto. Qed.

Lemma json_encode_serializable (v : pyval) :
  forall level, is_Some (json_encode level v) -> serializable v = true.
Proof.
  induction v as [|b|z|f|s|xs IHxs|items IHitems|t r] using pyval_nested_ind;
    intros level; try (intros _; reflexivity).
  - destruct xs as [|x xs]; [reflexivity|].
    rewrite json_encode_list, is_Some_bind_Some, mapM_is_Some. cbn [serializable].
    rewrite forallb_forall, Forall_forall. rewrite Forall_forall in IHxs.
    intros Hall y Hy. apply list_elem_of_In in Hy.
    apply (IHxs y Hy (S level)), Hall, Hy.
  - destruct items as [|kv items]; [reflexivity|].
    rewrite json_encode_dict, is_Some_bind_Some, mapM_is_Some. cbn [serializable].
    rewrite forallb_forall, Forall_forall. rewrite Forall_forall in IHitems.
    intros Hall y Hy. apply list_elem_of_In in Hy.
    specialize (Hall y Hy). destruct (IHitems y Hy) as [_ Hv].
    unfold compose, member_text in Hall. cbv beta in Hall.
    destruct (key_text (fst y)) as [k|] eqn:Ek;
      [|destruct Hall as [? Hx]; cbv beta iota in Hx; discriminate Hx].
    destruct (json_encode (S level) (snd y)) as [t|] eqn:Ev;
      [|destruct Hall as [? Hx]; cbv beta iota in Hx; discriminate Hx].
    apply andb_true_intro. split.
    + apply key_text_json_key. rewrite Ek. eauto.
    + apply (Hv (S level)). rewrite Ev. eauto.
  - intros [? ?]; discriminate.
Qed.

End EncoderFacts.

Section EncoderUse.
Context `{Externals}.

(** X10.  A YAML file that loads to a tree the encoder cannot serialize
    is skipped, yet a JSON file is left behind: it was created before
    the encoder raised, holds what had been written by then, and is
    never removed, with or without [--keep-temp]. *)
Theorem unserializable_yaml_leaves_json_file
    (keep_temp : bool) (fs : filesystem) (file text : str) (data : pyval) :
  str_in (lower (snd (splitext file))) YAML_EXTENSIONS = true ->
  read_text fs file = Some text ->
  safe_load text = Some data ->
  serializable data = false ->
  snd (convert_yaml_to_json fs file) = None /\
  process_file keep_temp fs file
  = (<[file ++ u ".json" := dump_residue data]> fs,
     [Processing file; YamlError; YamlSkipped file]) /\
  fst (process_file keep_temp fs file) !! (file ++ u ".json") = Some (dump_residue data).
Proof.
  intros Hy Hr Hl Hs.
  assert (Hd : json_dumps data = None).
  { destruct (json_dumps data) as [t|] eqn:E; [|reflexivity].
    assert (Hsome : is_Some (json_encode 0 data)) by (unfold json_dumps in E; eauto).
    apply json_encode_serializable in Hsome. congruence. }
  assert (Hc : convert_yaml_to_json fs file
               = (<[file ++ u ".json" := dump_residue data]> fs, [YamlError], None)).
  { unfold convert_yaml_to_json. now rewrite Hr, Hl, Hd. }
  assert (Hp : process_file keep_temp fs file
               = (<[file ++ u ".json" := dump_residue data]> fs,
                  [Processing file; YamlError; YamlSkipped file])).
  { unfold process_file. now rewrite Hy, Hc. }
  split; [now rewrite Hc|]. split; [exact Hp|].
  rewrite Hp. apply lookup_insert_eq.
Qed.


End EncoderUse.

Lemma unserializable_yaml_leaves_json_file_witness :
  snd (@convert_yaml_to_json dated_externals dated_fs (u "d.yaml")) = None /\
  @process_file dated_externals false dated_fs (u "d.yaml")
  = (<[u "d.yaml" ++ u ".json" :=
         @dump_residue dated_externals
           (PDict [(PStr (u "d"), POther (u "date") (u "datetime.date(2001, 12, 14)"))])]>
       dated_fs,
     [Processing (u "d.yaml"); YamlError; YamlSkipped (u "d.yaml")]) /\
  fst (@process_file dated_externals false dated_fs (u "d.yaml")) !! (u "d.yaml" ++ u ".json")
  = Some (@dump_residue dated_externals
            (PDict [(PStr (u "d"), POther (u "date") (u "datetime.date(2001, 12, 14)"))])).
Proof.
  apply (@unserializable_yaml_leaves_json_file dated_externals false dated_fs
           (u "d.yaml") (u "d: 2001-12-14")); vm_compute; reflexivity.
Defined.


(** ** Indentation *)

Lemma indent_more_app a b : indent_more (a ++ b) = indent_more a ++ indent_more b.
Proof. unfold indent_more. apply flat_map_app. Qed.

Lemma indent_more_no_lf t : ~ In LF t -> indent_more t = t.
Proof.
  induction t as [|c r IH]; intros Hn; [reflexivity|].
  unfold indent_more in *. cbn [flat_map].
  destruct (N.eqb_spec c LF) as [->|Hc]; [exfalso; apply Hn; now left|].
  cbn [app]. f_equal. apply IH. intros Hin. apply Hn. now right.
Qed.

Lemma indent_more_newline_indent level :
  indent_more (newline_indent level) = newline_indent (S level).
Proof.
  unfold newline_indent, indent_more. cbn [flat_map]. rewrite N.eqb_refl.
  cbn [app]. f_equal.
  replace (4 * S level)%nat with (4 + 4 * level)%nat by lia.
  rewrite repeat_app. change (repeat 32%N 4) with [32%N; 32%N; 32%N; 32%N].
  cbn [app]. do 4 f_equal.
  induction (4 * level)%nat as [|n IH]; [reflexivity|].
  cbn [repeat flat_map]. change (32 =? LF)%N with false. cbn [app]. now rewrite IH.
Qed.

Section Indentation.
Context `{Externals}.

Lemma indent_more_join sep parts :
  indent_more (join sep parts) = join (indent_more sep) (map indent_more parts).
Proof.
  induction parts as [|p [|q parts] IH]; [reflexivity | reflexivity |].
  rewrite join_cons2. cbn [map]. rewrite join_cons2, !indent_more_app.
  f_equal. f_equal. exact IH.
Qed.

Lemma escape_char_no_lf c : ~ In LF (escape_char c).
Proof.
  unfold escape_char.
  repeat match goal with
         | |- context [if (?a =? ?b)%N then _ else _] =>
             destruct (N.eqb_spec a b); [not_in_list|]
         end.
  destruct (N.ltb_spec c 32).
  - unfold hexdigit. cbn [u app N_of_ascii In].
    intros Hin. repeat (destruct Hin as [Hin|Hin]; [try discriminate Hin|]);
      try contradiction;
      revert Hin; cmp_cases; unfold LF; lia.
  - intros [E|[]]. unfold LF in *. congruence.
Qed.

Lemma encode_basestring_no_lf s : ~ In LF (encode_basestring s).
Proof.
  unfold encode_basestring. cbn [In]. rewrite in_app_iff, in_flat_map.
  intros [E|[(c & _ & Hc)|[E|[]]]]; try discriminate E.
  now apply escape_char_no_lf in Hc.
Qed.

Lemma digits_no_lf n : ~ In LF (digits n).
Proof.
  intros Hin. destruct (digits_spec n) as (Hall & _).
  rewrite Forall_forall in Hall.
  pose proof (Hall LF (proj2 (list_elem_of_In _ _) Hin)) as Hdig. discriminate Hdig.
Qed.

Lemma int_repr_no_lf z t : int_repr z = Some t -> ~ In LF t.
Proof.
  unfold int_repr. destruct (N.ltb _ _); [discriminate|]. intros [= <-].
  unfold decimal. destruct (z <? 0); [|apply digits_no_lf].
  intros [E|Hin]; [discriminate E | now apply digits_no_lf in Hin].
Qed.

Lemma mapM_fmap_ext {A} (f g : A -> option str) (h : str -> str) (l : list A) :
  Forall (fun x => g x = h <$> f x) l ->
  mapM g l = map h <$> mapM f l.
Proof.
  induction 1 as [|x l Hx _ IH]; [reflexivity|].
  cbn [mapM]. cbn. rewrite Hx, IH.
  destruct (f x); [|reflexivity]. cbn. now destruct (mapM f l).
Qed.

(** X12.  Each nesting level indents by exactly four more spaces: the
    text the encoder produces for a value at one depth is its text at
    the depth above with four spaces inserted after every newline (as
    long as the printed form of a float holds no newline). *)
Theorem nesting_indents_by_four (v : pyval) :
  (forall s m e, ~ In LF (float_repr s m e)) ->
  forall level, json_encode (S level) v = indent_more <$> json_encode level v.
Proof.
  intros Hfloat.
  induction v as [|b|z|f|s|xs IHxs|items IHitems|t r] using pyval_nested_ind;
    intros level.
  - reflexivity.
  - destruct b; reflexivity.
  - cbn [json_encode]. destruct (int_repr z) as [t|] eqn:Ez; [|reflexivity].
    cbn [fmap option_fmap option_map].
    now rewrite indent_more_no_lf by apply (int_repr_no_lf z t Ez).
  - cbn [json_encode fmap option_fmap option_map].
    rewrite indent_more_no_lf; [reflexivity|].
    destruct f as [|[]|sg m e]; cbn [floatstr]; [not_in_list..|apply Hfloat].
  - cbn [json_encode fmap option_fmap option_map].
    now rewrite indent_more_no_lf by apply encode_basestring_no_lf.
  - destruct xs as [|x xs]; [reflexivity|]. rewrite !json_encode_list.
    rewrite (mapM_fmap_ext (json_encode (S level)) (json_encode (S (S level)))
               indent_more (x :: xs)).
    + destruct (mapM (json_encode (S level)) (x :: xs)) as [parts|]; [|reflexivity].
      cbn [fmap option_fmap option_map]. f_equal.
      change (91%N :: ?t) with ([91%N] ++ t).
      rewrite !indent_more_app, indent_more_join, !indent_more_newline_indent.
      change (44%N :: newline_indent (S level)) with ([44%N] ++ newline_indent (S level)).
      now rewrite indent_more_app, indent_more_newline_indent.
    + eapply Forall_impl; [exact IHxs|]. intros y Hy. apply Hy.
  - destruct items as [|kv items]; [reflexivity|]. rewrite !json_encode_dict.
    rewrite (mapM_fmap_ext (member_text level) (member_text (S level))
               indent_more (kv :: items)).
    + destruct (mapM (member_text level) (kv :: items)) as [parts|]; [|reflexivity].
      cbn [fmap option_fmap option_map]. f_equal.
      change (123%N :: ?t) with ([123%N] ++ t).
      rewrite !indent_more_app, indent_more_join, !indent_more_newline_indent.
      change (44%N :: newline_indent (S level)) with ([44%N] ++ newline_indent (S level)).
      now rewrite indent_more_app, indent_more_newline_indent.
    + eapply Forall_impl; [exact IHitems|]. intros y [_ Hy]. unfold member_text.
      destruct (key_text (fst y)) as [k|]; [|reflexivity].
      rewrite (Hy (S level)).
      destruct (json_encode (S level) (snd y)) as [vt|]; [|reflexivity].
      cbn [fmap option_fmap option_map]. f_equal.
      rewrite !indent_more_app.
      now rewrite (indent_more_no_lf _ (encode_basestring_no_lf k)).
  - reflexivity.
Qed.

End Indentation.

Lemma sample_float_repr_no_lf s m e : ~ In LF (sample_float_repr s m e).
Proof.
  unfold sample_float_repr. rewrite in_app_iff. intros [Hin|Hin].
  - destruct s; revert Hin; not_in_list.
  - destruct (0 <=? e); rewrite !in_app_iff in Hin.
    + destruct Hin as [Hin|Hin]; [now apply digits_no_lf in Hin | revert Hin; not_in_list].
    + destruct Hin as [Hin|[Hin|Hin]];
        [now apply digits_no_lf in Hin | revert Hin; not_in_list
        | now apply digits_no_lf in Hin].
Qed.

Lemma nesting_indents_by_four_witness :
  @json_encode sample_externals 1 (PList [PInt 1; PStr (u "two")])
  = indent_more <$> @json_encode sample_externals 0 (PList [PInt 1; PStr (u "two")]).
Proof.
  apply (@nesting_indents_by_four sample_externals (PList [PInt 1; PStr (u "two")])).
  exact sample_float_repr_no_lf.
Defined.

(** ** The directory scan and the loop *)

Section ScanAndLoop.
Context `{Externals}.

Lemma lower_app a b : lower (a ++ b) = lower a ++ lower b.
Proof. unfold lower, lower_with. apply flat_map_app. Qed.

(** X13.  The scan is case-insensitive on the suffix and looks at
    nothing else: a listed name is a candidate whenever its tail,
    lower-cased, is .json, .yaml or .yml, whatever precedes it, and a
    candidate from the scan is always a listed name. *)
Theorem scan_selects_by_suffix (listing : list str) (name suffix : str) :
  In (name ++ suffix) listing ->
  str_in (lower suffix) SCAN_SUFFIXES = true ->
  In (name ++ suffix) (scan_directory listing) /\
  In (name ++ suffix) (input_files [] listing) /\
  In (name ++ suffix) (input_files [KEEP_TEMP] listing) /\
  (forall f, In f (scan_directory listing) -> In f listing).
Proof.
  intros Hin Hs.
  assert (Hscan : In (name ++ suffix) (scan_directory listing)).
  { unfold scan_directory. apply filter_In. split; [exact Hin|].
    rewrite lower_app. unfold endswith_any. apply existsb_exists.
    apply str_in_In in Hs. exists (lower suffix). split; [exact Hs|].
    apply endswith_app. }
  repeat split; try exact Hscan.
  intros f Hf. unfold scan_directory in Hf. now apply filter_In in Hf.
Qed.

Lemma existsb_not_dot_dots dots :
  Forall (fun c => c = DOT) dots ->
  existsb (fun c => negb (c =? DOT)%N) dots = false.
Proof.
  induction 1 as [|c r -> _ IH]; [reflexivity|]. cbn [existsb].
  now rewrite N.eqb_refl.
Qed.

(** X14.  A name made of dots followed by yaml or yml, such as the
    hidden file [.yaml], is picked by the scan, which looks at the end
    of the name, but has no extension for [os.path.splitext]: the loop
    skips the YAML step and hands the file to the Markdown wrapper
    under its own name, as if it held JSON. *)
Theorem dotted_yaml_name_is_treated_as_json
    (keep_temp : bool) (fs : filesystem) (dots ext : str) :
  Forall (fun c => c = DOT) dots ->
  ext = u "yaml" \/ ext = u "yml" ->
  scan_directory [dots ++ DOT :: ext] = [dots ++ DOT :: ext] /\
  snd (splitext (dots ++ DOT :: ext)) = [] /\
  process_file keep_temp fs (dots ++ DOT :: ext)
  = (fst (markdown_pipeline keep_temp fs (dots ++ DOT :: ext) (dots ++ DOT :: ext)),
     Processing (dots ++ DOT :: ext)
       :: snd (markdown_pipeline keep_temp fs (dots ++ DOT :: ext) (dots ++ DOT :: ext))).
Proof.
  intros Hdots Hext.
  assert (Hnosep : ~ In SEP (dots ++ DOT :: ext)).
  { rewrite in_app_iff. intros [Hin|Hin].
    - rewrite Forall_forall in Hdots.
      pose proof (Hdots SEP (proj2 (list_elem_of_In _ _) Hin)) as E. discriminate E.
    - revert Hin. destruct Hext as [-> | ->]; not_in_list. }
  assert (Hnodot : ~ In DOT ext) by (destruct Hext as [-> | ->]; not_in_list).
  assert (Hsplit : splitext (dots ++ DOT :: ext) = (dots ++ DOT :: ext, [])).
  { unfold splitext, rfind. rewrite (rfind_from_notin SEP) by assumption.
    rewrite rfind_from_last by (assumption || lia).
    destruct (_ <? _); [|reflexivity].
    unfold slice, slice_to, slice_from.
    replace (Z.to_nat (0 + Z.of_nat (length dots))) with (length dots) by lia.
    rewrite take_app_length. simpl.
    replace (existsb _ dots) with false; [reflexivity|].
    symmetry. now apply existsb_not_dot_dots. }
  split; [|split].
  - unfold scan_directory. cbn [List.filter].
    replace (endswith_any (lower (dots ++ DOT :: ext)) SCAN_SUFFIXES) with true;
      [reflexivity|].
    symmetry. change (dots ++ DOT :: ext) with (dots ++ (DOT :: ext)).
    rewrite lower_app. unfold endswith_any. apply existsb_exists.
    exists (lower (DOT :: ext)). split; [|apply endswith_app].
    destruct Hext as [-> | ->]; vm_compute; tauto.
  - now rewrite Hsplit.
  - unfold process_file. rewrite Hsplit. cbn [snd].
    change (str_in (lower []) YAML_EXTENSIONS) with false. cbn iota.
    now destruct (markdown_pipeline keep_temp fs _ _).
Qed.

Lemma cleanup_log_not_processing keep fs to_remove :
  List.filter is_processing (snd (cleanup keep fs to_remove)) = [].
Proof.
  unfold cleanup. destruct keep; [reflexivity|].
  assert (Hgen : forall l st, List.filter is_processing (snd st) = [] ->
             List.filter is_processing (snd (fold_left remove_temp l st)) = []).
  { induction l as [|t l IH]; intros [g log] Hst; [exact Hst|].
    cbn [fold_left]. apply IH. unfold remove_temp.
    destruct (path_exists g t); [|exact Hst].
    destruct (os_remove g t); cbn [snd] in *;
      now rewrite List.filter_app, Hst. }
  now apply Hgen.
Qed.

Lemma markdown_pipeline_log_not_processing keep fs file json_file :
  List.filter is_processing (snd (markdown_pipeline keep fs file json_file)) = [].
Proof.
  unfold markdown_pipeline.
  destruct (prepare_markdown_file fs json_file) as [[fs2 log2] md] eqn:E2.
  assert (H2 : List.filter is_processing log2 = []).
  { revert E2. unfold prepare_markdown_file.
    destruct (negb (isfile fs json_file)); [now intros [= _ <- _]|].
    destruct (read_text fs json_file); [|now intros [= _ <- _]].
    destruct (utf8_encode _); now intros [= _ <- _]. }
  destruct md as [md_file|].
  - destruct (convert_md_to_docx fs2 md_file) as [[fs3 log3] ok] eqn:E3.
    assert (H3 : List.filter is_processing log3 = []).
    { revert E3. unfold convert_md_to_docx.
      destruct (fs2 !! md_file) as [md|]; [|now intros [= _ <- _]].
      destruct (fst (pandoc md)); now intros [= _ <- _]. }
    pose proof (cleanup_log_not_processing keep fs3
                  (removal_list file json_file md_file)) as H4.
    destruct (cleanup keep fs3 _) as [fs4 log4]. cbn [snd] in *.
    rewrite !List.filter_app, H2, H3, H4. now destruct ok.
  - cbn [snd]. now rewrite List.filter_app, H2.
Qed.

Lemma process_file_log_processing keep fs file :
  List.filter is_processing (snd (process_file keep fs file)) = [Processing file].
Proof.
  unfold process_file. destruct (str_in _ YAML_EXTENSIONS).
  - destruct (convert_yaml_to_json fs file) as [[fs1 log1] json] eqn:E1.
    assert (H1 : List.filter is_processing log1 = []).
    { revert E1. unfold convert_yaml_to_json.
      destruct (let* text := read_text fs file in safe_load text) as [data|];
        [|now intros [= _ <- _]].
      destruct (let* text := json_dumps data in utf8_encode text);
        now intros [= _ <- _]. }
    destruct json as [json_file|].
    + pose proof (markdown_pipeline_log_not_processing keep fs1 file json_file) as Hm.
      destruct (markdown_pipeline keep fs1 file json_file) as [fs' log]. cbn [snd] in *.
      cbn [List.filter is_processing]. now rewrite List.filter_app, H1, Hm.
    + cbn [snd List.filter is_processing]. now rewrite List.filter_app, H1.
  - pose proof (markdown_pipeline_log_not_processing keep fs file file) as Hm.
    destruct (markdown_pipeline keep fs file file) as [fs' log]. cbn [snd] in *.
    cbn [List.filter is_processing]. now rewrite Hm.
Qed.

Lemma process_files_announcements keep fs files :
  List.filter is_processing (snd (process_files keep fs files))
  = map Processing (announced files).
Proof.
  revert fs. induction files as [|f l IH]; intros fs; [reflexivity|].
  cbn [announced]. destruct (printable f) eqn:Hf.
  - rewrite process_files_cons by assumption. cbn [snd map].
    now rewrite List.filter_app, process_file_log_processing, IH.
  - now rewrite process_files_stop.
Qed.

Lemma announced_all files : forallb printable files = true -> announced files = files.
Proof.
  induction files as [|f l IH]; [reflexivity|]. cbn [forallb announced].
  intros Hf. apply andb_prop in Hf. destruct Hf as [-> Hl]. now rewrite IH.
Qed.

(** X16.  The announcements in the output of a run are those of the
    candidates up to the first name that cannot be printed, each once
    and in the order of the candidate list, whatever happens to the
    files: when every name can be printed, every candidate is
    announced, and no failure of a conversion stops the loop. *)
Theorem every_candidate_is_announced_once
    (args listing : list str) (fs : filesystem) :
  List.filter is_processing (snd (main args listing fs))
  = map Processing (announced (input_files args listing)) /\
  (forallb printable (input_files args listing) = true ->
   List.filter is_processing (snd (main args listing fs))
   = map Processing (input_files args listing)).
Proof.
  assert (Hmain : List.filter is_processing (snd (main args listing fs))
                  = map Processing (announced (input_files args listing))).
  { unfold main. destruct (input_files args listing) as [|f l] eqn:E; [reflexivity|].
    pose proof (process_files_announcements (keep_temp_flag args) fs (f :: l)) as Hl.
    destruct (process_files (keep_temp_flag args) fs (f :: l)) as [fs' log].
    cbn [snd] in *. cbn [List.filter is_processing]. exact Hl. }
  split; [exact Hmain|]. intros Hall. now rewrite Hmain, announced_all.
Qed.

End ScanAndLoop.

(** ** The input file itself *)

Lemma splitext_stem_of_last_dot (a e : str) :
  ~ In DOT e ->
  fst (splitext (a ++ DOT :: e)) = a \/
  fst (splitext (a ++ DOT :: e)) = a ++ DOT :: e.
Proof.
  intros He. unfold splitext, rfind.
  rewrite (rfind_from_last DOT) by (assumption || lia).
  destruct (_ <? _); [|now right].
  destruct (existsb _ _); [|now right].
  left. cbn [fst]. unfold slice_to.
  replace (Z.to_nat (0 + Z.of_nat (length a))) with (length a) by lia.
  apply take_app_length.
Qed.

Lemma docx_output_file_md (q : str) :
  docx_output_file (q ++ u ".md") = basename q ++ u ".docx" \/
  docx_output_file (q ++ u ".md") = (basename q ++ u ".md") ++ u ".docx".
Proof.
  unfold docx_output_file. rewrite basename_app by not_in_list.
  change (u ".md") with (DOT :: u "md").
  destruct (splitext_stem_of_last_dot (basename q) (u "md")) as [-> | ->];
    [not_in_list | now left | now right].
Qed.

Lemma docx_output_file_differs (file sfx : str) :
  ~ In SEP sfx -> docx_output_file ((file ++ sfx) ++ u ".md") <> file.
Proof.
  intros Hs Heq.
  assert (Hshape : exists tail, ~ In SEP tail /\ tail <> [] /\
                     docx_output_file ((file ++ sfx) ++ u ".md") = basename file ++ tail).
  { destruct (docx_output_file_md (file ++ sfx)) as [E|E]; rewrite E;
      rewrite basename_app by assumption.
    - exists (sfx ++ u ".docx"). rewrite <- app_assoc. repeat split.
      + rewrite in_app_iff. intros [Hin|Hin]; [now apply Hs | revert Hin; not_in_list].
      + destruct sfx; discriminate.
    - exists (sfx ++ u ".md" ++ u ".docx"). rewrite <- !app_assoc. repeat split.
      + rewrite in_app_iff. intros [Hin|Hin]; [now apply Hs | revert Hin; not_in_list].
      + destruct sfx; discriminate. }
  destruct Hshape as (tail & Hsep & Hne & E). rewrite E in Heq. clear E.
  destruct (basename_spec file) as [[_ Hb]|(d & n & Hfile & Hn & Hb)]; rewrite Hb in Heq.
  - now apply (suffix_differs file tail).
  - assert (Hin : In SEP (n ++ tail)).
    { rewrite Heq, Hfile, in_app_iff. right. now left. }
    rewrite in_app_iff in Hin. tauto.
Qed.

Section InputFile.
Context `{Externals}.

Lemma input_not_touched (file : str) : ~ In file (touched_paths file).
Proof.
  unfold touched_paths. destruct (str_in _ YAML_EXTENSIONS).
  - intros [E|[E|[E|[]]]].
    + now apply (suffix_differs file (u ".json")).
    + rewrite <- app_assoc in E. now apply (suffix_differs file (u ".json" ++ u ".md")).
    + revert E. apply docx_output_file_differs. not_in_list.
  - intros [E|[E|[]]].
    + now apply (suffix_differs file (u ".md")).
    + revert E. rewrite <- (app_nil_r file) at 1. apply docx_output_file_differs.
      intros [].
Qed.

(** X17.  One round of the loop never writes to or removes the file it
    processes: with or without [--keep-temp], whatever the YAML loader
    and pandoc do, the path of the input holds after the round what it
    held before.  (Paths are compared as they are written.) *)
Theorem input_file_is_left_alone (keep_temp : bool) (fs : filesystem) (file : str) :
  fst (process_file keep_temp fs file) !! file = fs !! file.
Proof. apply process_file_untouched, input_not_touched. Qed.

End InputFile.

(** ** Whole rounds and whole runs *)

Lemma docx_is_not_markdown (a b : str) : a ++ u ".docx" <> b ++ u ".md".
Proof.
  intros E. apply (f_equal (@rev N)) in E. rewrite !rev_app_distr in E.
  vm_compute in E. discriminate E.
Qed.

Lemma docx_is_not_json (a b : str) : a ++ u ".docx" <> b ++ u ".json".
Proof.
  intros E. apply (f_equal (@rev N)) in E. rewrite !rev_app_distr in E.
  vm_compute in E. discriminate E.
Qed.

Section Rounds.
Context `{Externals}.

Lemma markdown_pipeline_result keep fs file json_file content :
  read_text fs json_file = Some content ->
  exists body,
    utf8_encode content = Some body /\
    let md_file := json_file ++ u ".md" in
    let md := FENCE_OPEN ++ body ++ FENCE_CLOSE in
    let fs2 := <[md_file := md]> fs in
    let fs3 := match snd (pandoc md) with
               | Some d => <[docx_output_file md_file := d]> fs2
               | None => fs2
               end in
    let reported := if fst (pandoc md) then DocxSaved (docx_output_file md_file)
                    else DocxError in
    prepare_markdown_file fs json_file = (fs2, [MdCreated md_file], Some md_file) /\
    convert_md_to_docx fs2 md_file = (fs3, [reported], fst (pandoc md)) /\
    fs3 !! md_file = Some md /\
    markdown_pipeline keep fs file json_file
    = (fst (cleanup keep fs3 (removal_list file json_file md_file)),
       MdCreated md_file :: reported
         :: snd (cleanup keep fs3 (removal_list file json_file md_file))
         ++ (if fst (pandoc md) then [] else [FileFailed file])).
Proof.
  intros Hr. destruct (prepare_markdown_file_result fs json_file content Hr)
    as (body & Hb & Hprep).
  exists body. split; [exact Hb|]. cbv zeta.
  set (md_file := json_file ++ u ".md") in *.
  set (md := FENCE_OPEN ++ body ++ FENCE_CLOSE) in *.
  assert (Hconv : convert_md_to_docx (<[md_file := md]> fs) md_file
                  = (match snd (pandoc md) with
                     | Some d => <[docx_output_file md_file := d]> (<[md_file := md]> fs)
                     | None => <[md_file := md]> fs
                     end,
                     [if fst (pandoc md) then DocxSaved (docx_output_file md_file)
                      else DocxError], fst (pandoc md))).
  { unfold convert_md_to_docx. rewrite lookup_insert_eq.
    now destruct (fst (pandoc md)). }
  assert (Hmd : match snd (pandoc md) with
                | Some d => <[docx_output_file md_file := d]> (<[md_file := md]> fs)
                | None => <[md_file := md]> fs
                end !! md_file = Some md).
  { destruct (snd (pandoc md)); [|apply lookup_insert_eq].
    rewrite lookup_insert_ne; [apply lookup_insert_eq|].
    unfold docx_output_file, md_file. apply docx_is_not_markdown. }
  repeat split; [exact Hprep | exact Hconv | exact Hmd |].
  unfold markdown_pipeline. rewrite Hprep, Hconv.
  destruct (cleanup keep _ _) as [fs4 log4]. cbn [fst snd app].
  reflexivity.
Qed.

Lemma cleanup_one fs md_file md :
  fs !! md_file = Some md ->
  cleanup false fs [md_file] = (delete md_file fs, [TempRemoved md_file]).
Proof.
  intros Hmd. unfold cleanup. cbn [fold_left]. unfold remove_temp, path_exists, isfile.
  rewrite bool_decide_eq_true_2 by (rewrite Hmd; eauto).
  unfold os_remove. now rewrite Hmd.
Qed.

Lemma removal_list_same file md_file : removal_list file file md_file = [md_file].
Proof.
  unfold removal_list. now rewrite bool_decide_eq_false_2 by (intros Hne; now apply Hne).
Qed.

End Rounds.

Section Runs.
Context `{Externals}.

Lemma single_argument_run (file : str) (listing : list str) (fs : filesystem) :
  file <> KEEP_TEMP -> printable file = true ->
  main [file] listing fs
  = (0, fst (process_file false fs file),
     PrintVersion package_version :: snd (process_file false fs file)).
Proof.
  intros Hne Hp.
  assert (Hflag : str_eqb file KEEP_TEMP = false).
  { apply bool_decide_eq_false_2. exact Hne. }
  assert (Hkeep : keep_temp_flag [file] = false).
  { unfold keep_temp_flag, str_in. cbn [existsb]. rewrite orb_false_r.
    apply bool_decide_eq_false_2. congruence. }
  unfold main, input_files, file_arguments. cbn [List.filter]. rewrite Hflag.
  cbn [negb]. rewrite Hkeep. cbn [process_files forallb]. rewrite Hp.
  destruct (process_file false fs file) as [fs1 log1]. cbn [fst snd andb].
  now rewrite app_nil_r.
Qed.

(** C9.  A path given on the command line is a candidate whatever its
    extension: the candidates are then exactly the arguments other than
    the flag.  A readable file whose lower-cased extension is neither
    .yaml nor .yml (.txt, none at all) goes through the whole pipeline
    as a JSON file does: the Markdown wrapper fences its content in the
    file named after it with .md, the converter is run on that file, the
    Markdown file is kept under [--keep-temp] and removed otherwise, and
    a run on this one argument, when its name can be printed, ends with
    status 0 and the output of these steps. *)
Theorem explicit_arguments_not_filtered
    (args listing : list str) (fs : filesystem) (file content : str) :
  In file args -> file <> KEEP_TEMP ->
  str_in (lower (snd (splitext file))) YAML_EXTENSIONS = false ->
  read_text fs file = Some content ->
  input_files args listing = file_arguments args /\
  In file (input_files args listing) /\
  exists body,
    utf8_encode content = Some body /\
    let md_file := file ++ u ".md" in
    let md := FENCE_OPEN ++ body ++ FENCE_CLOSE in
    let fs2 := <[md_file := md]> fs in
    let fs3 := match snd (pandoc md) with
               | Some d => <[docx_output_file md_file := d]> fs2
               | None => fs2
               end in
    let reported := if fst (pandoc md) then DocxSaved (docx_output_file md_file)
                    else DocxError in
    let failed := if fst (pandoc md) then [] else [FileFailed file] in
    prepare_markdown_file fs file = (fs2, [MdCreated md_file], Some md_file) /\
    convert_md_to_docx fs2 md_file = (fs3, [reported], fst (pandoc md)) /\
    cleanup false fs3 (removal_list file file md_file)
      = (delete md_file fs3, [TempRemoved md_file]) /\
    process_file true fs file
      = (fs3, Processing file :: MdCreated md_file :: reported
                :: TempKept [md_file] :: failed) /\
    process_file false fs file
      = (delete md_file fs3,
         Processing file :: MdCreated md_file :: reported
           :: TempRemoved md_file :: failed) /\
    (printable file = true ->
     main [file] listing fs
     = (0, delete md_file fs3,
        PrintVersion package_version :: Processing file :: MdCreated md_file
          :: reported :: TempRemoved md_file :: failed)).
Proof.
  intros Hin Hne Hext Hr.
  assert (Hf : In file (file_arguments args)) by now apply file_arguments_In.
  assert (E : input_files args listing = file_arguments args).
  { apply input_files_explicit. intros E0. now rewrite E0 in Hf. }
  split; [exact E|]. split; [now rewrite E|].
  destruct (markdown_pipeline_result true fs file file content Hr)
    as (body & Hb & Hprep & Hconv & Hmd & Hkeep).
  destruct (markdown_pipeline_result false fs file file content Hr)
    as (body' & Hb' & _ & _ & _ & Hdel).
  assert (body' = body) by congruence. subst body'.
  exists body. split; [exact Hb|]. cbv zeta in *.
  rewrite removal_list_same in *. rewrite (cleanup_one _ _ _ Hmd) in Hdel.
  cbn [cleanup fst snd app] in Hkeep, Hdel.
  repeat split; [exact Hprep | exact Hconv | exact (cleanup_one _ _ _ Hmd) | | |].
  - unfold process_file. rewrite Hext, Hkeep. reflexivity.
  - unfold process_file. rewrite Hext, Hdel. reflexivity.
  - intros Hp. rewrite single_argument_run by assumption.
    unfold process_file. rewrite Hext, Hdel. reflexivity.
Qed.

Lemma process_file_missing keep fs file :
  fs !! file = None ->
  process_file keep fs file
  = (fs, Processing file
           :: (if str_in (lower (snd (splitext file))) YAML_EXTENSIONS
               then [YamlError; YamlSkipped file]
               else [FileNotFound file; MdSkipped file])).
Proof.
  intros Hf. unfold process_file. destruct (str_in _ YAML_EXTENSIONS).
  - unfold convert_yaml_to_json, read_text. now rewrite Hf.
  - unfold markdown_pipeline, prepare_markdown_file, isfile.
    rewrite bool_decide_eq_false_2; [reflexivity|].
    rewrite Hf. now intros [? ?].
Qed.

Lemma process_files_missing keep fs files :
  forallb printable files = true ->
  (forall f, In f files -> fs !! f = None) ->
  fst (process_files keep fs files) = fs /\
  forall f, In f files ->
            In (YamlSkipped f) (snd (process_files keep fs files)) \/
            In (MdSkipped f) (snd (process_files keep fs files)).
Proof.
  induction files as [|g l IH]; intros Hp Hm; [split; [reflexivity | intros f []]|].
  cbn [forallb] in Hp. apply andb_prop in Hp. destruct Hp as [Hg Hl].
  rewrite process_files_cons by assumption.
  rewrite (process_file_missing keep fs g) by (apply Hm; now left). cbn [fst snd].
  destruct IH as [IHfs IHlog]; [assumption | intros f Hf; apply Hm; now right |].
  split; [exact IHfs|]. intros f [<-|Hf].
  - destruct (str_in _ YAML_EXTENSIONS); [left | right]; cbn; tauto.
  - destruct (IHlog f Hf) as [Hin|Hin]; [left | right];
      right; rewrite in_app_iff; now right.
Qed.


Lemma process_file_keeps_document keep fs file a :
  is_Some (fs !! (a ++ u ".docx")) ->
  is_Some (fst (process_file keep fs file) !! (a ++ u ".docx")).
Proof.
  intros Hp.
  assert (Hpipe : forall g j, is_Some (g !! (a ++ u ".docx")) ->
            j = file \/ j = file ++ u ".json" ->
            is_Some (fst (markdown_pipeline keep g file j) !! (a ++ u ".docx"))).
  { intros g j Hg Hj. unfold markdown_pipeline.
    pose proof (prepare_markdown_file_grows g j _ Hg) as H2.
    destruct (prepare_markdown_file g j) as [[fs2 log2] md] eqn:E2.
    cbn [fst] in H2. destruct md as [md_file|]; [|exact H2].
    apply prepare_markdown_file_Some in E2. destruct E2 as (-> & _ & _).
    destruct (convert_md_to_docx fs2 (j ++ u ".md")) as [[fs3 log3] ok] eqn:E3.
    pose proof (convert_md_to_docx_keeps _ _ _ _ _ _ E3 H2) as H3.
    pose proof (cleanup_frame keep fs3 (removal_list file j (j ++ u ".md"))
                  (a ++ u ".docx")) as H4.
    destruct (cleanup keep fs3 _) as [fs4 log4]. cbn [fst] in *.
    rewrite H4; [exact H3|]. unfold removal_list. rewrite in_app_iff.
    intros [Hin|[Hin|[]]].
    - case_bool_decide as Hd; [|destruct Hin]. destruct Hin as [Hin|[]].
      destruct Hj as [->| ->]; [now apply Hd|].
      symmetry in Hin. now apply docx_is_not_json in Hin.
    - symmetry in Hin. now apply docx_is_not_markdown in Hin. }
  unfold process_file. destruct (str_in _ YAML_EXTENSIONS).
  - pose proof (convert_yaml_to_json_grows fs file _ Hp) as H1.
    destruct (convert_yaml_to_json fs file) as [[fs1 log1] json] eqn:E1.
    cbn [fst] in H1. destruct json as [j|]; [|exact H1].
    apply convert_yaml_to_json_Some in E1. destruct E1 as [-> _].
    specialize (Hpipe fs1 (file ++ u ".json") H1 (or_intror eq_refl)).
    now destruct (markdown_pipeline keep fs1 file _).
  - specialize (Hpipe fs file Hp (or_introl eq_refl)).
    now destruct (markdown_pipeline keep fs file file).
Qed.

Lemma process_files_keep_document keep fs files a :
  is_Some (fs !! (a ++ u ".docx")) ->
  is_Some (fst (process_files keep fs files) !! (a ++ u ".docx")).
Proof.
  revert fs. induction files as [|f l IH]; intros fs Hp; [exact Hp|].
  destruct (printable f) eqn:Hf; [|now rewrite process_files_stop].
  rewrite process_files_cons by assumption. cbn [fst].
  now apply IH, process_file_keeps_document.
Qed.

Lemma round_converts keep fs g fsj j content :
  (if str_in (lower (snd (splitext g))) YAML_EXTENSIONS
   then exists log1, convert_yaml_to_json fs g = (fsj, log1, Some j)
   else fsj = fs /\ j = g) ->
  read_text fsj j = Some content ->
  exists body,
    utf8_encode content = Some body /\
    let md_file := j ++ u ".md" in
    let md := FENCE_OPEN ++ body ++ FENCE_CLOSE in
    In (MdCreated md_file) (snd (process_file keep fs g)) /\
    In (if fst (pandoc md) then DocxSaved (docx_output_file md_file) else DocxError)
       (snd (process_file keep fs g)) /\
    (is_Some (snd (pandoc md)) ->
     is_Some (fst (process_file keep fs g) !! docx_output_file md_file)).
Proof.
  intros Hj Hr.
  destruct (markdown_pipeline_result keep fsj g j content Hr)
    as (body & Hb & _ & _ & _ & Hpipe).
  exists body. split; [exact Hb|]. cbv zeta in *.
  set (md_file := j ++ u ".md") in *.
  set (md := FENCE_OPEN ++ body ++ FENCE_CLOSE) in *.
  set (fs3 := match snd (pandoc md) with
              | Some d => <[docx_output_file md_file := d]> (<[md_file := md]> fsj)
              | None => <[md_file := md]> fsj
              end) in *.
  assert (Hj' : j = g \/ j = g ++ u ".json").
  { destruct (str_in _ YAML_EXTENSIONS); [|now left].
    destruct Hj as (log1 & Hc). apply convert_yaml_to_json_Some in Hc. now right. }
  assert (Hdoc : is_Some (snd (pandoc md)) ->
            is_Some (fst (cleanup keep fs3 (removal_list g j md_file))
                       !! docx_output_file md_file)).
  { intros [d Hd]. rewrite cleanup_frame.
    - subst fs3. rewrite Hd, lookup_insert_eq. eauto.
    - unfold removal_list. rewrite in_app_iff. unfold docx_output_file.
      intros [Hin|[Hin|[]]].
      + case_bool_decide as Hne; [|destruct Hin]. destruct Hin as [Hin|[]].
        destruct Hj' as [->| ->]; [now apply Hne|].
        symmetry in Hin. now apply docx_is_not_json in Hin.
      + symmetry in Hin. now apply docx_is_not_markdown in Hin. }
  unfold process_file. destruct (str_in _ YAML_EXTENSIONS).
  - destruct Hj as (log1 & Hc). rewrite Hc, Hpipe. cbn [fst snd].
    repeat split; [| |exact Hdoc].
    + right. rewrite in_app_iff. right. now left.
    + right. rewrite in_app_iff. right. right. now left.
  - destruct Hj as [-> ->]. rewrite Hpipe. cbn [fst snd].
    repeat split; [| |exact Hdoc].
    + right. now left.
    + right. right. now left.
Qed.

Lemma batch_converts keep fs l1 g l2 fsj j content :
  forallb printable (l1 ++ g :: l2) = true ->
  (if str_in (lower (snd (splitext g))) YAML_EXTENSIONS
   then exists log1,
       convert_yaml_to_json (fst (process_files keep fs l1)) g = (fsj, log1, Some j)
   else fsj = fst (process_files keep fs l1) /\ j = g) ->
  read_text fsj j = Some content ->
  exists body,
    utf8_encode content = Some body /\
    let md_file := j ++ u ".md" in
    let md := FENCE_OPEN ++ body ++ FENCE_CLOSE in
    In (MdCreated md_file) (snd (process_files keep fs (l1 ++ g :: l2))) /\
    In (if fst (pandoc md) then DocxSaved (docx_output_file md_file) else DocxError)
       (snd (process_files keep fs (l1 ++ g :: l2))) /\
    (is_Some (snd (pandoc md)) ->
     is_Some (fst (process_files keep fs (l1 ++ g :: l2)) !! docx_output_file md_file)).
Proof.
  intros Hp Hj Hr. rewrite forallb_app in Hp. apply andb_prop in Hp.
  destruct Hp as [Hp1 Hp2]. cbn [forallb] in Hp2. apply andb_prop in Hp2.
  destruct Hp2 as [Hg Hp2].
  destruct (round_converts keep _ g fsj j content Hj Hr)
    as (body & Hb & Hmd & Hrep & Hdoc).
  exists body. split; [exact Hb|]. cbv zeta in *.
  rewrite process_files_app, process_files_cons by assumption. cbn [fst snd].
  repeat split.
  - rewrite !in_app_iff. right. now left.
  - rewrite !in_app_iff. right. now left.
  - intros Hd. unfold docx_output_file in *.
    now apply process_files_keep_document, Hdoc.
Qed.


End Runs.

(** ** The claims about whole runs on concrete runs *)

#[local] Existing Instance sample_externals.




Lemma explicit_arguments_not_filtered_witness :
  input_files [u "notes.txt"] [] = file_arguments [u "notes.txt"] /\
  exists body,
    utf8_encode (u "hello") = Some body /\
    let md_file := u "notes.txt" ++ u ".md" in
    let md := FENCE_OPEN ++ body ++ FENCE_CLOSE in
    let fs3 := match snd (pandoc md) with
               | Some d => <[docx_output_file md_file := d]> (<[md_file := md]> notes_fs)
               | None => <[md_file := md]> notes_fs
               end in
    let reported := if fst (pandoc md) then DocxSaved (docx_output_file md_file)
                    else DocxError in
    let failed := if fst (pandoc md) then [] else [FileFailed (u "notes.txt")] in
    main [u "notes.txt"] [] notes_fs
    = (0, delete md_file fs3,
       PrintVersion package_version :: Processing (u "notes.txt") :: MdCreated md_file
         :: reported :: TempRemoved md_file :: failed).
Proof.
  destruct (explicit_arguments_not_filtered [u "notes.txt"] [] notes_fs
              (u "notes.txt") (u "hello"))
    as (E & _ & body & Hb & _ & _ & _ & _ & _ & Hmain);
    [now left | intros E; vm_compute in E; discriminate E
    | vm_compute; reflexivity | vm_compute; reflexivity |].
  split; [exact E|]. exists body. split; [exact Hb|]. exact (Hmain eq_refl).
Defined.

Example sample_batch_run :
  fst (process_files false sample_fs [u "a.yaml"; u "bad.yaml"; u "b.json"])
    !! u "a.yaml.json.docx" = Some (u "PK") /\
  fst (process_files false sample_fs [u "a.yaml"; u "bad.yaml"; u "b.json"])
    !! u "b.json.docx" = Some (u "PK") /\
  fst (process_files false sample_fs [u "a.yaml"; u "bad.yaml"; u "b.json"])
    !! u "bad.yaml.json" = None /\
  fst (process_files false sample_fs [u "a.yaml"; u "bad.yaml"; u "b.json"])
    !! u "b.json.md" = None.
Proof. vm_compute. repeat split. Qed.

(** ** The further properties on concrete runs *)

Ltac not_in_computed :=
  let Hin := fresh "Hin" in
  intros Hin; vm_compute in Hin;
  repeat (destruct Hin as [Hin|Hin]; [discriminate Hin|]); exact Hin.

Lemma run_leaves_other_names_alone_witness :
  snd (fst (@main sample_externals [u "a.yaml"; u "b.json"] [] sample_fs)) !! u "a.yaml"
  = sample_fs !! u "a.yaml".
Proof.
  apply (@run_leaves_other_names_alone sample_externals). vm_compute. reflexivity.
Defined.

Lemma keep_temp_never_removes_witness :
  is_Some (fst (@process_files sample_externals true sample_fs ([] ++ [u "a.yaml"; u "b.json"]))
             !! u "bad.yaml").
Proof.
  apply (@keep_temp_never_removes sample_externals sample_fs [] [u "a.yaml"; u "b.json"]).
  vm_compute. eauto.
Defined.

Lemma process_file_footprint_witness :
  fst (@process_file sample_externals false sample_fs (u "a.yaml")) !! u "b.json"
  = sample_fs !! u "b.json".
Proof.
  apply (@process_file_footprint sample_externals false sample_fs (u "a.yaml") (u "b.json")).
  not_in_computed.
Defined.

Lemma scan_selects_by_suffix_witness :
  In (u "Report" ++ u ".YAML")
     (@scan_directory sample_externals [u "x.txt"; u "Report.YAML"]) /\
  In (u "Report" ++ u ".YAML")
     (@input_files sample_externals [] [u "x.txt"; u "Report.YAML"]) /\
  In (u "Report" ++ u ".YAML")
     (@input_files sample_externals [KEEP_TEMP] [u "x.txt"; u "Report.YAML"]) /\
  (forall f, In f (@scan_directory sample_externals [u "x.txt"; u "Report.YAML"]) ->
             In f [u "x.txt"; u "Report.YAML"]).
Proof.
  apply (@scan_selects_by_suffix sample_externals [u "x.txt"; u "Report.YAML"]
           (u "Report") (u ".YAML")).
  - simpl. tauto.
  - vm_compute. reflexivity.
Defined.

Lemma dotted_yaml_name_is_treated_as_json_witness :
  @scan_directory sample_externals [[] ++ DOT :: u "yaml"] = [[] ++ DOT :: u "yaml"] /\
  snd (splitext ([] ++ DOT :: u "yaml")) = [] /\
  @process_file sample_externals false sample_fs ([] ++ DOT :: u "yaml")
  = (fst (@markdown_pipeline sample_externals false sample_fs
            ([] ++ DOT :: u "yaml") ([] ++ DOT :: u "yaml")),
     Processing ([] ++ DOT :: u "yaml")
       :: snd (@markdown_pipeline sample_externals false sample_fs
                 ([] ++ DOT :: u "yaml") ([] ++ DOT :: u "yaml"))).
Proof.
  apply (@dotted_yaml_name_is_treated_as_json sample_externals false sample_fs []
           (u "yaml")).
  - constructor.
  - now left.
Defined.
